(** * fastllm, applications/finetune-embedding/main.py

    A shallow embedding of the stratified batch sampler
    ([StratifiedSampler]), of the Optuna objective ([objective]) and of the
    module-level search driver, with the properties of the specification
    stated and proved over it.

    Layout: the Python runtime fragments the script relies on ([Py]), the
    NumPy routines ([np]) and the scikit-learn splitter ([sklearn]) that
    [gen_sample_array] calls, the sampler itself, then the objective and the
    driver over a log of calls to the external collaborators; the lemmas and
    theorems come last. *)

From Stdlib Require Import String Ascii DecimalString.
From Stdlib Require Import ZArith List Lia Bool Arith PeanoNat.
From Stdlib Require Import Permutation Sorting.Sorted.
From Stdlib Require Import QArith Qround.
From Stdlib Require Import Floats.SpecFloat Floats.PrimFloat.
From Stdlib Require Floats.FloatAxioms.
Import ListNotations.

Set Warnings "-inexact-float,-register-all".
Set Implicit Arguments.
Local Open Scope Z_scope.

(* ------------------------------------------------------------------ *)
(** ** Python runtime *)

Module Py.

(** The exceptions that can surface in the script.  [Raised] stands for a
    fault thrown inside an external collaborator (data loading, model
    construction, training, ...), named by the collaborator. *)
Inductive exn : Type :=
| ZeroDivisionError
| OverflowError
| ValueError (msg : string)
| StopIteration
| IndexError
| KeyError (key : string)
| Raised (what : string).

Definition result (A : Type) : Type := (exn + A)%type.

Definition ok {A} (a : A) : result A := inr a.
Definition raise {A} (e : exn) : result A := inl e.

(** binary64, the format of a Python [float]. *)
Definition prec : Z := 53.
Definition emax : Z := 1024.

(** [a / b] on two Python ints ([long_true_divide]).  The quotient of the two
    integers is rounded once, to the nearest binary64 value, ties to even;
    the integers themselves are not rounded first, so the operands are
    handed to the IEEE division as exact mantissas with exponent 0.
    A zero divisor raises [ZeroDivisionError], a quotient beyond the largest
    float raises [OverflowError]. *)
Definition int_as_float (a : Z) : spec_float :=
  match a with
  | Z0 => S754_zero false
  | Zpos p => S754_finite false p 0
  | Zneg p => S754_finite true p 0
  end.

Definition truediv (a b : Z) : result spec_float :=
  if b =? 0 then raise ZeroDivisionError
  else
    match SFdiv prec emax (int_as_float a) (int_as_float b) with
    | S754_infinity _ => raise OverflowError
    | q => ok q
    end.

(** [int(x)] on a float: truncation towards zero; infinities and NaN
    raise. *)
Definition int_of_float (x : spec_float) : result Z :=
  match x with
  | S754_zero _ => ok 0
  | S754_finite s m e =>
      let mag := match e with
                 | Zneg k => Z.shiftr (Zpos m) (Zpos k)
                 | _ => Z.shiftl (Zpos m) e
                 end in
      ok (if s then - mag else mag)
  | S754_infinity _ => raise OverflowError
  | S754_nan => raise (ValueError "cannot convert float NaN to integer")
  end.

(** [l[start:stop]] with integer bounds: a negative bound counts from the
    end, and both are clamped to the length. *)
Definition slice_bound (len i : Z) : nat :=
  Z.to_nat (if i <? 0 then Z.max 0 (len + i) else Z.min i len).

Definition slice {A} (l : list A) (start stop : Z) : list A :=
  let len := Z.of_nat (List.length l) in
  let a := slice_bound len start in
  let b := slice_bound len stop in
  firstn (b - a) (skipn a l).

(** [str(n)] of an int, as spliced into an f-string. *)
Definition str_of_int (n : Z) : string := NilZero.string_of_int (Z.to_int n).

End Py.

Import Py.

(* ------------------------------------------------------------------ *)
(** ** NumPy *)

Module np.

(** The global random state.  What the generator will hand out is a tape of
    raw draws, read from the front; an exhausted tape keeps answering 0.
    Every property below is stated for all tapes. *)
Definition rng : Type := list nat.

(** A computation that draws from the random state. *)
Definition Rand (A : Type) : Type := rng -> A * rng.

Definition ret {A} (a : A) : Rand A := fun t => (a, t).

Definition bind {A B} (c : Rand A) (k : A -> Rand B) : Rand B :=
  fun t => let (a, t') := c t in k a t'.

Notation "x <- c ;; k" := (bind c (fun x => k))
  (at level 61, c at next level, right associativity).

(** [random_interval(max)]: an integer in [[0, max]]. *)
Definition random_interval (max : nat) : Rand nat :=
  fun t => match t with
           | [] => (O, [])
           | d :: t' => (Nat.modulo d (S max), t')
           end.

(** [x[i] = v] on an array, nothing out of range (the callers stay in
    range). *)
Fixpoint set_item {A} (x : list A) (i : nat) (v : A) : list A :=
  match x, i with
  | [], _ => []
  | _ :: x', O => v :: x'
  | a :: x', S i' => a :: set_item x' i' v
  end.

(** [x[i], x[j] = x[j], x[i]]. *)
Definition swap {A} (x : list A) (i j : nat) : list A :=
  match nth_error x i, nth_error x j with
  | Some a, Some b => set_item (set_item x i b) j a
  | _, _ => x
  end.

(** [RandomState.shuffle]: Fisher-Yates,
    [for i in reversed(range(1, n)): j = random_interval(i); swap]. *)
Fixpoint shuffle_from {A} (i : nat) (x : list A) : Rand (list A) :=
  match i with
  | O => ret x
  | S i' => j <- random_interval i ;; shuffle_from i' (swap x i j)
  end.

Definition shuffle {A} (x : list A) : Rand (list A) :=
  shuffle_from (List.length x - 1) x.

(** [rng.permutation(x)] for an array [x]: a shuffled copy;
    [rng.permutation(n)] for an int: [arange(n)] shuffled. *)
Definition permutation {A} (x : list A) : Rand (list A) := shuffle x.

Definition arange (n : nat) : list nat := seq 0 n.

Definition permutation_int (n : Z) : Rand (list nat) :=
  shuffle (arange (Z.to_nat n)).

(** [a.take(idx, mode="clip")]: indices beyond the end read the last
    element. *)
Definition take_clip (a idx : list nat) : list nat :=
  map (fun p => nth (Nat.min p (List.length a - 1)) a O) idx.

(** [rng.choice(a, size=k, replace=False)]:
    [a[rng.permutation(len(a))[:k]]]. *)
Definition choice (a : list nat) (k : Z) : Rand (list nat) :=
  idx <- permutation_int (Z.of_nat (List.length a)) ;;
  ret (map (fun p => nth p a O) (slice idx 0 k)).

(** [np.unique(y)]: the distinct values, ascending. *)
Fixpoint insert_unique (v : Z) (l : list Z) : list Z :=
  match l with
  | [] => [v]
  | w :: l' =>
      if v <? w then v :: l
      else if v =? w then l
      else w :: insert_unique v l'
  end.

Definition unique (y : list Z) : list Z := fold_right insert_unique [] y.

(** The second result of [np.unique(y, return_inverse=True)]: for each
    element its position among the distinct values. *)
Fixpoint index_of (v : Z) (classes : list Z) : nat :=
  match classes with
  | [] => O
  | c :: cs => if v =? c then O else S (index_of v cs)
  end.

Definition unique_inverse (y : list Z) : list nat :=
  map (fun v => index_of v (unique y)) y.

(** [np.bincount(x)]: how often each of [0 .. max(x)] occurs. *)
Definition bincount (x : list nat) : list Z :=
  match x with
  | [] => []
  | _ => map (fun v => Z.of_nat (count_occ Nat.eq_dec x v))
             (seq 0 (S (list_max x)))
  end.

(** [np.argsort(keys, kind="mergesort")]: the positions ordered by key, the
    sort being stable. *)
Fixpoint insert_by (keys : list nat) (i : nat) (l : list nat) : list nat :=
  match l with
  | [] => [i]
  | j :: l' =>
      if (nth i keys O <=? nth j keys O)%nat then i :: l
      else j :: insert_by keys i l'
  end.

Definition argsort (keys : list nat) : list nat :=
  fold_right (insert_by keys) [] (seq 0 (List.length keys)).

(** [np.cumsum]. *)
Fixpoint cumsum_from (acc : Z) (l : list Z) : list Z :=
  match l with
  | [] => []
  | c :: l' => (acc + c) :: cumsum_from (acc + c) l'
  end.

Definition cumsum (l : list Z) : list Z := cumsum_from 0 l.

(** [np.split(ary, cuts)]: [ary[0:c1], ary[c1:c2], ..., ary[ck:]]. *)
Fixpoint split_from {A} (ary : list A) (start : Z) (cuts : list Z)
  : list (list A) :=
  match cuts with
  | [] => [slice ary start (Z.of_nat (List.length ary))]
  | c :: cuts' => slice ary start c :: split_from ary c cuts'
  end.

Definition split {A} (ary : list A) (cuts : list Z) : list (list A) :=
  split_from ary 0 cuts.

(** [np.sum], [np.min] (of a non-empty array), [np.hstack],
    [np.where(a == v)] and the in-place [a[inds] += 1]. *)
Definition sum (l : list Z) : Z := fold_right Z.add 0 l.

Definition min (l : list Z) : Z :=
  match l with
  | [] => 0
  | c :: l' => fold_right Z.min c l'
  end.

Definition hstack {A} (parts : list (list A)) : list A := List.concat parts.

Fixpoint where_eq_from (i : nat) (a : list Z) (v : Z) : list nat :=
  match a with
  | [] => []
  | w :: a' =>
      if w =? v then i :: where_eq_from (S i) a' v
      else where_eq_from (S i) a' v
  end.

Definition where_eq (a : list Z) (v : Z) : list nat := where_eq_from 0 a v.

Fixpoint add_one_from (i : nat) (a : list Z) (inds : list nat) : list Z :=
  match a with
  | [] => []
  | w :: a' =>
      (if existsb (Nat.eqb i) inds then w + 1 else w)
        :: add_one_from (S i) a' inds
  end.

Definition add_one_at (a : list Z) (inds : list nat) : list Z :=
  add_one_from 0 a inds.

(** [float64]: an integer cast to binary64, as NumPy casts an [int64]
    operand of a true division or of a product with doubles; the nearest
    double, ties to even. *)
Definition float64 (c : Z) : spec_float := binary_normalize prec emax c 0 false.

(** [a / b] and [a * b] on doubles. *)
Definition true_divide (a b : spec_float) : spec_float := SFdiv prec emax a b.

Definition multiply (a b : spec_float) : spec_float := SFmul prec emax a b.

(** A double counted in units of 2^-1074, the weight of the last bit of the
    smallest double: every finite double is a whole number of them.  Its
    integral part [np.floor(x)] and its fractional part [x - np.floor(x)]
    are doubles again, so both are exact: the first is carried as an
    integer (integer-valued doubles below 2^53, their sums and their
    increments by one are exact), the second as its number of units, which
    orders and compares fractional parts as the doubles do.  An infinity or
    a NaN, which only a count beyond the doubles or a zero sum can give,
    counts as 0. *)
Definition units (x : spec_float) : Z :=
  match x with
  | S754_finite s m e => Z.shiftl (if s then Zneg m else Zpos m) (e + 1074)
  | _ => 0
  end.

Definition floor (x : spec_float) : Z := units x / 2 ^ 1074.

Definition fractional (x : spec_float) : Z := units x mod 2 ^ 1074.

End np.

(* ------------------------------------------------------------------ *)
(** ** scikit-learn: [model_selection.StratifiedShuffleSplit] *)

Module sklearn.

Import np.

(** [StratifiedShuffleSplit(n_splits=..., test_size=...)]; [train_size] and
    [random_state] keep their default [None], so the splitter draws from the
    global NumPy state. *)
Record StratifiedShuffleSplit : Type := {
  n_splits : Z;
  test_size : Q
}.

Definition get_n_splits (s : StratifiedShuffleSplit) : Z := n_splits s.

(** [_validate_shuffle_split] for a float [test_size] and no [train_size]:
    [n_test = ceil(test_size * n_samples)], the rest trains. *)
Definition _validate_shuffle_split (n_samples : Z) (test_size : Q)
  : result (Z * Z) :=
  if (Qle_bool test_size 0 || Qle_bool 1 test_size)%bool then
    raise (ValueError "test_size should be in the (0, 1) range")
  else
    let n_test := Qceiling (test_size * inject_Z n_samples) in
    let n_train := n_samples - n_test in
    if n_train =? 0 then
      raise (ValueError "the resulting train set will be empty")
    else ok (n_train, n_test).

(** The loop of [_approximate_mode] over the distinct remainders, largest
    first: each round hands one more draw to [add_now] of the classes that
    share the remainder, chosen at random. *)
Fixpoint add_by_remainder (remainder values floored : list Z)
  (need_to_add : Z) : Rand (list Z) :=
  match values with
  | [] => ret floored
  | value :: values' =>
      let inds := where_eq remainder value in
      let add_now := Z.min (Z.of_nat (List.length inds)) need_to_add in
      inds' <- choice inds add_now ;;
      let floored' := add_one_at floored inds' in
      let need_to_add' := need_to_add - add_now in
      if need_to_add' =? 0 then ret floored'
      else add_by_remainder remainder values' floored' need_to_add'
  end.

(** [_approximate_mode(class_counts, n_draws, rng)]:
    [continuous = class_counts / class_counts.sum() * n_draws] in binary64,
    each count cast to a double, divided by the sum cast to a double, the
    quotient multiplied by [n_draws] cast to a double, every operation
    rounded; [floored = np.floor(continuous)];
    [need_to_add = int(n_draws - floored.sum())]; the missing draws go to
    the largest values of [remainder = continuous - floored]. *)
Definition _approximate_mode (class_counts : list Z) (n_draws : Z)
  : Rand (list Z) :=
  let total := sum class_counts in
  let continuous :=
    map (fun c => multiply (true_divide (float64 c) (float64 total))
                    (float64 n_draws)) class_counts in
  let floored := map floor continuous in
  let need_to_add := n_draws - sum floored in
  if 0 <? need_to_add then
    let remainder := map fractional continuous in
    let values := rev (unique remainder) in
    add_by_remainder remainder values floored need_to_add
  else ret floored.

(** What [_iter_indices] has computed when it enters its loop. *)
Record prepared : Type := {
  n_train : Z;
  n_test : Z;
  n_classes : nat;
  class_counts : list Z;
  class_indices : list (list nat)
}.

(** The part of [_iter_indices] before the loop.  [x_rows] is the number of
    rows of [X], the only thing read from [X]. *)
Definition prepare (s : StratifiedShuffleSplit) (x_rows : nat) (y : list Z)
  : result prepared :=
  if negb (x_rows =? List.length y)%nat then
    raise (ValueError "inconsistent numbers of samples")
  else
    match _validate_shuffle_split (Z.of_nat x_rows) (test_size s) with
    | inl e => raise e
    | inr (n_train, n_test) =>
        let classes := unique y in
        let y_indices := unique_inverse y in
        let n_classes := List.length classes in
        let class_counts := bincount y_indices in
        if min class_counts <? 2 then
          raise (ValueError "The least populated class in y has only 1 member")
        else if n_train <? Z.of_nat n_classes then
          raise (ValueError "train_size should be at least the number of classes")
        else if n_test <? Z.of_nat n_classes then
          raise (ValueError "test_size should be at least the number of classes")
        else
          ok {| n_train := n_train;
                n_test := n_test;
                n_classes := n_classes;
                class_counts := class_counts;
                class_indices :=
                  split (argsort y_indices) (removelast (cumsum class_counts)) |}
    end.

(** [for i in range(n_classes)]: the members of class [i] in random order,
    the first [n_i[i]] to [train], the next [t_i[i]] to [test]. *)
Fixpoint per_class (p : prepared) (n_i t_i : list Z) (classes : list nat)
  (train test : list nat) : Rand (list nat * list nat) :=
  match classes with
  | [] => ret (train, test)
  | i :: classes' =>
      permutation <- permutation_int (nth i (class_counts p) 0) ;;
      let perm_indices_class_i :=
        take_clip (nth i (class_indices p) []) permutation in
      per_class p n_i t_i classes'
        (train ++ slice perm_indices_class_i 0 (nth i n_i 0))
        (test ++ slice perm_indices_class_i (nth i n_i 0)
                   (nth i n_i 0 + nth i t_i 0))
  end.

(** One round of the loop of [_iter_indices], up to its [yield]. *)
Definition one_split (p : prepared) : Rand (list nat * list nat) :=
  n_i <- _approximate_mode (class_counts p) (n_train p) ;;
  let class_counts_remaining :=
    map (fun cn => fst cn - snd cn) (combine (class_counts p) n_i) in
  t_i <- _approximate_mode class_counts_remaining (n_test p) ;;
  tt' <- per_class p n_i t_i (seq 0 (n_classes p)) [] [] ;;
  train <- permutation (fst tt') ;;
  test <- permutation (snd tt') ;;
  ret (train, test).

(** The generator object [s.split(X, y)] returns.  Its body runs only when
    it is advanced: [Unstarted] has run nothing, [Suspended k] waits at the
    [yield] with [k] rounds of [for _ in range(n_splits)] to go. *)
Inductive generator : Type :=
| Unstarted (s : StratifiedShuffleSplit) (x_rows : nat) (y : list Z)
| Suspended (rounds : nat) (p : prepared)
| Exhausted.

(** [s.split(X, y)]: [check_array] refuses an empty [y] at the call, the
    rest is deferred. *)
Definition split (s : StratifiedShuffleSplit) (x_rows : nat) (y : list Z)
  : result generator :=
  match y with
  | [] => raise (ValueError "Found array with 0 sample(s)")
  | _ => ok (Unstarted s x_rows y)
  end.

Definition resume (rounds : nat) (p : prepared) (t : rng)
  : result (list nat * list nat * generator) * rng :=
  match rounds with
  | O => (raise StopIteration, t)
  | S rounds' =>
      let (tt', t') := one_split p t in
      (ok (tt', Suspended rounds' p), t')
  end.

(** [next(g)]: runs the generator to its next [yield].  A generator whose
    loop is over raises [StopIteration]. *)
Definition next (g : generator) (t : rng)
  : result (list nat * list nat * generator) * rng :=
  match g with
  | Unstarted s x_rows y =>
      match prepare s x_rows y with
      | inl e => (raise e, t)
      | inr p => resume (Z.to_nat (n_splits s)) p t
      end
  | Suspended rounds p => resume rounds p t
  | Exhausted => (raise StopIteration, t)
  end.

End sklearn.

(* ------------------------------------------------------------------ *)
(** ** The sampler *)

(** A 1-d tensor of class labels. *)
Definition tensor : Type := list Z.

(** [class_vector.size(0)] and [len(class_vector)]. *)
Definition size0 (t : tensor) : Z := Z.of_nat (List.length t).

(** [class StratifiedSampler(Sampler)]. *)
Record StratifiedSampler : Type := {
  n_splits : Z;
  class_vector : tensor
}.

(** [__init__]: [self.n_splits = int(class_vector.size(0) / batch_size)]. *)
Definition __init__ (class_vector : tensor) (batch_size : Z)
  : result StratifiedSampler :=
  match truediv (size0 class_vector) batch_size with
  | inl e => raise e
  | inr q =>
      match int_of_float q with
      | inl e => raise e
      | inr n => ok {| n_splits := n; class_vector := class_vector |}
      end
  end.

(** [gen_sample_array].  [X = torch.randn(N, 2).numpy()] draws from torch's
    generator, not from NumPy's, and only its row count is read. *)
Definition gen_sample_array (self : StratifiedSampler) (t : np.rng)
  : result (list nat) * np.rng :=
  let s := {| sklearn.n_splits := n_splits self;
              sklearn.test_size := 1 # 2 |} in
  let X := List.length (class_vector self) in
  let y := class_vector self in
  let _ := sklearn.get_n_splits s in
  match sklearn.split s X y with
  | inl e => (raise e, t)
  | inr g =>
      match sklearn.next g t with
      | (inl e, t') => (raise e, t')
      | (inr (train_index, test_index, _), t') =>
          (ok (np.hstack [train_index; test_index]), t')
      end
  end.

(** [__iter__]: [iter(self.gen_sample_array())]; the iterator is the index
    array read from the front. *)
Definition __iter__ (self : StratifiedSampler) (t : np.rng)
  : result (list nat) * np.rng :=
  gen_sample_array self t.

(** [__len__]. *)
Definition __len__ (self : StratifiedSampler) : Z :=
  size0 (class_vector self).

(* ------------------------------------------------------------------ *)
(** ** The objective and the search driver *)

(** Values that reach [print], [log_hyperparams] or a trial's parameter
    mapping.  A [VDict] keeps its items in insertion order, [VKeys] is the
    view [d.keys()], and [VFString] an f-string, its literal pieces and
    formatted fields in order. *)
Inductive pyvalue : Type :=
| VNone
| VInt (n : Z)
| VFloat (x : float)
| VStr (s : string)
| VDict (items : list (string * pyvalue))
| VKeys (keys : list string)
| VFString (parts : list pyvalue).

Definition dict : Type := list (string * pyvalue).

(** [d[key] = v]: a present key keeps its place. *)
Fixpoint dict_set (d : dict) (key : string) (v : pyvalue) : dict :=
  match d with
  | [] => [(key, v)]
  | (k, w) :: d' =>
      if String.eqb k key then (k, v) :: d' else (k, w) :: dict_set d' key v
  end.

(** A mapping of metric names to floats, as [trainer.test] returns them;
    [m[key]] raises [KeyError] on a missing key. *)
Definition metrics : Type := list (string * float).

Fixpoint getitem (m : metrics) (key : string) : result float :=
  match m with
  | [] => raise (KeyError key)
  | (k, v) :: m' => if String.eqb k key then ok v else getitem m' key
  end.

(** [l[0]]. *)
Definition first {A} (l : list A) : result A :=
  match l with
  | [] => raise IndexError
  | a :: _ => ok a
  end.

(** The object types of the external collaborators.  The script only passes
    such objects on, so they stay abstract. *)
Record Objects : Type := {
  DataFrame : Type;
  Target : Type;
  Dataset : Type;
  Loader : Type;
  Model : Type;
  Callback : Type;
  Logger : Type;
  Trainer : Type
}.

Section Script.

Variable Ob : Objects.

(** The nine parts [load_and_split_data()] returns. *)
Record splits : Type := {
  train_df1 : DataFrame Ob;
  val_df1 : DataFrame Ob;
  test_df1 : DataFrame Ob;
  train_df2 : DataFrame Ob;
  val_df2 : DataFrame Ob;
  test_df2 : DataFrame Ob;
  train_target : Target Ob;
  val_target : Target Ob;
  test_target : Target Ob
}.

(** A call that leaves the script: to the trial, to standard output, or to
    one of the collaborators, with the arguments it is made with. *)
Inductive call : Type :=
| call_suggest_int (trial : nat) (name : string) (low high : Z) (log : bool)
| call_suggest_categorical (trial : nat) (name : string) (choices : list Z)
| call_suggest_loguniform (trial : nat) (name : string) (low high : float)
| call_print (v : pyvalue)
| call_load_and_split_data
| call_EmbeddingDataset (df1 df2 : DataFrame Ob) (target : Target Ob)
| call_torch_tensor (data : Target Ob)
| call_DataLoader (dataset : Dataset Ob) (batch_size : Z)
    (sampler : option StratifiedSampler)
| call_SimilarityModel (embedding_size n_dims : Z)
    (dropout_fraction lr : float)
| call_ModelCheckpoint (monitor dirpath filename : string) (save_top_k : Z)
    (mode : string)
| call_TensorBoardLogger (save_dir name : string)
| call_log_hyperparams (logger : Logger Ob) (params : dict)
| call_Trainer (max_epochs : Z) (logger : Logger Ob)
    (callbacks : list (Callback Ob))
| call_fit (trainer : Trainer Ob) (model : Model Ob)
    (train_loader val_loader : Loader Ob)
| call_test (trainer : Trainer Ob) (model : Model Ob) (test_loader : Loader Ob).

(** Test doubles for the collaborators.  Each answers the call that ends the
    history it is given (every call made so far, oldest first), with a value
    or with a fault; an answer may depend on the whole history. *)
Record doubles : Type := {
  trial_suggest_int : list call -> result Z;
  trial_suggest_categorical : list call -> result Z;
  trial_suggest_loguniform : list call -> result float;
  load_and_split_data : list call -> result splits;
  EmbeddingDataset : list call -> result (Dataset Ob);
  torch_tensor : list call -> result tensor;
  DataLoader : list call -> result (Loader Ob);
  SimilarityModel : list call -> result (Model Ob);
  ModelCheckpoint : list call -> result (Callback Ob);
  TensorBoardLogger : list call -> result (Logger Ob);
  log_hyperparams : list call -> result unit;
  pl_Trainer : list call -> result (Trainer Ob);
  trainer_fit : list call -> result unit;
  trainer_test : list call -> result (list metrics)
}.

Variable ext : doubles.

(** The script's effects: it reads the history of calls, holds the
    parameters Optuna has stored for the running trial, and yields a value
    or a fault together with the calls it made itself. *)
Definition M (A : Type) : Type :=
  list call -> dict -> result A * list call * dict.

Definition ret {A} (a : A) : M A := fun _ st => (ok a, [], st).

Definition bind {A B} (c : M A) (k : A -> M B) : M B :=
  fun h st =>
    match c h st with
    | (inl e, out, st') => (raise e, out, st')
    | (inr a, out, st') =>
        match k a (h ++ out) st' with
        | (r, out', st'') => (r, out ++ out', st'')
        end
    end.

Notation "x <- c ;; k" := (bind c (fun x => k))
  (at level 61, c at next level, right associativity).
Notation "c ;;; k" := (bind c (fun _ => k))
  (at level 61, right associativity).

Definition lift {A} (r : result A) : M A := fun _ st => (r, [], st).

Definition external {A} (c : call) (answer : list call -> result A) : M A :=
  fun h st => (answer (h ++ [c]), [c], st).

Definition print (v : pyvalue) : M unit :=
  fun _ st => (ok tt, [call_print v], st).

Definition set_param (name : string) (v : pyvalue) : M unit :=
  fun _ st => (ok tt, [], dict_set st name v).

(** The study starts a trial with no parameters, and reads them back when
    the trial is over. *)
Definition new_trial : M unit := fun _ _ => (ok tt, [], []).

Definition get_params : M dict := fun _ st => (ok st, [], st).

(** [optuna.trial.Trial]: a suggestion asks the study's sampler and stores
    the answer under the parameter's name. *)
Definition suggest_int (trial : nat) (name : string) (low high : Z)
  (log : bool) : M Z :=
  x <- external (call_suggest_int trial name low high log)
         (trial_suggest_int ext) ;;
  set_param name (VInt x) ;;;
  ret x.

Definition suggest_categorical (trial : nat) (name : string)
  (choices : list Z) : M Z :=
  x <- external (call_suggest_categorical trial name choices)
         (trial_suggest_categorical ext) ;;
  set_param name (VInt x) ;;;
  ret x.

Definition suggest_loguniform (trial : nat) (name : string)
  (low high : float) : M float :=
  x <- external (call_suggest_loguniform trial name low high)
         (trial_suggest_loguniform ext) ;;
  set_param name (VFloat x) ;;;
  ret x.

(** [def objective(trial)]. *)
Definition objective (trial : nat) : M float :=
  let embedding_size := 1536 in
  let dropout_fraction := 0.5%float in
  n_dims <- suggest_int trial "n_dims"
              (embedding_size / 2) (embedding_size * 3) true ;;
  batch_size <- suggest_categorical trial "batch_size" [32; 64; 128] ;;
  lr <- suggest_loguniform trial "lr" 1e-5%float 1e-3%float ;;
  let name :=
    ("similarity-model-" ++ str_of_int n_dims ++ "-"
       ++ str_of_int batch_size)%string in
  print (VDict [("n_dims", VInt n_dims);
                ("batch_size", VInt batch_size);
                ("lr", VFloat lr)]%string) ;;;
  data <- external call_load_and_split_data (load_and_split_data ext) ;;
  train_dataset <-
    external (call_EmbeddingDataset (train_df1 data) (train_df2 data)
                (train_target data)) (EmbeddingDataset ext) ;;
  val_dataset <-
    external (call_EmbeddingDataset (val_df1 data) (val_df2 data)
                (val_target data)) (EmbeddingDataset ext) ;;
  test_dataset <-
    external (call_EmbeddingDataset (test_df1 data) (test_df2 data)
                (test_target data)) (EmbeddingDataset ext) ;;
  class_vector <-
    external (call_torch_tensor (train_target data)) (torch_tensor ext) ;;
  sampler <- lift (__init__ class_vector batch_size) ;;
  train_loader <-
    external (call_DataLoader train_dataset batch_size (Some sampler))
      (DataLoader ext) ;;
  val_loader <-
    external (call_DataLoader val_dataset batch_size None)
      (DataLoader ext) ;;
  test_loader <-
    external (call_DataLoader test_dataset batch_size None)
      (DataLoader ext) ;;
  model <-
    external (call_SimilarityModel embedding_size n_dims dropout_fraction lr)
      (SimilarityModel ext) ;;
  f1_check <-
    external
      (call_ModelCheckpoint "val_f1" "checkpoints_stratified"
         (name ++ "-{epoch:02d}-{val_loss:.2f}-{val_recall:.2f}-{val_f1:.2f}")
         1 "max")
      (ModelCheckpoint ext) ;;
  logger <-
    external (call_TensorBoardLogger "tb_stratified" name)
      (TensorBoardLogger ext) ;;
  external
    (call_log_hyperparams logger
       [("embedding_size", VInt embedding_size);
        ("dropout_fraction", VFloat dropout_fraction);
        ("batch_size", VInt batch_size);
        ("lr", VFloat lr);
        ("n_dims", VInt n_dims)]%string)
    (log_hyperparams ext) ;;;
  trainer <-
    external (call_Trainer 400 logger [f1_check]) (pl_Trainer ext) ;;
  external (call_fit trainer model train_loader val_loader)
    (trainer_fit ext) ;;;
  test_results <-
    external (call_test trainer model test_loader) (trainer_test ext) ;;
  first_result <- lift (first test_results) ;;
  print (VKeys (map fst first_result)) ;;;
  test_loss <- lift (getitem first_result "test_f1") ;;
  ret test_loss.

(** *** Optuna's study *)

(** A finished trial as the study keeps it: [value] is [None] for a trial
    that did not complete. *)
Record FrozenTrial : Type := {
  number : nat;
  value : option float;
  params : dict
}.

Record Study : Type := {
  direction : string;
  trials : list FrozenTrial
}.

(** [optuna.create_study(direction=...)], with the default in-memory
    storage, sampler and no pruner. *)
Definition create_study (direction : string) : result Study :=
  if (String.eqb direction "minimize" || String.eqb direction "maximize")%bool
  then ok {| direction := direction; trials := [] |}
  else raise (ValueError "invalid direction").

(** [study.optimize(func, n_trials=n)] with one job and nothing caught: the
    trials run one after the other; a fault of [func] is raised again and
    ends the loop; a NaN result fails the trial without a fault. *)
Fixpoint optimize (study : Study) (func : nat -> M float) (n_trials : nat)
  : M Study :=
  match n_trials with
  | O => ret study
  | S n' =>
      let number := List.length (trials study) in
      new_trial ;;;
      v <- func number ;;
      ps <- get_params ;;
      let frozen :=
        {| number := number;
           value := if is_nan v then None else Some v;
           params := ps |} in
      optimize {| direction := direction study;
                  trials := trials study ++ [frozen] |} func n'
  end.

(** [study.best_trial]: the completed trial with the best value, the
    earliest of equals; [ValueError] when no trial has completed. *)
Definition better (direction : string) (v best : float) : bool :=
  if String.eqb direction "maximize" then ltb best v else ltb v best.

Fixpoint best_of (direction : string) (best : option FrozenTrial)
  (l : list FrozenTrial) : option FrozenTrial :=
  match l with
  | [] => best
  | t :: l' =>
      match value t, best with
      | None, _ => best_of direction best l'
      | Some _, None => best_of direction (Some t) l'
      | Some v, Some b =>
          match value b with
          | Some w =>
              best_of direction (if better direction v w then Some t else best) l'
          | None => best_of direction (Some t) l'
          end
      end
  end.

Definition best_trial (study : Study) : result FrozenTrial :=
  match best_of (direction study) None (trials study) with
  | Some t => ok t
  | None => raise (ValueError "No trials are completed yet.")
  end.

Definition value_repr (v : option float) : pyvalue :=
  match v with
  | Some x => VFloat x
  | None => VNone
  end.

(** The module-level statements after [objective]. *)
Definition main : M unit :=
  study <- lift (create_study "maximize") ;;
  study <- optimize study objective 20 ;;
  print (VFString [VStr "Number of finished trials: ";
                   VInt (Z.of_nat (List.length (trials study)))]) ;;;
  print (VFString [VStr "Best trial:"]) ;;;
  trial <- lift (best_trial study) ;;
  print (VFString [VStr "  Value: "; value_repr (value trial)]) ;;;
  print (VFString [VStr "  Params: "; VDict (params trial)]).

(** Running a piece of the script from the start of the process. *)
Definition run {A} (c : M A) : result A * list call :=
  match c [] [] with
  | (r, out, _) => (r, out)
  end.

End Script.

Arguments call_suggest_int {Ob}.
Arguments call_suggest_categorical {Ob}.
Arguments call_suggest_loguniform {Ob}.
Arguments call_print {Ob}.
Arguments call_load_and_split_data {Ob}.
Arguments call_EmbeddingDataset {Ob}.
Arguments call_torch_tensor {Ob}.
Arguments call_DataLoader {Ob}.
Arguments call_SimilarityModel {Ob}.
Arguments call_ModelCheckpoint {Ob}.
Arguments call_TensorBoardLogger {Ob}.
Arguments call_log_hyperparams {Ob}.
Arguments call_Trainer {Ob}.
Arguments call_fit {Ob}.
Arguments call_test {Ob}.

(* ------------------------------------------------------------------ *)
(** ** Vocabulary of the statements *)


(** Reading a log of calls. *)
Definition is_suggestion {Ob} (c : call Ob) : bool :=
  match c with
  | call_suggest_int _ _ _ _ _ => true
  | call_suggest_categorical _ _ _ => true
  | call_suggest_loguniform _ _ _ _ => true
  | _ => false
  end.

Definition is_engine_call {Ob} (c : call Ob) : bool :=
  match c with
  | call_Trainer _ _ _ => true
  | call_fit _ _ _ _ => true
  | call_test _ _ _ => true
  | _ => false
  end.

Definition is_fit {Ob} (c : call Ob) : bool :=
  match c with
  | call_fit _ _ _ _ => true
  | _ => false
  end.

Definition is_test {Ob} (c : call Ob) : bool :=
  match c with
  | call_test _ _ _ => true
  | _ => false
  end.

Definition is_print {Ob} (c : call Ob) : bool :=
  match c with
  | call_print _ => true
  | _ => false
  end.

Definition is_log_hyperparams {Ob} (c : call Ob) : bool :=
  match c with
  | call_log_hyperparams _ _ => true
  | _ => false
  end.

(** The trial numbers of the [suggest_int] calls of a log, in order: one per
    evaluation of the objective. *)
Definition trials_started {Ob} (log : list (call Ob)) : list nat :=
  flat_map (fun c => match c with
                     | call_suggest_int trial _ _ _ _ => [trial]
                     | _ => []
                     end) log.

(** A line of the final summary: the only f-strings the script prints. *)
Definition is_summary {Ob} (c : call Ob) : bool :=
  match c with
  | call_print (VFString _) => true
  | _ => false
  end.



(** Collaborators that answer every call, with values the script can use:
    a batch size among the choices offered, a label tensor that fits a
    machine, and test results whose first mapping holds a number under
    [test_f1]. *)
Record cooperative {Ob} (ext : doubles Ob) : Prop := {
  coop_suggest_int : forall h, exists x, trial_suggest_int ext h = ok x;
  coop_suggest_categorical :
    forall h, exists x,
      trial_suggest_categorical ext h = ok x /\ In x [32; 64; 128];
  coop_suggest_loguniform :
    forall h, exists x, trial_suggest_loguniform ext h = ok x;
  coop_load_and_split_data :
    forall h, exists x, load_and_split_data ext h = ok x;
  coop_EmbeddingDataset : forall h, exists x, EmbeddingDataset ext h = ok x;
  coop_torch_tensor :
    forall h, exists x, torch_tensor ext h = ok x /\ size0 x < 2 ^ 53;
  coop_DataLoader : forall h, exists x, DataLoader ext h = ok x;
  coop_SimilarityModel : forall h, exists x, SimilarityModel ext h = ok x;
  coop_ModelCheckpoint : forall h, exists x, ModelCheckpoint ext h = ok x;
  coop_TensorBoardLogger : forall h, exists x, TensorBoardLogger ext h = ok x;
  coop_log_hyperparams : forall h, log_hyperparams ext h = ok tt;
  coop_pl_Trainer : forall h, exists x, pl_Trainer ext h = ok x;
  coop_trainer_fit : forall h, trainer_fit ext h = ok tt;
  coop_trainer_test :
    forall h, exists m rest v,
      trainer_test ext h = ok (m :: rest)
      /\ getitem m "test_f1" = ok v /\ is_nan v = false
}.

(** Concrete doubles, for examples: every collaborator hands back a token,
    the trial answers [n_dims = 1536], [batch_size = 32], [lr = 1e-4], the
    training labels are four of each class, and the test run reports one
    mapping. *)
Definition tokens : Objects :=
  {| DataFrame := unit; Target := unit; Dataset := unit; Loader := unit;
     Model := unit; Callback := unit; Logger := unit; Trainer := unit |}.

Definition stub_with (test_results : list metrics) : doubles tokens :=
  {| trial_suggest_int := fun _ => ok 1536;
     trial_suggest_categorical := fun _ => ok 32;
     trial_suggest_loguniform := fun _ => ok 1e-4%float;
     load_and_split_data :=
       fun _ => ok (Build_splits tokens tt tt tt tt tt tt tt tt tt);
     EmbeddingDataset := fun _ => ok tt;
     torch_tensor := fun _ => ok [0; 0; 0; 0; 1; 1; 1; 1];
     DataLoader := fun _ => ok tt;
     SimilarityModel := fun _ => ok tt;
     ModelCheckpoint := fun _ => ok tt;
     TensorBoardLogger := fun _ => ok tt;
     log_hyperparams := fun _ => ok tt;
     pl_Trainer := fun _ => ok tt;
     trainer_fit := fun _ => ok tt;
     trainer_test := fun _ => ok test_results |}.

Definition stub : doubles tokens :=
  stub_with [[("test_loss", 0.25%float); ("test_f1", 0.75%float)]%string].

(** A label vector of 3 * 2^54 - 1 zeros. *)
Definition huge_vector : tensor := repeat 0 (Z.to_nat 54043195528445951).

(** A label vector of 2^54 + 1 zeros. *)
Definition long_vector : tensor := repeat 0 (Z.to_nat 18014398509481985).

(* ------------------------------------------------------------------ *)
(** ** Vocabulary of the proofs *)

Unset Implicit Arguments.

(** What the shift register of the rounding holds after [A] has been divided
    by [D]: the quotient, and a round bit that is only set from the half on. *)
Definition shr_inv (A D : Z) (mrs : shr_record) : Prop :=
  shr_m mrs = A / D /\ (shr_r mrs = true -> D <= 2 * (A mod D)).

(** Where the loop of [_approximate_mode] stands: every class holds its
    floor or one more, and the classes whose remainder is still to come
    hold the floor. *)
Inductive mode_inv (values : list Z) : list Z -> list Z -> list Z -> Prop :=
| mode_inv_nil : mode_inv values [] [] []
| mode_inv_cons (rem f x : Z) (rems fs xs : list Z) :
    f <= x <= f + 1 -> (In rem values -> x = f) ->
    mode_inv values rems fs xs ->
    mode_inv values (rem :: rems) (f :: fs) (x :: xs).

(** The classes the remaining rounds can still serve. *)
Definition avail (remainder values : list Z) : Z :=
  Z.of_nat (length (filter (fun w => existsb (Z.eqb w) values) remainder)).

(** The share of a class of [c] members as [_approximate_mode] computes
    it: [c / total * n_draws], both operations in binary64. *)
Definition share (total n_draws c : Z) : spec_float :=
  np.multiply (np.true_divide (np.float64 c) (np.float64 total))
    (np.float64 n_draws).

(** A remainder above the mark [theta] that is among the values still to
    come. *)
Definition above (theta : Z) (values : list Z) (rem : Z) : bool :=
  (theta <? rem) && existsb (Z.eqb rem) values.

(** The draws once every class with such a remainder has received one
    more. *)
Definition served (theta : Z) (values remainder floored : list Z) : list Z :=
  map (fun rf => if above theta values (fst rf) then snd rf + 1 else snd rf)
    (combine remainder floored).




(** The three requests of an evaluation to its trial. *)
Definition the_suggestions {Ob} (trial : nat) : list (call Ob) :=
  [call_suggest_int trial "n_dims" 768 4608 true;
   call_suggest_categorical trial "batch_size" [32; 64; 128];
   call_suggest_loguniform trial "lr" 1e-5 1e-3].

(** A trial of the study that ended with a value. *)
Definition completed (t : FrozenTrial) : Prop := value t <> None.

(** The four lines printed once the search is over. *)
Definition summary {Ob} (study : Study) (best : FrozenTrial) : list (call Ob) :=
  [call_print (VFString [VStr "Number of finished trials: ";
                         VInt (Z.of_nat (List.length (trials study)))]);
   call_print (VFString [VStr "Best trial:"]);
   call_print (VFString [VStr "  Value: "; value_repr (value best)]);
   call_print (VFString [VStr "  Params: "; VDict (params best)])].

(* ------------------------------------------------------------------ *)
(** ** Vocabulary of the further properties *)


(** [f"similarity-model-{n_dims}-{batch_size}"]. *)
Definition run_name (n_dims batch_size : Z) : string :=
  ("similarity-model-" ++ str_of_int n_dims ++ "-" ++ str_of_int batch_size)%string.

(** The loaders among the calls of a log. *)
Definition is_DataLoader {Ob} (c : call Ob) : bool :=
  match c with
  | call_DataLoader _ _ _ => true
  | _ => false
  end.

(** The calls that load the data. *)
Definition is_load_and_split_data {Ob} (c : call Ob) : bool :=
  match c with
  | call_load_and_split_data => true
  | _ => false
  end.

(** The trials [ts], numbered from [first], are the evaluations that made
    the calls [blocks], in order: each started with no parameters and with
    the calls of the earlier ones behind it. *)
Fixpoint ran {Ob} (ext : doubles Ob) (h : list (call Ob)) (first : nat)
  (ts : list FrozenTrial) (blocks : list (list (call Ob))) : Prop :=
  match ts, blocks with
  | [], [] => True
  | t :: ts', b :: blocks' =>
      number t = first
      /\ (exists v, objective ext first h [] = (ok v, b, params t)
                    /\ value t = if is_nan v then None else Some v)
      /\ ran ext (h ++ b) (S first) ts' blocks'
  | _, _ => False
  end.

(** A float that is no NaN, as a triple ordered like the float. *)
Definition float_key (x : spec_float) : Z * Z * Z :=
  match x with
  | S754_zero _ => (0, 0, 0)
  | S754_infinity s => (if s then -2 else 2, 0, 0)
  | S754_nan => (0, 0, 0)
  | S754_finite s m e => if s then (-1, - e, Zneg m) else (1, e, Zpos m)
  end.

(** The order of such triples, first component first. *)
Definition key_lt (a b : Z * Z * Z) : Prop :=
  fst (fst a) < fst (fst b)
  \/ (fst (fst a) = fst (fst b)
      /\ (snd (fst a) < snd (fst b)
          \/ (snd (fst a) = snd (fst b) /\ snd a < snd b))).

(* ------------------------------------------------------------------ *)
(** ** Division of integers in binary64 *)

Lemma digits2_pos_bounds (p : positive) :
  2 ^ (Zpos (digits2_pos p) - 1) <= Zpos p < 2 ^ Zpos (digits2_pos p).
Proof.
  induction p as [p IH | p IH | ]; simpl digits2_pos.
  - rewrite Pos2Z.inj_succ. replace (Z.succ (Zpos (digits2_pos p)) - 1) with (Z.succ (Zpos (digits2_pos p) - 1)) by lia.
    rewrite !Z.pow_succ_r by lia. lia.
  - rewrite Pos2Z.inj_succ. replace (Z.succ (Zpos (digits2_pos p)) - 1) with (Z.succ (Zpos (digits2_pos p) - 1)) by lia.
    rewrite !Z.pow_succ_r by lia. lia.
  - simpl. lia.
Qed.

Lemma Zdigits2_upper (m : Z) : 0 <= m -> m < 2 ^ Zdigits2 m.
Proof.
  destruct m as [ | p | p ]; simpl; try lia.
  intros _. apply digits2_pos_bounds.
Qed.

Lemma Zdigits2_lower (m : Z) : 0 < m -> 2 ^ (Zdigits2 m - 1) <= m.
Proof.
  destruct m as [ | p | p ]; simpl; try lia.
  intros _. apply digits2_pos_bounds.
Qed.

Lemma Zdigits2_nonneg (m : Z) : 0 <= Zdigits2 m.
Proof. destruct m; simpl; lia. Qed.

(** digits is the least exponent bounding m *)
Lemma Zdigits2_le (m k : Z) : 0 <= m -> 0 <= k -> m < 2 ^ k -> Zdigits2 m <= k.
Proof.
  intros Hm Hk Hlt.
  destruct (Z.eq_dec m 0) as [-> | Hne]; [ simpl; lia | ].
  pose proof (Zdigits2_lower m ltac:(lia)) as Hl.
  destruct (Z_le_gt_dec (Zdigits2 m) k) as [ | Hgt ]; [ assumption | exfalso ].
  assert (2 ^ k <= 2 ^ (Zdigits2 m - 1)) by (apply Z.pow_le_mono_r; lia).
  lia.
Qed.

Lemma shr_1_inv (A D : Z) (mrs : shr_record) :
  0 <= A -> 0 < D -> shr_inv A D mrs -> shr_inv A (2 * D) (shr_1 mrs).
Proof.
  intros HA HD [Hm Hr]. destruct mrs as [m r s]; cbn [shr_m shr_r] in *.
  assert (Hq : A / (2 * D) = m / 2).
  { subst m. rewrite (Z.mul_comm 2 D). symmetry. apply Z.div_div; lia. }
  assert (0 <= m) by (subst m; apply Z.div_pos; lia).
  pose proof (Z.div_mod A D ltac:(lia)) as E1.
  pose proof (Z.mod_pos_bound A D ltac:(lia)) as B1.
  pose proof (Z.div_mod A (2 * D) ltac:(lia)) as E2.
  pose proof (Z.mod_pos_bound A (2 * D) ltac:(lia)) as B2.
  rewrite <- Hm in E1. rewrite Hq in E2.
  destruct m as [ | [ p | p | ] | p ]; try lia; unfold shr_inv; cbn [shr_1 shr_m shr_r].
  - split; [ rewrite Hq; reflexivity | discriminate ].
  - assert (Hh : Z.pos p~1 / 2 = Z.pos p) by (symmetry; apply Z.div_unique with (r := 1); lia).
    rewrite Hh in *. split; [ lia | intros _; nia ].
  - assert (Hh : Z.pos p~0 / 2 = Z.pos p) by (symmetry; apply Z.div_unique with (r := 0); lia).
    rewrite Hh in *. split; [ lia | discriminate ].
  - change (1 / 2) with 0 in *. split; [ lia | intros _; nia ].
Qed.

Lemma iter_shr_1_inv (p : positive) : forall (A D : Z) (mrs : shr_record),
  0 <= A -> 0 < D -> shr_inv A D mrs ->
  shr_inv A (D * 2 ^ Zpos p) (iter_pos shr_1 p mrs).
Proof.
  induction p as [p IH | p IH | ]; intros A D mrs HA HD H; simpl iter_pos.
  - replace (D * 2 ^ Zpos p~1) with ((2 * D) * 2 ^ Zpos p * 2 ^ Zpos p).
    + apply IH; [ lia | | ].
      * apply Z.mul_pos_pos; [ lia | apply Z.pow_pos_nonneg; lia ].
      * apply IH; [ lia | lia | ]. apply shr_1_inv; assumption.
    + replace (Zpos p~1) with (Zpos p + Zpos p + 1) by lia.
      rewrite !Z.pow_add_r by lia. rewrite Z.pow_1_r. ring.
  - replace (D * 2 ^ Zpos p~0) with (D * 2 ^ Zpos p * 2 ^ Zpos p).
    + apply IH; [ lia | | ].
      * apply Z.mul_pos_pos; [ lia | apply Z.pow_pos_nonneg; lia ].
      * apply IH; assumption.
    + replace (Zpos p~0) with (Zpos p + Zpos p) by lia.
      rewrite !Z.pow_add_r by lia. ring.
  - rewrite Z.pow_1_r, Z.mul_comm. apply shr_1_inv; assumption.
Qed.

Lemma shr_inv_of_loc (A D : Z) :
  0 <= A -> 0 < D ->
  shr_inv A D (shr_record_of_loc (A / D) (new_location D (A mod D))).
Proof.
  intros HA HD.
  pose proof (Z.mod_pos_bound A D HD) as Hb.
  assert (Hr : shr_r (shr_record_of_loc (A / D) (new_location D (A mod D))) = true ->
               D <= 2 * (A mod D)).
  { unfold new_location, new_location_even, new_location_odd.
    destruct (Z.even D) eqn:Ev.
    - destruct (A mod D =? 0) eqn:E0; [ simpl; discriminate | ].
      destruct (Z.compare_spec (2 * (A mod D)) D);
        cbn [shr_record_of_loc shr_r]; intros; try discriminate; lia.
    - destruct (A mod D =? 0) eqn:E0; [ simpl; discriminate | ].
      destruct (Z.compare_spec (2 * (A mod D) + 1) D);
        cbn [shr_record_of_loc shr_r]; intros; try discriminate; lia. }
  split; [ | exact Hr ].
  destruct (new_location D (A mod D)) as [ | [ | | ] ]; reflexivity.
Qed.

Lemma shr_fexp_spec (A D m e : Z) (l : location) :
  0 <= A -> 0 < D -> -1074 <= e ->
  shr_inv A D (shr_record_of_loc m l) ->
  exists mrs,
    shr_fexp 53 1024 m e l = (mrs, e + Z.max 0 (Zdigits2 m - 53))
    /\ shr_inv A (D * 2 ^ Z.max 0 (Zdigits2 m - 53)) mrs.
Proof.
  intros HA HD He Hinv.
  unfold shr_fexp, shr, fexp, emin.
  destruct (Z.max (Zdigits2 m + e - 53) (3 - 1024 - 53) - e) as [ | p | p ] eqn:En.
  - exists (shr_record_of_loc m l).
    replace (Z.max 0 (Zdigits2 m - 53)) with 0 by lia.
    rewrite Z.add_0_r, Z.pow_0_r, Z.mul_1_r. split; [ reflexivity | assumption ].
  - exists (iter_pos shr_1 p (shr_record_of_loc m l)).
    replace (Z.max 0 (Zdigits2 m - 53)) with (Zpos p) by lia.
    split; [ reflexivity | ].
    apply iter_shr_1_inv; assumption.
  - exists (shr_record_of_loc m l).
    replace (Z.max 0 (Zdigits2 m - 53)) with 0 by lia.
    rewrite Z.add_0_r, Z.pow_0_r, Z.mul_1_r. split; [ reflexivity | assumption ].
Qed.

Lemma round_nearest_even_bounds (mrs : shr_record) :
  let m2 := round_nearest_even (shr_m mrs) (loc_of_shr_record mrs) in
  shr_m mrs <= m2 <= shr_m mrs + 1 /\ (m2 = shr_m mrs + 1 -> shr_r mrs = true).
Proof.
  destruct mrs as [m [ | ] [ | ]]; simpl; try (destruct (Z.even m)); lia.
Qed.

Lemma binary_round_aux_spec (A D e : Z) :
  0 <= A -> 0 < D -> -1074 <= e ->
  e + Z.max 0 (Zdigits2 (A / D) - 53) <= 970 ->
  let n1 := Z.max 0 (Zdigits2 (A / D) - 53) in
  let D1 := D * 2 ^ n1 in
  exists m2 n2,
    A / D1 <= m2 <= A / D1 + 1
    /\ (m2 = A / D1 + 1 -> D1 <= 2 * (A mod D1))
    /\ A / D1 < 2 ^ 53
    /\ 0 <= n2 <= 1
    /\ m2 / 2 ^ n2 * 2 ^ n2 = m2
    /\ binary_round_aux 53 1024 false (A / D) e (new_location D (A mod D)) =
       match m2 / 2 ^ n2 with
       | 0 => S754_zero false
       | Zpos m => S754_finite false m (e + n1 + n2)
       | Zneg _ => S754_nan
       end.
Proof.
  intros HA HD He Hov n1 D1.
  assert (Hq0 : 0 <= A / D) by (apply Z.div_pos; lia).
  assert (Hn1 : 0 <= n1) by (unfold n1; lia).
  assert (HD1 : 0 < D1)
    by (unfold D1; apply Z.mul_pos_pos; [ lia | apply Z.pow_pos_nonneg; lia ]).
  destruct (shr_fexp_spec A D (A / D) e (new_location D (A mod D)) HA HD ltac:(lia)
              (shr_inv_of_loc A D HA HD)) as (mrs & E1 & Hm1 & Hr1).
  fold n1 in E1. fold n1 D1 in Hm1, Hr1.
  pose proof (round_nearest_even_bounds mrs) as Hrne. cbv zeta in Hrne.
  set (m2 := round_nearest_even (shr_m mrs) (loc_of_shr_record mrs)) in *.
  assert (Hm1lt : A / D1 < 2 ^ 53).
  { unfold D1. rewrite <- Z.div_div by (try lia; apply Z.pow_pos_nonneg; lia).
    pose proof (Zdigits2_upper (A / D) Hq0) as Hu.
    apply Z.div_lt_upper_bound; [ apply Z.pow_pos_nonneg; lia | ].
    rewrite <- Z.pow_add_r by lia.
    eapply Z.lt_le_trans; [ exact Hu | ].
    apply Z.pow_le_mono_r; unfold n1; lia. }
  assert (Hm1pos : 0 <= A / D1) by (apply Z.div_pos; lia).
  rewrite Hm1 in Hrne.
  assert (Hm2 : 0 <= m2 <= 2 ^ 53) by lia.
  assert (Hinv2 : shr_inv m2 1 (shr_record_of_loc m2 loc_Exact)).
  { split; simpl; [ rewrite Z.div_1_r; reflexivity | discriminate ]. }
  destruct (shr_fexp_spec m2 1 m2 (e + n1) loc_Exact ltac:(lia) ltac:(lia) ltac:(lia) Hinv2)
    as (mrs2 & E2 & Hm2' & _).
  set (n2 := Z.max 0 (Zdigits2 m2 - 53)) in *.
  rewrite Z.mul_1_l in Hm2'.
  assert (Hd2 : Zdigits2 m2 <= 54).
  { apply Zdigits2_le; lia. }
  pose proof (Zdigits2_nonneg m2) as Hd2'.
  exists m2, n2.
  split; [ lia | ]. split; [ intros Hup; apply Hr1; apply Hrne; exact Hup | ].
  split; [ exact Hm1lt | ]. split; [ unfold n2; lia | ].
  split.
  { assert (Hn2 : n2 = 0 \/ n2 = 1) by (unfold n2; lia).
    destruct Hn2 as [Hn2 | Hn2]; rewrite Hn2.
    - rewrite Z.pow_0_r, Z.div_1_r. lia.
    - assert (Hd54 : Zdigits2 m2 = 54) by (unfold n2 in Hn2; lia).
      assert (Hpos : 0 < m2).
      { destruct (Z.eq_dec m2 0) as [Hz | Hnz]; [ | lia ].
        rewrite Hz in Hd54. simpl in Hd54. discriminate. }
      pose proof (Zdigits2_lower m2 Hpos) as Hl.
      rewrite Hd54 in Hl. change (54 - 1) with 53 in Hl.
      assert (Heq : m2 = 2 ^ 53) by lia.
      rewrite Heq. reflexivity. }
  unfold binary_round_aux.
  rewrite E1. fold m2. rewrite E2. rewrite Hm2'.
  destruct (m2 / 2 ^ n2) as [ | m | m ]; try reflexivity.
  replace (e + n1 + n2 <=? 1024 - 53) with true; [ reflexivity | ].
  symmetry. apply Z.leb_le.
  fold n1 in Hov. unfold n2. lia.
Qed.

Lemma div_eucl_pair (a b : Z) : Z.div_eucl a b = (a / b, a mod b).
Proof. unfold Z.div, Z.modulo. destruct (Z.div_eucl a b); reflexivity. Qed.

(** The quotient handed to the rounding step. *)
Lemma SFdiv_core_binary_spec (N B : Z) :
  0 < N -> 0 < B -> Zdigits2 N - Zdigits2 B <= 52 ->
  let e' := Z.max (Zdigits2 N - Zdigits2 B - 53) (-1074) in
  SFdiv_core_binary 53 1024 N 0 B 0 =
    (N * 2 ^ (- e') / B, e', new_location B ((N * 2 ^ (- e')) mod B)).
Proof.
  intros HN HB Hd e'.
  unfold SFdiv_core_binary, fexp, emin.
  replace (Z.min (Z.max (Zdigits2 N + 0 - (Zdigits2 B + 0) - 53) (3 - 1024 - 53)) (0 - 0))
    with e' by (unfold e'; lia).
  replace (0 - 0 - e') with (- e') by lia.
  destruct (- e') as [ | p | p ] eqn:Es; try (unfold e' in Es; lia).
  rewrite Z.shiftl_mul_pow2 by lia.
  rewrite div_eucl_pair. reflexivity.
Qed.

(** The quotient before rounding has at most 54 bits. *)
Lemma quotient_bits (N B : Z) :
  0 < N -> 0 < B -> Zdigits2 N - Zdigits2 B <= 52 ->
  let e' := Z.max (Zdigits2 N - Zdigits2 B - 53) (-1074) in
  let n1 := Z.max 0 (Zdigits2 (N * 2 ^ (- e') / B) - 53) in
  0 <= n1 <= 1 /\ (Zdigits2 N - Zdigits2 B - 53 < -1074 -> n1 = 0).
Proof.
  intros HN HB Hd e' n1.
  pose proof (Zdigits2_upper N ltac:(lia)) as HNup.
  pose proof (Zdigits2_lower B HB) as HBlow.
  assert (Hd1' : 1 <= Zdigits2 N) by (destruct N; simpl; lia).
  assert (Hd2' : 1 <= Zdigits2 B) by (destruct B; simpl; lia).
  set (d1 := Zdigits2 N) in *. set (d2 := Zdigits2 B) in *.
  set (s := - e') in *.
  assert (Hs : 1 <= s <= 1074) by (unfold s, e'; lia).
  set (A := N * 2 ^ s) in *.
  assert (H2s : 0 < 2 ^ s) by (apply Z.pow_pos_nonneg; lia).
  assert (HA : 0 <= A) by (unfold A; nia).
  set (E := Z.max (d1 + s - d2 + 1) 0).
  assert (HqE : A / B < 2 ^ E).
  { apply Z.div_lt_upper_bound; [ lia | ].
    assert (A < 2 ^ (d1 + s)).
    { unfold A. rewrite Z.pow_add_r by lia. nia. }
    assert (2 ^ (d1 + s) <= 2 ^ E * 2 ^ (d2 - 1)).
    { rewrite <- Z.pow_add_r by (unfold E; lia).
      apply Z.pow_le_mono_r; unfold E; lia. }
    assert (0 < 2 ^ E) by (apply Z.pow_pos_nonneg; unfold E; lia).
    nia. }
  assert (Hq0 : 0 <= A / B) by (apply Z.div_pos; lia).
  pose proof (Zdigits2_le (A / B) E Hq0 ltac:(unfold E; lia) HqE) as Hdq.
  pose proof (Zdigits2_nonneg (A / B)) as Hdq0.
  unfold n1, E, s, e' in *. lia.
Qed.

(** The arithmetic heart: rounding to nearest never reaches the next
    integer when the last kept bit weighs less than [2 / B]. *)
Lemma round_keeps_floor (N B T m2 : Z) :
  0 <= N -> 0 < B -> 0 < T ->
  N * T / B <= m2 <= N * T / B + 1 ->
  (m2 = N * T / B + 1 -> B <= 2 * ((N * T) mod B)) ->
  B < 2 * T \/ (N < B /\ N * T / B + 1 < T) ->
  m2 / T = N / B.
Proof.
  intros HN HB HT Hm2 Hup Hcase.
  pose proof (Z.div_mod N B ltac:(lia)) as E1.
  pose proof (Z.mod_pos_bound N B HB) as B1.
  pose proof (Z.div_mod (N * T) B ltac:(lia)) as E2.
  pose proof (Z.mod_pos_bound (N * T) B HB) as B2.
  assert (Hk : 0 <= N / B) by (apply Z.div_pos; lia).
  set (k := N / B) in *. set (m1 := N * T / B) in *.
  symmetry. apply Z.div_unique with (r := m2 - T * k).
  2: ring.
  left. split.
  - (* k * T <= m1 *)
    assert (k * T <= m1); [ | lia ].
    unfold m1. apply Z.div_le_lower_bound; [ lia | ]. nia.
  - assert (Hlt : m1 < (k + 1) * T).
    { unfold m1. apply Z.div_lt_upper_bound; [ lia | ]. nia. }
    destruct (Z.eq_dec m2 m1) as [-> | Hne]; [ lia | ].
    assert (Hm : m2 = m1 + 1) by lia.
    specialize (Hup Hm).
    destruct Hcase as [Hc | [Hc1 Hc2]].
    + nia.
    + assert (k = 0) by (unfold k; apply Z.div_small; lia).
      nia.
Qed.

Lemma int_of_rounded (m3 e1 n2 : Z) :
  0 < m3 -> e1 <= 0 -> 0 <= n2 <= 1 ->
  int_of_float (S754_finite false (Z.to_pos m3) (e1 + n2))
  = ok (m3 * 2 ^ n2 / 2 ^ (- e1)).
Proof.
  intros Hm He Hn. unfold int_of_float.
  rewrite Z2Pos.id by lia.
  assert (Hcases : e1 + n2 < 0 \/ (e1 = 0 /\ n2 = 0) \/ (e1 = 0 /\ n2 = 1)
                   \/ (e1 = -1 /\ n2 = 1)) by lia.
  destruct Hcases as [Hneg | [[-> ->] | [[-> ->] | [-> ->]]]].
  - destruct (e1 + n2) as [ | p | p ] eqn:E; try lia.
    rewrite Z.shiftr_div_pow2 by lia.
    replace (- e1) with (Zpos p + n2) by lia.
    rewrite Z.pow_add_r by lia.
    rewrite Z.div_mul_cancel_r; [ reflexivity | | ];
      apply Z.pow_nonzero; lia.
  - simpl. f_equal. rewrite Z.div_1_r. lia.
  - simpl (0 + 1). cbv iota. rewrite Z.shiftl_mul_pow2 by lia.
    simpl (- 0). rewrite Z.pow_0_r, Z.div_1_r. reflexivity.
  - simpl (-1 + 1). cbv iota. rewrite Z.shiftl_mul_pow2 by lia.
    change (- -1) with 1. rewrite Z.pow_0_r, Z.mul_1_r.
    rewrite Z.div_mul by (rewrite Z.pow_1_r; lia). reflexivity.
Qed.

Lemma truediv_floor (N B : Z) :
  0 <= N < 2 ^ 53 -> 0 < B ->
  exists q, truediv N B = ok q /\ int_of_float q = ok (N / B).
Proof.
  intros HN HB.
  destruct (Z.eq_dec N 0) as [-> | HN0].
  { destruct B as [ | b | b ]; try lia.
    exists (S754_zero false). split; reflexivity. }
  assert (HNpos : 0 < N) by lia.
  pose proof (Zdigits2_le N 53 ltac:(lia) ltac:(lia) ltac:(lia)) as Hd1.
  pose proof (Zdigits2_upper N ltac:(lia)) as HNup.
  pose proof (Zdigits2_lower B HB) as HBlow.
  pose proof (Zdigits2_upper B ltac:(lia)) as HBup.
  assert (Hd1' : 1 <= Zdigits2 N) by (destruct N; simpl; lia).
  assert (Hd2' : 1 <= Zdigits2 B) by (destruct B; simpl; lia).
  pose proof (SFdiv_core_binary_spec N B HNpos HB ltac:(lia)) as Hcore.
  pose proof (quotient_bits N B HNpos HB ltac:(lia)) as Hn1.
  cbv zeta in Hcore, Hn1.
  set (d1 := Zdigits2 N) in *. set (d2 := Zdigits2 B) in *.
  set (e' := Z.max (d1 - d2 - 53) (-1074)) in *.
  set (s := - e') in *.
  assert (Hs : 1 <= s <= 1074) by (unfold s, e'; lia).
  set (A := N * 2 ^ s) in *.
  assert (H2s : 0 < 2 ^ s) by (apply Z.pow_pos_nonneg; lia).
  assert (HA : 0 <= A) by (unfold A; nia).
  set (n1 := Z.max 0 (Zdigits2 (A / B) - 53)) in *.
  destruct (binary_round_aux_spec A B e' HA HB ltac:(unfold e'; lia)
              ltac:(fold n1; unfold e'; lia))
    as (m2 & n2 & Hm2 & Hup & Hm1lt & Hn2 & Hexact & Hres).
  fold n1 in Hm2, Hup, Hm1lt, Hres.
  set (e1 := e' + n1) in *.
  assert (He1 : e1 <= 0) by (unfold e1, e' in *; lia).
  set (T := 2 ^ (- e1)).
  assert (HT : 0 < T) by (apply Z.pow_pos_nonneg; lia).
  assert (H2n1 : 0 < 2 ^ n1) by (apply Z.pow_pos_nonneg; lia).
  assert (HAT : A = N * T * 2 ^ n1).
  { unfold A, T. rewrite <- Z.mul_assoc, <- Z.pow_add_r by lia.
    f_equal. f_equal. unfold e1, s. lia. }
  assert (Hdiv : A / (B * 2 ^ n1) = N * T / B).
  { rewrite HAT. apply Z.div_mul_cancel_r; lia. }
  assert (Hmod : A mod (B * 2 ^ n1) = (N * T) mod B * 2 ^ n1).
  { rewrite HAT. apply Z.mul_mod_distr_r; lia. }
  rewrite Hdiv in Hm2, Hup, Hm1lt. rewrite Hmod in Hup.
  assert (Hfloor : m2 / T = N / B).
  { apply round_keeps_floor; try lia.
    - intros Hm. specialize (Hup Hm). nia.
    - destruct (Z_lt_le_dec (d1 - d2 - 53) (-1074)) as [Hsub | Hnorm].
      + right. split.
        * assert (2 ^ d1 <= 2 ^ (d2 - 1)) by (apply Z.pow_le_mono_r; lia). lia.
        * assert (2 ^ 53 < T); [ | lia ].
          unfold T. apply Z.pow_lt_mono_r; unfold e1, e' in *; lia.
      + left.
        assert (2 ^ d2 <= 2 ^ (1 - e1)) by (apply Z.pow_le_mono_r; unfold e1, e' in *; lia).
        replace (1 - e1) with (Z.succ (- e1)) in H by lia.
        rewrite Z.pow_succ_r in H by lia. fold T in H. lia. }
  assert (H2n2 : 0 < 2 ^ n2) by (apply Z.pow_pos_nonneg; lia).
  assert (Hm1 : 0 <= N * T / B) by (apply Z.div_pos; nia).
  assert (Hm3 : 0 <= m2 / 2 ^ n2) by (apply Z.div_pos; lia).
  unfold truediv.
  replace (B =? 0) with false by (symmetry; apply Z.eqb_neq; lia).
  destruct N as [ | n | n ]; try lia. destruct B as [ | b | b ]; try lia.
  unfold int_as_float, SFdiv. change prec with 53. change emax with 1024.
  fold d1 d2 e' s A in Hcore. rewrite Hcore. simpl xorb. rewrite Hres.
  destruct (m2 / 2 ^ n2) as [ | m3 | m3 ] eqn:Em3; try lia.
  - exists (S754_zero false). split; [ reflexivity | ].
    simpl. f_equal. rewrite <- Hfloor.
    assert (m2 = 0) by lia. subst m2. rewrite Z.div_0_l; lia.
  - exists (S754_finite false m3 (e' + n1 + n2)). split; [ reflexivity | ].
    fold e1.
    pose proof (int_of_rounded (Zpos m3) e1 n2 ltac:(lia) He1 Hn2) as Hint.
    simpl Z.to_pos in Hint. rewrite Hint. fold T.
    rewrite Hexact. rewrite Hfloor. reflexivity.
Qed.

(** The division of a length by a larger half: no overflow, whatever the
    sizes. *)
Lemma truediv_total (N B : Z) :
  0 <= N -> N < 2 * B ->
  exists q n, truediv N B = ok q /\ int_of_float q = ok n.
Proof.
  intros HN HB2. assert (HB : 0 < B) by lia.
  destruct (Z.eq_dec N 0) as [-> | HN0].
  { destruct B as [ | b | b ]; try lia.
    exists (S754_zero false), 0. split; reflexivity. }
  assert (HNpos : 0 < N) by lia.
  pose proof (Zdigits2_upper B ltac:(lia)) as HBup.
  pose proof (Zdigits2_nonneg B) as Hd2.
  assert (Hd : Zdigits2 N <= Zdigits2 B + 1).
  { apply Zdigits2_le; try lia. rewrite Z.pow_add_r by lia. lia. }
  pose proof (SFdiv_core_binary_spec N B HNpos HB ltac:(lia)) as Hcore.
  pose proof (quotient_bits N B HNpos HB ltac:(lia)) as Hn1.
  cbv zeta in Hcore, Hn1.
  set (e' := Z.max (Zdigits2 N - Zdigits2 B - 53) (-1074)) in *.
  set (A := N * 2 ^ (- e')) in *.
  assert (H2s : 0 < 2 ^ (- e')) by (apply Z.pow_pos_nonneg; unfold e'; lia).
  assert (HA : 0 <= A) by (unfold A; nia).
  set (n1 := Z.max 0 (Zdigits2 (A / B) - 53)) in *.
  destruct (binary_round_aux_spec A B e' HA HB ltac:(unfold e'; lia)
              ltac:(fold n1; unfold e'; lia))
    as (m2 & n2 & Hm2 & _ & _ & Hn2 & _ & Hres).
  fold n1 in Hm2, Hres.
  assert (H2n1 : 0 < 2 ^ n1) by (apply Z.pow_pos_nonneg; lia).
  assert (Hm1 : 0 <= A / (B * 2 ^ n1)) by (apply Z.div_pos; nia).
  assert (H2n2 : 0 < 2 ^ n2) by (apply Z.pow_pos_nonneg; lia).
  assert (Hm3 : 0 <= m2 / 2 ^ n2) by (apply Z.div_pos; lia).
  unfold truediv.
  replace (B =? 0) with false by (symmetry; apply Z.eqb_neq; lia).
  destruct N as [ | n | n ]; try lia. destruct B as [ | b | b ]; try lia.
  unfold int_as_float, SFdiv. change prec with 53. change emax with 1024.
  fold e' A in Hcore. rewrite Hcore. simpl xorb. rewrite Hres.
  destruct (m2 / 2 ^ n2) as [ | m3 | m3 ]; try lia.
  - exists (S754_zero false), 0. split; reflexivity.
  - eexists. eexists. split; [ reflexivity | ]. unfold int_of_float. reflexivity.
Qed.

(* ------------------------------------------------------------------ *)
(** ** Slices, shuffles and draws *)

(** *** Lists: Python slices *)

Lemma slice_prefix {A} (l : list A) (n : Z) :
  0 <= n <= Z.of_nat (length l) -> slice l 0 n = firstn (Z.to_nat n) l.
Proof.
  intros Hn. unfold slice, slice_bound.
  replace (0 <? 0) with false by reflexivity.
  replace (n <? 0) with false by (symmetry; apply Z.ltb_ge; lia).
  rewrite Z.min_l by lia. rewrite Z.min_l by lia.
  simpl Z.to_nat. rewrite Nat.sub_0_r. reflexivity.
Qed.

Lemma slice_range {A} (l : list A) (a b : Z) :
  0 <= a <= b -> b <= Z.of_nat (length l) ->
  slice l a b = firstn (Z.to_nat b - Z.to_nat a) (skipn (Z.to_nat a) l).
Proof.
  intros Ha Hb. unfold slice, slice_bound.
  replace (a <? 0) with false by (symmetry; apply Z.ltb_ge; lia).
  replace (b <? 0) with false by (symmetry; apply Z.ltb_ge; lia).
  rewrite !Z.min_l by lia. reflexivity.
Qed.

Lemma slice_two_halves {A} (l : list A) (n t : Z) :
  0 <= n -> 0 <= t -> n + t = Z.of_nat (length l) ->
  slice l 0 n ++ slice l n (n + t) = l.
Proof.
  intros Hn Ht Hl.
  rewrite slice_prefix by lia. rewrite slice_range by lia.
  rewrite (firstn_all2 (n := (Z.to_nat (n + t) - Z.to_nat n)%nat)).
  - apply firstn_skipn.
  - rewrite length_skipn. lia.
Qed.

(** *** [np]: shuffling *)

Lemma random_interval_le (max : nat) (t : np.rng) :
  (fst (np.random_interval max t) <= max)%nat.
Proof.
  destruct t as [ | d t ]; simpl fst; [ lia | ].
  pose proof (Nat.mod_upper_bound d (S max) ltac:(lia)). lia.
Qed.

Lemma nth_error_set_item {A} (x : list A) (i j : nat) (v : A) :
  nth_error (np.set_item x i v) j =
  if (i =? j)%nat then
    (if (i <? length x)%nat then Some v else None)
  else nth_error x j.
Proof.
  revert i j. induction x as [ | a x IH ]; intros i j; simpl.
  - destruct (i =? j)%nat eqn:E; destruct j; reflexivity.
  - destruct i as [ | i ], j as [ | j ]; simpl; try reflexivity.
    rewrite IH. destruct (i =? j)%nat; [ | reflexivity ].
    change (S i <? S (length x))%nat with (i <? length x)%nat. reflexivity.
Qed.

Lemma set_item_Permutation {A} (x : list A) (i : nat) (a v : A) :
  nth_error x i = Some a ->
  Permutation (a :: np.set_item x i v) (v :: x).
Proof.
  revert i. induction x as [ | b x IH ]; intros i Hi.
  - destruct i; discriminate.
  - destruct i as [ | i ]; simpl in *.
    + injection Hi as ->. apply perm_swap.
    + eapply perm_trans; [ apply perm_swap | ].
      eapply perm_trans; [ apply perm_skip, (IH i Hi) | ].
      apply perm_swap.
Qed.

Lemma swap_Permutation {A} (x : list A) (i j : nat) :
  Permutation (np.swap x i j) x.
Proof.
  unfold np.swap.
  destruct (nth_error x i) as [ a | ] eqn:Ei; [ | reflexivity ].
  destruct (nth_error x j) as [ b | ] eqn:Ej; [ | reflexivity ].
  assert (Hj : nth_error (np.set_item x i b) j = Some b).
  { rewrite nth_error_set_item. destruct (i =? j)%nat eqn:E; [ | exact Ej ].
    assert (i < length x)%nat by (apply nth_error_Some; congruence).
    replace (i <? length x)%nat with true; [ reflexivity | ].
    symmetry. apply Nat.ltb_lt. assumption. }
  pose proof (set_item_Permutation (np.set_item x i b) j b a Hj) as P2.
  pose proof (set_item_Permutation x i a b Ei) as P1.
  apply Permutation_cons_inv with (a := b).
  eapply perm_trans; [ exact P2 | exact P1 ].
Qed.

Lemma shuffle_from_Permutation {A} (i : nat) : forall (x : list A) (t : np.rng),
  Permutation (fst (np.shuffle_from i x t)) x.
Proof.
  induction i as [ | i IH ]; intros x t; simpl.
  - reflexivity.
  - unfold np.bind. destruct (np.random_interval (S i) t) as [j t'].
    eapply perm_trans; [ apply IH | apply swap_Permutation ].
Qed.

Lemma shuffle_Permutation {A} (x : list A) (t : np.rng) :
  Permutation (fst (np.shuffle x t)) x.
Proof. apply shuffle_from_Permutation. Qed.

Lemma permutation_int_Permutation (n : Z) (t : np.rng) :
  Permutation (fst (np.permutation_int n t)) (seq 0 (Z.to_nat n)).
Proof. apply shuffle_Permutation. Qed.

Lemma map_nth_seq {A} (l : list A) (d : A) :
  map (fun p => nth p l d) (seq 0 (length l)) = l.
Proof.
  induction l as [ | a l IH ]; [ reflexivity | ].
  simpl. f_equal. rewrite <- seq_shift, map_map. exact IH.
Qed.

Lemma take_clip_Permutation (a idx : list nat) :
  Permutation idx (seq 0 (length a)) -> Permutation (np.take_clip a idx) a.
Proof.
  intros P. unfold np.take_clip.
  apply perm_trans with (l' := map (fun p => nth p a O) idx).
  - apply Permutation_refl'. apply map_ext_in.
    intros p Hp. apply (Permutation_in _ P), in_seq in Hp. f_equal. lia.
  - apply perm_trans with (l' := map (fun p => nth p a O) (seq 0 (length a))).
    + apply Permutation_map, P.
    + rewrite map_nth_seq. reflexivity.
Qed.

Lemma choice_spec (a : list nat) (k : Z) (t : np.rng) :
  NoDup a -> 0 <= k <= Z.of_nat (length a) ->
  let r := fst (np.choice a k t) in
  NoDup r /\ incl r a /\ length r = Z.to_nat k.
Proof.
  intros Ha Hk. unfold np.choice, np.bind.
  destruct (np.permutation_int (Z.of_nat (length a)) t) as [idx t'] eqn:E.
  pose proof (permutation_int_Permutation (Z.of_nat (length a)) t) as P.
  rewrite E in P. simpl fst in P. rewrite Nat2Z.id in P.
  cbv zeta. simpl fst.
  assert (Hlen : length idx = length a).
  { rewrite (Permutation_length P). apply length_seq. }
  rewrite slice_prefix by lia.
  assert (Pa : Permutation (map (fun p => nth p a O) idx) a).
  { apply perm_trans with (l' := map (fun p => nth p a O) (seq 0 (length a))).
    - apply Permutation_map, P.
    - rewrite map_nth_seq. reflexivity. }
  rewrite <- (firstn_skipn (Z.to_nat k) idx) in Pa.
  rewrite map_app in Pa.
  assert (Nd : NoDup (map (fun p => nth p a O) (firstn (Z.to_nat k) idx)
                      ++ map (fun p => nth p a O) (skipn (Z.to_nat k) idx))).
  { eapply Permutation_NoDup; [ symmetry; exact Pa | exact Ha ]. }
  split; [ eapply NoDup_app_remove_r; exact Nd | ].
  split.
  - intros v Hv. eapply Permutation_in; [ exact Pa | ].
    apply in_or_app. left. exact Hv.
  - rewrite length_map, length_firstn. lia.
Qed.

(* ------------------------------------------------------------------ *)
(** ** Classes and their counts *)

(** *** [np.unique] *)

Lemma insert_unique_In (v x : Z) (l : list Z) :
  In x (np.insert_unique v l) <-> x = v \/ In x l.
Proof.
  induction l as [ | w l IH ]; simpl.
  - intuition.
  - destruct (Z.ltb_spec v w); [ simpl; intuition | ].
    destruct (Z.eqb_spec v w); [ subst; simpl; intuition | ].
    simpl. rewrite IH. intuition.
Qed.

Lemma insert_unique_sorted (v : Z) (l : list Z) :
  StronglySorted Z.lt l -> StronglySorted Z.lt (np.insert_unique v l).
Proof.
  induction 1 as [ | w l Hs IH Hall ]; simpl.
  - constructor; constructor.
  - destruct (Z.ltb_spec v w).
    + constructor; [ constructor; assumption | ].
      constructor; [ assumption | ].
      eapply Forall_impl; [ | exact Hall ]. intros; lia.
    + destruct (Z.eqb_spec v w); [ constructor; assumption | ].
      constructor; [ exact IH | ].
      apply Forall_forall. intros x Hx. apply insert_unique_In in Hx.
      destruct Hx as [-> | Hx]; [ lia | ].
      rewrite Forall_forall in Hall. apply Hall, Hx.
Qed.

Lemma unique_sorted (y : list Z) : StronglySorted Z.lt (np.unique y).
Proof.
  induction y as [ | v y IH ]; simpl; [ constructor | ].
  apply insert_unique_sorted, IH.
Qed.

Lemma unique_In (y : list Z) (x : Z) : In x (np.unique y) <-> In x y.
Proof.
  induction y as [ | v y IH ]; simpl; [ reflexivity | ].
  rewrite insert_unique_In, IH. intuition.
Qed.

Lemma sorted_NoDup (l : list Z) : StronglySorted Z.lt l -> NoDup l.
Proof.
  induction 1 as [ | w l Hs IH Hall ]; constructor; [ | exact IH ].
  intros Hin. rewrite Forall_forall in Hall. specialize (Hall _ Hin). lia.
Qed.

Lemma unique_NoDup (y : list Z) : NoDup (np.unique y).
Proof. apply sorted_NoDup, unique_sorted. Qed.

Lemma index_of_In (v : Z) (u : list Z) :
  In v u -> (np.index_of v u < length u)%nat /\ nth (np.index_of v u) u 0 = v.
Proof.
  induction u as [ | c u IH ]; simpl; [ tauto | ].
  intros Hin. destruct (Z.eqb_spec v c) as [-> | Hne].
  - split; [ lia | reflexivity ].
  - destruct Hin as [-> | Hin]; [ congruence | ].
    destruct (IH Hin). split; [ lia | assumption ].
Qed.

Lemma index_of_nth (u : list Z) (k : nat) :
  NoDup u -> (k < length u)%nat -> np.index_of (nth k u 0) u = k.
Proof.
  revert k. induction u as [ | c u IH ]; intros k Hnd Hk; simpl in *; [ lia | ].
  inversion Hnd as [ | ? ? Hnotin Hnd' ]; subst.
  destruct k as [ | k ].
  - rewrite Z.eqb_refl. reflexivity.
  - destruct (Z.eqb_spec (nth k u 0) c) as [E | _].
    + exfalso. apply Hnotin. rewrite <- E. apply nth_In. lia.
    + f_equal. apply IH; [ assumption | lia ].
Qed.

(** *** [np.bincount] *)

Lemma sum_cons (a : Z) (l : list Z) : np.sum (a :: l) = a + np.sum l.
Proof. reflexivity. Qed.

Lemma sum_app (l1 l2 : list Z) : np.sum (l1 ++ l2) = np.sum l1 + np.sum l2.
Proof. induction l1; simpl; lia. Qed.

Lemma sum_count_occ (x : list nat) : forall (m : nat),
  (forall v, In v x -> (v < m)%nat) ->
  np.sum (map (fun v => Z.of_nat (count_occ Nat.eq_dec x v)) (seq 0 m))
  = Z.of_nat (length x).
Proof.
  induction x as [ | a x IH ]; intros m Hm.
  - simpl. induction (seq 0 m); simpl; lia.
  - assert (Ha : (a < m)%nat) by (apply Hm; left; reflexivity).
    specialize (IH m (fun v Hv => Hm v (or_intror Hv))).
    assert (Hsplit : forall l,
      np.sum (map (fun v => Z.of_nat (count_occ Nat.eq_dec (a :: x) v)) l)
      = np.sum (map (fun v => Z.of_nat (count_occ Nat.eq_dec x v)) l)
        + Z.of_nat (count_occ Nat.eq_dec l a)).
    { induction l as [ | b l IHl ]; [ reflexivity | ].
      rewrite !map_cons, !sum_cons, IHl. cbn [count_occ].
      destruct (Nat.eq_dec a b) as [-> | Hab].
      - destruct (Nat.eq_dec b b); [ | congruence ]. lia.
      - destruct (Nat.eq_dec b a); [ congruence | ]. lia. }
    rewrite Hsplit, IH.
    assert (Hone : count_occ Nat.eq_dec (seq 0 m) a = 1%nat).
    { apply NoDup_count_occ'; [ apply seq_NoDup | apply in_seq; lia ]. }
    rewrite Hone. simpl length. lia.
Qed.

Lemma list_max_bound (x : list nat) (v : nat) : In v x -> (v <= list_max x)%nat.
Proof.
  intros Hin. pose proof (list_max_le x (list_max x)) as [H _].
  specialize (H (Nat.le_refl _)). rewrite Forall_forall in H. apply H, Hin.
Qed.

Lemma bincount_sum (x : list nat) : np.sum (np.bincount x) = Z.of_nat (length x).
Proof.
  unfold np.bincount. destruct x as [ | a x ]; [ reflexivity | ].
  apply sum_count_occ. intros v Hv. apply list_max_bound in Hv. lia.
Qed.

Lemma bincount_length (x : list nat) :
  x <> [] -> length (np.bincount x) = S (list_max x).
Proof.
  destruct x as [ | a x ]; [ congruence | ]. intros _.
  unfold np.bincount. rewrite length_map, length_seq. reflexivity.
Qed.


(** The class numbers of [np.unique(y, return_inverse=True)]. *)

Lemma unique_inverse_length (y : list Z) : length (np.unique_inverse y) = length y.
Proof. apply length_map. Qed.

Lemma unique_inverse_bound (y : list Z) (k : nat) :
  In k (np.unique_inverse y) -> (k < length (np.unique y))%nat.
Proof.
  unfold np.unique_inverse. intros Hin. apply in_map_iff in Hin.
  destruct Hin as (v & <- & Hv). apply index_of_In, unique_In, Hv.
Qed.


Lemma unique_nonempty (y : list Z) : y <> [] -> np.unique y <> [].
Proof.
  destruct y as [ | v y ]; [ congruence | ]. intros _ E.
  assert (In v (np.unique (v :: y))) by (apply unique_In; left; reflexivity).
  rewrite E in H. exact H.
Qed.

Lemma unique_inverse_max (y : list Z) :
  y <> [] -> S (list_max (np.unique_inverse y)) = length (np.unique y).
Proof.
  intros Hy.
  pose proof (unique_nonempty y Hy) as Hu.
  assert (Hlen : (0 < length (np.unique y))%nat)
    by (destruct (np.unique y); [ congruence | simpl; lia ]).
  assert (Hne : np.unique_inverse y <> []).
  { intros E. apply (f_equal (@length nat)) in E.
    rewrite unique_inverse_length in E. destruct y; [ congruence | discriminate ]. }
  apply Nat.le_antisymm.
  - apply list_max_lt; [ exact Hne | ].
    apply Forall_forall. intros k Hk. apply unique_inverse_bound, Hk.
  - set (k := (length (np.unique y) - 1)%nat).
    assert (Hin : In k (np.unique_inverse y)).
    { unfold np.unique_inverse. apply in_map_iff.
      exists (nth k (np.unique y) 0). split.
      - apply index_of_nth; [ apply unique_NoDup | unfold k; lia ].
      - apply unique_In. apply nth_In. unfold k; lia. }
    apply list_max_bound in Hin. unfold k in Hin. lia.
Qed.

(* ------------------------------------------------------------------ *)
(** ** Sorting the labels and cutting by class *)

(** *** [np.argsort] *)

Lemma insert_by_Permutation (keys : list nat) (i : nat) (l : list nat) :
  Permutation (np.insert_by keys i l) (i :: l).
Proof.
  induction l as [ | j l IH ]; simpl; [ reflexivity | ].
  destruct (nth i keys O <=? nth j keys O)%nat; [ reflexivity | ].
  eapply perm_trans; [ apply perm_skip, IH | apply perm_swap ].
Qed.

Lemma argsort_Permutation (keys : list nat) :
  Permutation (np.argsort keys) (seq 0 (length keys)).
Proof.
  unfold np.argsort. induction (seq 0 (length keys)) as [ | i l IH ]; simpl.
  - reflexivity.
  - eapply perm_trans; [ apply insert_by_Permutation | apply perm_skip, IH ].
Qed.

(** *** [np.split] at the running sums *)

Lemma split_from_cumsum {A} (ary : list A) (counts : list Z) : forall (start : Z),
  counts <> [] -> Forall (fun c => 0 <= c) counts -> 0 <= start ->
  start + np.sum counts = Z.of_nat (length ary) ->
  let pieces := np.split_from ary start (removelast (np.cumsum_from start counts)) in
  Forall2 (fun piece c => Z.of_nat (length piece) = c) pieces counts
  /\ concat pieces = skipn (Z.to_nat start) ary.
Proof.
  induction counts as [ | c counts IH ]; intros start Hne Hpos Hstart Hsum; [ congruence | ].
  inversion Hpos as [ | ? ? Hc Hpos' ]; subst.
  simpl in Hsum.
  destruct counts as [ | c' counts ].
  - simpl in *. split.
    + constructor; [ | constructor ].
      rewrite slice_range by lia. rewrite length_firstn, length_skipn. lia.
    + rewrite app_nil_r. rewrite slice_range by lia.
      apply firstn_all2. rewrite length_skipn. lia.
  - assert (Hsum' : 0 <= np.sum (c' :: counts)).
    { clear - Hpos'. induction Hpos'; simpl; lia. }
    specialize (IH (start + c) ltac:(discriminate) Hpos' ltac:(lia) ltac:(lia)).
    cbv zeta in IH. destruct IH as [IH1 IH2].
    change (np.cumsum_from start (c :: c' :: counts))
      with ((start + c) :: np.cumsum_from (start + c) (c' :: counts)).
    change (removelast ((start + c) :: np.cumsum_from (start + c) (c' :: counts)))
      with ((start + c) :: removelast (np.cumsum_from (start + c) (c' :: counts))).
    cbv zeta. cbn [np.split_from]. split.
    + constructor; [ | exact IH1 ].
      rewrite slice_range by lia. rewrite length_firstn, length_skipn. lia.
    + cbn [concat]. rewrite IH2. rewrite slice_range by lia.
      set (k := (Z.to_nat (start + c) - Z.to_nat start)%nat).
      replace (Z.to_nat (start + c)) with (k + Z.to_nat start)%nat by (unfold k; lia).
      rewrite <- skipn_skipn. apply firstn_skipn.
Qed.

Lemma split_cumsum {A} (ary : list A) (counts : list Z) :
  counts <> [] -> Forall (fun c => 0 <= c) counts ->
  np.sum counts = Z.of_nat (length ary) ->
  let pieces := np.split ary (removelast (np.cumsum counts)) in
  Forall2 (fun piece c => Z.of_nat (length piece) = c) pieces counts
  /\ concat pieces = ary.
Proof.
  intros Hne Hpos Hsum.
  exact (split_from_cumsum ary counts 0 Hne Hpos ltac:(lia) ltac:(lia)).
Qed.

(** *** [np.min] *)


Lemma min_le (l : list Z) (c : Z) : In c l -> np.min l <= c.
Proof.
  destruct l as [ | c0 l ]; [ intros [] | ]. cbn [np.min].
  assert (H : forall x, fold_right Z.min x l <= x /\ forall y, In y l -> fold_right Z.min x l <= y).
  { induction l as [ | a l IH ]; intros x; cbn [fold_right In].
    - split; [ lia | intros ? [] ].
    - destruct (IH x) as [H1 H2]. split; [ lia | ].
      intros y [-> | Hy]; [ lia | specialize (H2 y Hy); lia ]. }
  destruct (H c0) as [H1 H2]. intros [-> | Hin]; [ exact H1 | apply H2, Hin ].
Qed.

(** *** [np.where] and the in-place increment *)

Lemma where_eq_from_In (a : list Z) (v : Z) : forall (i j : nat),
  In j (np.where_eq_from i a v) <->
  (i <= j < i + length a)%nat /\ nth (j - i) a 0 = v.
Proof.
  induction a as [ | w a IH ]; intros i j; simpl.
  - split; [ intros [] | lia ].
  - destruct (Z.eqb_spec w v) as [E | NE]; simpl; rewrite IH.
    + split.
      * intros [<- | [H1 H2]].
        -- rewrite Nat.sub_diag. split; [ lia | exact E ].
        -- split; [ lia | ]. destruct (j - i)%nat as [ | k ] eqn:Ek; [ lia | ].
           replace (j - S i)%nat with k in H2 by lia. exact H2.
      * intros [H1 H2]. destruct (Nat.eq_dec i j) as [ | Hne ]; [ left; assumption | right ].
        split; [ lia | ]. destruct (j - i)%nat as [ | k ] eqn:Ek; [ lia | ].
        replace (j - S i)%nat with k by lia. exact H2.
    + split.
      * intros [H1 H2]. split; [ lia | ].
        destruct (j - i)%nat as [ | k ] eqn:Ek; [ lia | ].
        replace (j - S i)%nat with k in H2 by lia. exact H2.
      * intros [H1 H2]. destruct (j - i)%nat as [ | k ] eqn:Ek.
        -- congruence.
        -- split; [ lia | ]. replace (j - S i)%nat with k by lia. exact H2.
Qed.

Lemma where_eq_from_NoDup (a : list Z) (v : Z) : forall (i : nat),
  NoDup (np.where_eq_from i a v).
Proof.
  induction a as [ | w a IH ]; intros i; simpl; [ constructor | ].
  destruct (w =? v); [ | apply IH ].
  constructor; [ | apply IH ].
  rewrite where_eq_from_In. lia.
Qed.

Lemma where_eq_from_length (a : list Z) (v : Z) : forall (i : nat),
  length (np.where_eq_from i a v) = length (filter (fun w => w =? v) a).
Proof.
  induction a as [ | w a IH ]; intros i; simpl; [ reflexivity | ].
  destruct (w =? v); simpl; rewrite IH; reflexivity.
Qed.

Lemma add_one_from_length (a : list Z) (inds : list nat) : forall (i : nat),
  length (np.add_one_from i a inds) = length a.
Proof.
  induction a as [ | w a IH ]; intros i; simpl; [ reflexivity | ].
  rewrite IH. reflexivity.
Qed.

Lemma existsb_eqb_In (i : nat) (inds : list nat) :
  existsb (Nat.eqb i) inds = true <-> In i inds.
Proof.
  rewrite existsb_exists. split.
  - intros (x & Hx & E). apply Nat.eqb_eq in E. subst. exact Hx.
  - intros H. exists i. split; [ exact H | apply Nat.eqb_refl ].
Qed.

Lemma add_one_from_sum (a : list Z) (inds : list nat) : forall (i : nat),
  np.sum (np.add_one_from i a inds)
  = np.sum a
    + Z.of_nat (length (filter (fun j => existsb (Nat.eqb j) inds) (seq i (length a)))).
Proof.
  induction a as [ | w a IH ]; intros i; [ reflexivity | ].
  cbn [np.add_one_from length seq filter]. rewrite !sum_cons, IH.
  destruct (existsb (Nat.eqb i) inds); cbn [length]; lia.
Qed.

Lemma add_one_at_sum (a : list Z) (inds : list nat) :
  NoDup inds -> (forall j, In j inds -> (j < length a)%nat) ->
  np.sum (np.add_one_at a inds) = np.sum a + Z.of_nat (length inds).
Proof.
  intros Hnd Hb. unfold np.add_one_at. rewrite add_one_from_sum.
  f_equal. f_equal. apply Permutation_length.
  apply NoDup_Permutation.
  - apply NoDup_filter, seq_NoDup.
  - exact Hnd.
  - intros j. rewrite filter_In, existsb_eqb_In, in_seq.
    split; [ tauto | ]. intros Hj. specialize (Hb j Hj). split; [ lia | exact Hj ].
Qed.

(* ------------------------------------------------------------------ *)
(** ** Casts, quotients and products of doubles, in units *)

Lemma units_finite (m : positive) (e : Z) :
  -1074 <= e -> np.units (S754_finite false m e) = Zpos m * 2 ^ (e + 1074).
Proof. intros He. unfold np.units. apply Z.shiftl_mul_pow2. lia. Qed.

Lemma Zdigits2_pos (m : Z) : 0 < m -> 1 <= Zdigits2 m.
Proof. destruct m; simpl; lia. Qed.

(** Rounding a whole mantissa: what [binary_round_aux] makes of [A * 2^e]. *)
Lemma round_exact_spec (A e : Z) :
  0 < A -> -1074 <= e -> e + Z.max 0 (Zdigits2 A - 53) <= 970 ->
  let n1 := Z.max 0 (Zdigits2 A - 53) in
  exists (m3 : positive) (e3 m2 : Z),
    binary_round_aux 53 1024 false A e loc_Exact = S754_finite false m3 e3
    /\ Zpos m3 <= 2 ^ 53
    /\ e + n1 <= e3 <= e + n1 + 1
    /\ Zpos m3 * 2 ^ (e3 + 1074) = m2 * 2 ^ (e + n1 + 1074)
    /\ 2 ^ 52 * (m2 * 2 ^ n1 - A) <= A
    /\ - A <= 2 ^ 52 * (m2 * 2 ^ n1 - A)
    /\ (n1 = 0 -> m2 = A).
Proof.
  intros HA He Hov n1.
  assert (Hov' : e + Z.max 0 (Zdigits2 (A / 1) - 53) <= 970)
    by (rewrite Z.div_1_r; exact Hov).
  destruct (binary_round_aux_spec A 1 e ltac:(lia) ltac:(lia) He Hov')
    as (m2 & n2 & Hm2 & Hup & Hlt & Hn2 & Hexact & Hres).
  rewrite ?Z.div_1_r, ?Z.mod_1_r, ?Z.mul_1_l in Hm2, Hup, Hlt, Hres.
  rewrite Z.mod_1_r in Hres.
  change (new_location 1 0) with loc_Exact in Hres.
  fold n1 in Hm2, Hup, Hlt, Hres.
  replace (1 * 2 ^ n1) with (2 ^ n1) in Hm2, Hup, Hlt by lia.
  assert (Hn1 : 0 <= n1) by (unfold n1; lia).
  assert (H2n1 : 0 < 2 ^ n1) by (apply Z.pow_pos_nonneg; lia).
  assert (H2n2 : 0 < 2 ^ n2) by (apply Z.pow_pos_nonneg; lia).
  pose proof (Z.div_mod A (2 ^ n1) ltac:(lia)) as Hdm.
  pose proof (Z.mod_pos_bound A (2 ^ n1) H2n1) as Hmb.
  assert (Hq : 0 <= A / 2 ^ n1) by (apply Z.div_pos; lia).
  (* the mantissa kept is large, or nothing was cut *)
  assert (Hbig : n1 = 0 \/ 2 ^ 52 <= A / 2 ^ n1).
  { destruct (Z.eq_dec n1 0) as [ E | Hne ]; [ left; exact E | right ].
    assert (Hd : Zdigits2 A = 53 + n1) by (unfold n1 in *; lia).
    pose proof (Zdigits2_lower A HA) as Hl. rewrite Hd in Hl.
    replace (53 + n1 - 1) with (52 + n1) in Hl by lia.
    rewrite Z.pow_add_r in Hl by lia.
    apply Z.div_le_lower_bound; lia. }
  assert (Hsame : n1 = 0 -> m2 = A).
  { intros E. rewrite E in *. rewrite Z.pow_0_r, Z.div_1_r in *.
    destruct (Z.eq_dec m2 A) as [ | Hne ]; [ assumption | ].
    assert (Hm : m2 = A + 1) by lia. specialize (Hup Hm).
    rewrite Z.mod_1_r in Hup. lia. }
  assert (Herr : 2 ^ 52 * (m2 * 2 ^ n1 - A) <= A
                 /\ - A <= 2 ^ 52 * (m2 * 2 ^ n1 - A)).
  { destruct Hbig as [ E | Hb ].
    - rewrite (Hsame E), E, Z.pow_0_r. lia.
    - clear Hup Hres Hov Hov' Hlt.
      remember (2 ^ 52) as K eqn:EK.
      remember (2 ^ n1) as W eqn:EW.
      remember (A / W) as q eqn:Eq.
      remember (A mod W) as r eqn:Er.
      assert (HK : 0 < K) by (subst K; lia).
      assert (HKW : K * W <= W * q)
        by (rewrite (Z.mul_comm K W); apply Z.mul_le_mono_nonneg_l; lia).
      assert (Hc : m2 = q \/ m2 = q + 1) by lia.
      destruct Hc as [ -> | -> ].
      + replace (q * W - A) with (- r) by lia.
        assert (K * r <= K * W) by (apply Z.mul_le_mono_nonneg_l; lia). lia.
      + replace ((q + 1) * W - A) with (W - r) by lia.
        assert (K * (W - r) <= K * W) by (apply Z.mul_le_mono_nonneg_l; lia).
        assert (0 <= K * (W - r)) by (apply Z.mul_nonneg_nonneg; lia). lia. }
  assert (Hm2pos : 0 < m2).
  { destruct Hbig as [ E | Hb ]; [ | lia ].
    rewrite E, Z.pow_0_r, Z.div_1_r in Hm2. lia. }
  assert (Hm3 : 0 < m2 / 2 ^ n2).
  { destruct (Z.eq_dec (m2 / 2 ^ n2) 0) as [ E | ]; [ rewrite E in Hexact; lia | ].
    pose proof (Z.div_pos m2 (2 ^ n2) ltac:(lia) H2n2). lia. }
  destruct (m2 / 2 ^ n2) as [ | m3 | m3 ] eqn:Em3; try lia.
  exists m3, (e + n1 + n2), m2.
  split; [ exact Hres | ].
  split; [ nia | ]. split; [ lia | ].
  split; [ | split; [ apply Herr | split; [ apply Herr | exact Hsame ] ] ].
  rewrite <- Hexact.
  replace (e + n1 + n2 + 1074) with (n2 + (e + n1 + 1074)) by lia.
  rewrite Z.pow_add_r by lia. ring.
Qed.

(** An integer below [2^53] is cast without rounding. *)
Lemma float64_units (c : Z) :
  0 < c < 2 ^ 53 ->
  exists (m : positive) (e : Z),
    np.float64 c = S754_finite false m e
    /\ Zpos m <= 2 ^ 53 /\ -52 <= e <= 1
    /\ Zpos m * 2 ^ (e + 1074) = c * 2 ^ 1074.
Proof.
  intros Hc. destruct c as [ | p | p ]; try lia.
  unfold np.float64, binary_normalize, binary_round.
  change prec with 53. change emax with 1024.
  pose proof (Zdigits2_pos (Zpos p) ltac:(lia)) as Hd1.
  pose proof (Zdigits2_le (Zpos p) 53 ltac:(lia) ltac:(lia) ltac:(lia)) as Hd2.
  pose proof (Zdigits2_upper (Zpos p) ltac:(lia)) as Hup.
  change (Zdigits2 (Zpos p)) with (Zpos (digits2_pos p)) in Hd1, Hd2, Hup.
  set (d := Zpos (digits2_pos p)) in *.
  unfold fexp, emin.
  replace (Z.max (d + 0 - 53) (3 - 1024 - 53)) with (d - 53) by lia.
  assert (Hal : exists mz, shl_align p 0 (d - 53) = (mz, d - 53)
                           /\ Zpos mz = Zpos p * 2 ^ (53 - d)).
  { unfold shl_align. destruct (d - 53 - 0) as [ | k | k ] eqn:Ek; try lia.
    - exists p. replace (d - 53) with 0 by lia. split; [ reflexivity | ].
      replace (53 - d) with 0 by lia. lia.
    - exists (shift_pos k p). split; [ reflexivity | ].
      rewrite shift_pos_correct, Z.pow_pos_fold.
      replace (53 - d) with (Zpos k) by lia. ring. }
  destruct Hal as (mz & -> & Hmz).
  assert (H2 : 0 < 2 ^ (53 - d)) by (apply Z.pow_pos_nonneg; lia).
  assert (Hlt : Zpos mz < 2 ^ 53).
  { rewrite Hmz. replace 53 with (d + (53 - d)) at 2 by lia.
    rewrite Z.pow_add_r by lia. apply Z.mul_lt_mono_pos_r; assumption. }
  pose proof (Zdigits2_le (Zpos mz) 53 ltac:(lia) ltac:(lia) Hlt) as Hdz.
  destruct (round_exact_spec (Zpos mz) (d - 53) ltac:(lia) ltac:(lia) ltac:(lia))
    as (m3 & e3 & m2 & Hres & Hm3 & He3 & Hval & _ & _ & Hsame).
  replace (Z.max 0 (Zdigits2 (Zpos mz) - 53)) with 0 in He3, Hval, Hsame by lia.
  specialize (Hsame eq_refl). subst m2.
  exists m3, e3. split; [ exact Hres | ]. split; [ exact Hm3 | ]. split; [ lia | ].
  rewrite Hval, Hmz.
  replace (d - 53 + 0 + 1074) with (1074 - (53 - d)) by lia.
  rewrite <- Z.mul_assoc, <- Z.pow_add_r by lia.
  f_equal. f_equal. lia.
Qed.

(** The quotient handed to the rounding step, whatever the exponents. *)
Lemma SFdiv_core_binary_shift (m1 e1 m2 e2 : Z) :
  0 < m1 -> 0 < m2 -> Zdigits2 m1 - Zdigits2 m2 <= 53 ->
  -1074 <= Zdigits2 m1 + e1 - (Zdigits2 m2 + e2) - 53 ->
  let e' := Zdigits2 m1 + e1 - (Zdigits2 m2 + e2) - 53 in
  let s := 53 - Zdigits2 m1 + Zdigits2 m2 in
  SFdiv_core_binary 53 1024 m1 e1 m2 e2 =
    (m1 * 2 ^ s / m2, e', new_location m2 ((m1 * 2 ^ s) mod m2)).
Proof.
  intros H1 H2 Hd He e' s.
  unfold SFdiv_core_binary, fexp, emin.
  replace (Z.min (Z.max (Zdigits2 m1 + e1 - (Zdigits2 m2 + e2) - 53) (3 - 1024 - 53))
             (e1 - e2)) with e' by (unfold e'; lia).
  replace (e1 - e2 - e') with s by (unfold s, e'; lia).
  destruct s as [ | p | p ] eqn:Es; try (unfold s in Es; lia).
  - rewrite Z.pow_0_r, Z.mul_1_r, div_eucl_pair. reflexivity.
  - rewrite Z.shiftl_mul_pow2 by lia. rewrite div_eucl_pair. reflexivity.
Qed.

(** A quotient of two doubles of moderate size is within [2^-52] of the
    exact quotient, relatively.  Values are counted in units of [2^-1074]:
    [X], [Y] and [Q] for the operands and the result. *)
Lemma true_divide_units (m1 m2 : positive) (e1 e2 : Z) :
  Zpos m1 <= 2 ^ 53 -> Zpos m2 <= 2 ^ 53 ->
  -400 <= e1 <= 400 -> -400 <= e2 <= 400 ->
  exists (m3 : positive) (e3 : Z),
    np.true_divide (S754_finite false m1 e1) (S754_finite false m2 e2)
      = S754_finite false m3 e3
    /\ Zpos m3 <= 2 ^ 53
    /\ e1 - e2 - 107 <= e3 <= e1 - e2 + 2
    /\ let X := Zpos m1 * 2 ^ (e1 + 1074) in
       let Y := Zpos m2 * 2 ^ (e2 + 1074) in
       let Q := Zpos m3 * 2 ^ (e3 + 1074) in
       2 ^ 52 * (Q * Y - X * 2 ^ 1074) <= X * 2 ^ 1074
       /\ - (X * 2 ^ 1074) <= 2 ^ 52 * (Q * Y - X * 2 ^ 1074).
Proof.
  intros Hm1 Hm2 He1 He2.
  pose proof (Zdigits2_pos (Zpos m1) ltac:(lia)) as Hd1.
  pose proof (Zdigits2_pos (Zpos m2) ltac:(lia)) as Hd2.
  pose proof (Zdigits2_le (Zpos m1) 54 ltac:(lia) ltac:(lia) ltac:(lia)) as Hd1'.
  pose proof (Zdigits2_le (Zpos m2) 54 ltac:(lia) ltac:(lia) ltac:(lia)) as Hd2'.
  pose proof (Zdigits2_upper (Zpos m1) ltac:(lia)) as U1.
  pose proof (Zdigits2_lower (Zpos m1) ltac:(lia)) as L1.
  pose proof (Zdigits2_upper (Zpos m2) ltac:(lia)) as U2.
  pose proof (Zdigits2_lower (Zpos m2) ltac:(lia)) as L2.
  pose proof (SFdiv_core_binary_shift (Zpos m1) e1 (Zpos m2) e2
                ltac:(lia) ltac:(lia) ltac:(lia) ltac:(lia)) as Hcore.
  cbv zeta in Hcore.
  set (d1 := Zdigits2 (Zpos m1)) in *. set (d2 := Zdigits2 (Zpos m2)) in *.
  set (e' := d1 + e1 - (d2 + e2) - 53) in *.
  set (s := 53 - d1 + d2) in *.
  assert (Hs : 0 <= s) by (unfold s; lia).
  assert (H2s : 0 < 2 ^ s) by (apply Z.pow_pos_nonneg; lia).
  set (A := Zpos m1 * 2 ^ s) in *.
  assert (HA : 0 < A) by (unfold A; lia).
  (* the quotient has 53 or 54 bits *)
  assert (HAlow : 2 ^ 52 * Zpos m2 < A).
  { assert (E : 2 ^ (d1 - 1) * 2 ^ s = 2 ^ 52 * 2 ^ d2).
    { rewrite <- !Z.pow_add_r by lia. f_equal. unfold s. lia. }
    assert (2 ^ (d1 - 1) * 2 ^ s <= A)
      by (unfold A; apply Z.mul_le_mono_nonneg_r; lia).
    assert (2 ^ 52 * Zpos m2 < 2 ^ 52 * 2 ^ d2)
      by (apply Z.mul_lt_mono_pos_l; lia).
    lia. }
  assert (HAup : A < 2 ^ 54 * Zpos m2).
  { assert (E : 2 ^ d1 * 2 ^ s = 2 ^ 54 * 2 ^ (d2 - 1)).
    { rewrite <- !Z.pow_add_r by lia. f_equal. unfold s. lia. }
    assert (A < 2 ^ d1 * 2 ^ s)
      by (unfold A; apply Z.mul_lt_mono_pos_r; lia).
    assert (2 ^ 54 * 2 ^ (d2 - 1) <= 2 ^ 54 * Zpos m2)
      by (apply Z.mul_le_mono_nonneg_l; lia).
    lia. }
  assert (Hqlow : 2 ^ 52 <= A / Zpos m2) by (apply Z.div_le_lower_bound; lia).
  assert (Hqup : A / Zpos m2 < 2 ^ 54) by (apply Z.div_lt_upper_bound; lia).
  pose proof (Zdigits2_le (A / Zpos m2) 54 ltac:(lia) ltac:(lia) Hqup) as Hdq.
  set (n1 := Z.max 0 (Zdigits2 (A / Zpos m2) - 53)).
  assert (Hn1 : 0 <= n1 <= 1) by (unfold n1; lia).
  destruct (binary_round_aux_spec A (Zpos m2) e' ltac:(lia) ltac:(lia)
              ltac:(unfold e'; lia) ltac:(fold n1; unfold e'; lia))
    as (mr & n2 & Hmr & _ & Hlt & Hn2 & Hexact & Hres).
  fold n1 in Hmr, Hlt, Hres.
  set (D1 := Zpos m2 * 2 ^ n1) in *.
  assert (H2n1 : 0 < 2 ^ n1) by (apply Z.pow_pos_nonneg; lia).
  assert (HD1 : 0 < D1) by (unfold D1; lia).
  assert (H2n2 : 0 < 2 ^ n2) by (apply Z.pow_pos_nonneg; lia).
  (* the divisor after the cut is at most [A / 2^52] *)
  assert (HD1A : 2 ^ 52 * D1 <= A).
  { destruct (Z.eq_dec n1 0) as [ E | Hne ].
    - unfold D1. rewrite E, Z.pow_0_r. lia.
    - assert (En1 : n1 = 1) by lia.
      assert (Hd54 : Zdigits2 (A / Zpos m2) = 54) by (unfold n1 in En1; lia).
      pose proof (Zdigits2_lower (A / Zpos m2) ltac:(lia)) as Hl.
      rewrite Hd54 in Hl. change (54 - 1) with 53 in Hl.
      pose proof (Z.mul_div_le A (Zpos m2) ltac:(lia)) as Hle.
      unfold D1. rewrite En1. change (2 ^ 1) with 2.
      assert (Zpos m2 * 2 ^ 53 <= Zpos m2 * (A / Zpos m2))
        by (apply Z.mul_le_mono_nonneg_l; lia).
      lia. }
  pose proof (Z.div_mod A D1 ltac:(lia)) as Hdm.
  pose proof (Z.mod_pos_bound A D1 HD1) as Hmb.
  assert (Hq1 : 2 ^ 52 <= A / D1) by (apply Z.div_le_lower_bound; lia).
  assert (Hmrpos : 0 < mr) by lia.
  assert (Hm3pos : 0 < mr / 2 ^ n2).
  { destruct (Z.eq_dec (mr / 2 ^ n2) 0) as [ E | ]; [ rewrite E in Hexact; lia | ].
    pose proof (Z.div_pos mr (2 ^ n2) ltac:(lia) H2n2). lia. }
  destruct (mr / 2 ^ n2) as [ | m3 | m3 ] eqn:Em3; try lia.
  exists m3, (e' + n1 + n2).
  split.
  { unfold np.true_divide, SFdiv. change prec with 53. change emax with 1024.
    rewrite Hcore. simpl xorb. exact Hres. }
  split; [ nia | ].
  split; [ unfold e'; lia | ].
  cbv zeta.
  set (K := 2 ^ (e' + e2 + 2148)).
  assert (HK : 0 < K) by (apply Z.pow_pos_nonneg; unfold e'; lia).
  assert (EQ : Zpos m3 * 2 ^ (e' + n1 + n2 + 1074) * (Zpos m2 * 2 ^ (e2 + 1074))
               = mr * D1 * K).
  { rewrite <- Hexact. unfold D1, K.
    replace (e' + e2 + 2148) with (e' + 1074 + (e2 + 1074)) by lia.
    replace (e' + n1 + n2 + 1074) with (n2 + n1 + (e' + 1074)) by lia.
    rewrite (Z.pow_add_r 2 (e' + 1074) (e2 + 1074)) by (unfold e'; lia).
    rewrite (Z.pow_add_r 2 (n2 + n1) (e' + 1074)) by (unfold e'; lia).
    rewrite (Z.pow_add_r 2 n2 n1) by lia. ring. }
  assert (EX : Zpos m1 * 2 ^ (e1 + 1074) * 2 ^ 1074 = A * K).
  { unfold A, K.
    replace (e1 + 1074) with (s + (e' + e2 + 1074)) by (unfold s, e'; lia).
    replace (e' + e2 + 2148) with (e' + e2 + 1074 + 1074) by lia.
    rewrite (Z.pow_add_r 2 s (e' + e2 + 1074)) by (unfold e', s; lia).
    rewrite (Z.pow_add_r 2 (e' + e2 + 1074) 1074) by (unfold e', s; lia). ring. }
  rewrite EQ, EX.
  assert (Hc : mr = A / D1 \/ mr = A / D1 + 1) by lia.
  remember (2 ^ 52) as W eqn:EW.
  assert (HW : 0 < W) by (subst W; lia).
  remember (A / D1) as q eqn:Eq. remember (A mod D1) as r eqn:Er.
  replace (mr * D1 * K - A * K) with ((mr * D1 - A) * K) by ring.
  assert (Hbound : W * (mr * D1 - A) <= A /\ - A <= W * (mr * D1 - A)).
  { destruct Hc as [ -> | -> ].
    - replace (q * D1 - A) with (- r) by lia.
      assert (W * r <= W * D1) by (apply Z.mul_le_mono_nonneg_l; lia).
      assert (0 <= W * r) by (apply Z.mul_nonneg_nonneg; lia). lia.
    - replace ((q + 1) * D1 - A) with (D1 - r) by lia.
      assert (W * (D1 - r) <= W * D1) by (apply Z.mul_le_mono_nonneg_l; lia).
      assert (0 <= W * (D1 - r)) by (apply Z.mul_nonneg_nonneg; lia). lia. }
  destruct Hbound as [B1 B2].
  split.
  - rewrite Z.mul_assoc. apply Z.mul_le_mono_nonneg_r; lia.
  - rewrite Z.mul_assoc, <- Z.mul_opp_l. apply Z.mul_le_mono_nonneg_r; lia.
Qed.

(** A product of two doubles of moderate size is within [2^-52] of the
    exact product, relatively. *)
Lemma multiply_units (m1 m2 : positive) (e1 e2 : Z) :
  Zpos m1 <= 2 ^ 53 -> Zpos m2 <= 2 ^ 53 ->
  -400 <= e1 <= 400 -> -400 <= e2 <= 400 ->
  exists (m3 : positive) (e3 : Z),
    np.multiply (S754_finite false m1 e1) (S754_finite false m2 e2)
      = S754_finite false m3 e3
    /\ -1074 <= e3
    /\ let X := Zpos m1 * 2 ^ (e1 + 1074) in
       let Y := Zpos m2 * 2 ^ (e2 + 1074) in
       let V := Zpos m3 * 2 ^ (e3 + 1074) in
       2 ^ 52 * (V * 2 ^ 1074 - X * Y) <= X * Y
       /\ - (X * Y) <= 2 ^ 52 * (V * 2 ^ 1074 - X * Y).
Proof.
  intros Hm1 Hm2 He1 He2.
  set (A := Zpos (m1 * m2)).
  assert (EA : A = Zpos m1 * Zpos m2) by (unfold A; apply Pos2Z.inj_mul).
  assert (HA : 0 < A) by (unfold A; lia).
  assert (HAup : A < 2 ^ 107).
  { assert (A <= 2 ^ 53 * 2 ^ 53)
      by (rewrite EA; apply Z.mul_le_mono_nonneg; lia).
    change (2 ^ 107) with (2 ^ 53 * 2 ^ 53 * 2). lia. }
  pose proof (Zdigits2_le A 107 ltac:(lia) ltac:(lia) HAup) as Hd.
  pose proof (Zdigits2_nonneg A) as Hd0.
  destruct (round_exact_spec A (e1 + e2) HA ltac:(lia) ltac:(lia))
    as (m3 & e3 & mr & Hres & _ & He3 & Hval & B1 & B2 & _).
  set (n1 := Z.max 0 (Zdigits2 A - 53)) in *.
  exists m3, e3.
  split; [ unfold np.multiply, SFmul; simpl xorb; exact Hres | ].
  split; [ lia | ]. cbv zeta.
  assert (Hn1 : 0 <= n1) by (unfold n1; lia).
  set (K := 2 ^ (e1 + e2 + 1074) * 2 ^ 1074).
  assert (HK : 0 < K).
  { unfold K. apply Z.mul_pos_pos; apply Z.pow_pos_nonneg; lia. }
  assert (EV : Zpos m3 * 2 ^ (e3 + 1074) * 2 ^ 1074 = mr * 2 ^ n1 * K).
  { rewrite Hval. unfold K.
    replace (e1 + e2 + n1 + 1074) with (n1 + (e1 + e2 + 1074)) by lia.
    rewrite (Z.pow_add_r 2 n1 (e1 + e2 + 1074)) by lia. ring. }
  assert (EXY : Zpos m1 * 2 ^ (e1 + 1074) * (Zpos m2 * 2 ^ (e2 + 1074)) = A * K).
  { rewrite EA. unfold K.
    rewrite <- (Z.pow_add_r 2 (e1 + e2 + 1074) 1074) by lia.
    replace (e1 + e2 + 1074 + 1074) with (e1 + 1074 + (e2 + 1074)) by lia.
    rewrite (Z.pow_add_r 2 (e1 + 1074) (e2 + 1074)) by lia. ring. }
  rewrite EV, EXY.
  replace (mr * 2 ^ n1 * K - A * K) with ((mr * 2 ^ n1 - A) * K) by ring.
  split.
  - rewrite Z.mul_assoc. apply Z.mul_le_mono_nonneg_r; lia.
  - rewrite Z.mul_assoc, <- Z.mul_opp_l. apply Z.mul_le_mono_nonneg_r; lia.
Qed.

(** Two relative errors of [1/W] in a row. *)
Lemma two_roundings (W a b Q n T x : Z) :
  0 < W -> 0 <= n -> 0 <= T -> 0 <= x ->
  a = Q * T - x ->
  W * a <= x -> - x <= W * a ->
  W * b <= Q * n -> - (Q * n) <= W * b ->
  W * W * (b * T + n * a) <= n * x * (2 * W + 1)
  /\ - (n * x * (2 * W + 1)) <= W * W * (b * T + n * a).
Proof.
  intros HW Hn HT Hx Ea A1 A2 B1 B2.
  assert (HQT : W * (Q * T) = W * a + W * x) by (rewrite Ea; ring).
  assert (C1 : W * b * (W * T) <= Q * n * (W * T))
    by (apply Z.mul_le_mono_nonneg_r; [ apply Z.mul_nonneg_nonneg; lia | exact B1 ]).
  assert (C2 : - (Q * n) * (W * T) <= W * b * (W * T))
    by (apply Z.mul_le_mono_nonneg_r; [ apply Z.mul_nonneg_nonneg; lia | exact B2 ]).
  assert (C3 : W * a * (W * n) <= x * (W * n))
    by (apply Z.mul_le_mono_nonneg_r; [ apply Z.mul_nonneg_nonneg; lia | exact A1 ]).
  assert (C4 : - x * (W * n) <= W * a * (W * n))
    by (apply Z.mul_le_mono_nonneg_r; [ apply Z.mul_nonneg_nonneg; lia | exact A2 ]).
  assert (C5 : W * a * n <= x * n) by (apply Z.mul_le_mono_nonneg_r; assumption).
  assert (C6 : - x * n <= W * a * n) by (apply Z.mul_le_mono_nonneg_r; assumption).
  assert (E1 : Q * n * (W * T) = W * a * n + W * x * n).
  { replace (Q * n * (W * T)) with (W * (Q * T) * n) by ring. rewrite HQT. ring. }
  replace (W * W * (b * T + n * a)) with (W * b * (W * T) + W * a * (W * n)) by ring.
  replace (n * x * (2 * W + 1)) with (x * n + W * x * n + x * (W * n)) by ring.
  split.
  - lia.
  - replace (- (Q * n) * (W * T)) with (- (Q * n * (W * T))) in C2 by ring. lia.
Qed.

(** The share of a class, [c / T * n] in doubles, against the exact
    [c * n / T]: a relative error of at most [2^-50]. *)
Lemma share_units (c T n : Z) :
  0 < c < 2 ^ 53 -> 0 < T < 2 ^ 53 -> 0 < n < 2 ^ 53 ->
  let V := np.units (np.multiply (np.true_divide (np.float64 c) (np.float64 T))
                       (np.float64 n)) in
  2 ^ 50 * (V * T - c * n * 2 ^ 1074) <= c * n * 2 ^ 1074
  /\ - (c * n * 2 ^ 1074) <= 2 ^ 50 * (V * T - c * n * 2 ^ 1074).
Proof.
  intros Hc HT Hn. cbv zeta.
  destruct (float64_units c Hc) as (mc & ec & -> & Hmc & Hec & Vc).
  destruct (float64_units T HT) as (mT & eT & -> & HmT & HeT & VT).
  destruct (float64_units n Hn) as (mn & en & -> & Hmn & Hen & Vn).
  destruct (true_divide_units mc mT ec eT Hmc HmT ltac:(lia) ltac:(lia))
    as (mq & eq & -> & Hmq & Heq & D1 & D2).
  destruct (multiply_units mq mn eq en Hmq Hmn ltac:(lia) ltac:(lia))
    as (mv & ev & -> & Hev & M1 & M2).
  rewrite units_finite by exact Hev.
  cbv zeta in D1, D2, M1, M2. rewrite Vc, VT in D1, D2. rewrite Vn in M1, M2.
  set (V := Zpos mv * 2 ^ (ev + 1074)) in *.
  set (Q := Zpos mq * 2 ^ (eq + 1074)) in *.
  remember (2 ^ 1074) as P eqn:EP.
  assert (HP : 0 < P) by (subst P; apply Z.pow_pos_nonneg; lia).
  assert (A1 : 2 ^ 52 * (Q * T - c * P) <= c * P).
  { apply (Z.mul_le_mono_pos_r _ _ P HP).
    replace (2 ^ 52 * (Q * T - c * P) * P)
      with (2 ^ 52 * (Q * (T * P) - c * P * P)) by ring. exact D1. }
  assert (A2 : - (c * P) <= 2 ^ 52 * (Q * T - c * P)).
  { apply (Z.mul_le_mono_pos_r _ _ P HP).
    replace (2 ^ 52 * (Q * T - c * P) * P)
      with (2 ^ 52 * (Q * (T * P) - c * P * P)) by ring.
    replace (- (c * P) * P) with (- (c * P * P)) by ring. exact D2. }
  assert (B1 : 2 ^ 52 * (V - Q * n) <= Q * n).
  { apply (Z.mul_le_mono_pos_r _ _ P HP).
    replace (2 ^ 52 * (V - Q * n) * P)
      with (2 ^ 52 * (V * P - Q * (n * P))) by ring.
    replace (Q * n * P) with (Q * (n * P)) by ring. exact M1. }
  assert (B2 : - (Q * n) <= 2 ^ 52 * (V - Q * n)).
  { apply (Z.mul_le_mono_pos_r _ _ P HP).
    replace (2 ^ 52 * (V - Q * n) * P)
      with (2 ^ 52 * (V * P - Q * (n * P))) by ring.
    replace (- (Q * n) * P) with (- (Q * (n * P))) by ring. exact M2. }
  assert (HcP : 0 <= c * P) by (apply Z.mul_nonneg_nonneg; lia).
  destruct (two_roundings (2 ^ 52) (Q * T - c * P) (V - Q * n) Q n T (c * P)
              ltac:(lia) ltac:(lia) ltac:(lia) HcP eq_refl A1 A2 B1 B2)
    as [R1 R2].
  replace ((V - Q * n) * T + n * (Q * T - c * P)) with (V * T - c * n * P)
    in R1, R2 by ring.
  assert (Hx : 0 <= c * n * P).
  { apply Z.mul_nonneg_nonneg; [ apply Z.mul_nonneg_nonneg | ]; lia. }
  replace (n * (c * P)) with (c * n * P) in R1, R2 by ring.
  set (x := c * n * P) in *. set (y := V * T - x) in *.
  change (2 ^ 52 * 2 ^ 52) with (2 ^ 54 * 2 ^ 50) in R1, R2.
  change (2 * 2 ^ 52 + 1) with (2 ^ 53 + 1) in R1, R2.
  assert (Hle : x * (2 ^ 53 + 1) <= 2 ^ 54 * x).
  { rewrite (Z.mul_comm x). apply Z.mul_le_mono_nonneg_r; lia. }
  split.
  - apply (Z.mul_le_mono_pos_l _ _ (2 ^ 54) ltac:(lia)). lia.
  - apply (Z.mul_le_mono_pos_l _ _ (2 ^ 54) ltac:(lia)). lia.
Qed.

Lemma share_zero (T n : Z) :
  0 < T < 2 ^ 53 -> 0 < n < 2 ^ 53 ->
  np.multiply (np.true_divide (np.float64 0) (np.float64 T)) (np.float64 n)
  = S754_zero false.
Proof.
  intros HT Hn.
  destruct (float64_units T HT) as (mT & eT & -> & _).
  destruct (float64_units n Hn) as (mn & en & -> & _).
  reflexivity.
Qed.

(* ------------------------------------------------------------------ *)
(** *** [_approximate_mode] *)

Lemma mode_inv_length (values rems fs xs : list Z) :
  mode_inv values rems fs xs -> length xs = length rems /\ length fs = length rems.
Proof. induction 1; simpl; lia. Qed.

Lemma mode_inv_bounds (values rems fs xs : list Z) :
  mode_inv values rems fs xs -> Forall2 (fun f x => f <= x <= f + 1) fs xs.
Proof. induction 1; constructor; assumption. Qed.

Lemma mode_inv_start (values rems fs : list Z) :
  length rems = length fs -> mode_inv values rems fs fs.
Proof.
  revert fs. induction rems as [ | r rems IH ]; intros [ | f fs ] H; try discriminate.
  - constructor.
  - constructor; [ lia | reflexivity | apply IH; simpl in H; lia ].
Qed.

Lemma add_one_from_inv (v : Z) (values : list Z) (inds : list nat)
  (rems fs xs : list Z) :
  mode_inv (v :: values) rems fs xs -> ~ In v values ->
  forall i : nat,
    (forall k, (k < length rems)%nat -> In (i + k)%nat inds -> nth k rems 0 = v) ->
    mode_inv values rems fs (np.add_one_from i xs inds).
Proof.
  intros Hinv Hv. induction Hinv as [ | rem f x rems fs xs Hb Hin Hinv IH ]; intros i Hinds.
  - constructor.
  - cbn [np.add_one_from].
    assert (Htail : mode_inv values rems fs (np.add_one_from (S i) xs inds)).
    { apply IH. intros k Hk Hik. apply (Hinds (S k)); [ simpl; lia | ].
      replace (i + S k)%nat with (S i + k)%nat by lia. exact Hik. }
    destruct (existsb (Nat.eqb i) inds) eqn:Ex.
    + apply existsb_eqb_In in Ex.
      assert (Hrem : rem = v).
      { specialize (Hinds O ltac:(simpl; lia)). rewrite Nat.add_0_r in Hinds.
        symmetry. symmetry in Hinds. apply Hinds in Ex. simpl in Ex. congruence. }
      subst rem. specialize (Hin (or_introl eq_refl)). subst x.
      constructor; [ lia | intros; contradiction | exact Htail ].
    + constructor; [ exact Hb | | exact Htail ].
      intros Hr. apply Hin. right. exact Hr.
Qed.

Lemma filter_orb_length {A} (p q : A -> bool) (l : list A) :
  (forall x, In x l -> p x = true -> q x = false) ->
  length (filter (fun x => p x || q x) l)
  = (length (filter p l) + length (filter q l))%nat.
Proof.
  induction l as [ | a l IH ]; intros H; [ reflexivity | ].
  specialize (IH (fun x Hx => H x (or_intror Hx))).
  cbn [filter]. destruct (p a) eqn:Ep.
  - rewrite (H a (or_introl eq_refl) Ep). cbn [orb length]. rewrite IH. lia.
  - destruct (q a); cbn [orb length]; rewrite IH; lia.
Qed.

Lemma existsb_Zeqb_In (w : Z) (values : list Z) :
  existsb (Z.eqb w) values = true <-> In w values.
Proof.
  rewrite existsb_exists. split.
  - intros (x & Hx & E). apply Z.eqb_eq in E. subst. exact Hx.
  - intros H. exists w. split; [ exact H | apply Z.eqb_refl ].
Qed.

Lemma avail_cons (remainder values : list Z) (v : Z) :
  ~ In v values ->
  avail remainder (v :: values)
  = Z.of_nat (length (np.where_eq remainder v)) + avail remainder values.
Proof.
  intros Hv. unfold avail, np.where_eq. rewrite where_eq_from_length.
  rewrite <- Nat2Z.inj_add. f_equal.
  rewrite <- filter_orb_length.
  - reflexivity.
  - intros w _ E. apply Z.eqb_eq in E. subst w.
    destruct (existsb (Z.eqb v) values) eqn:Ex; [ | reflexivity ].
    apply existsb_Zeqb_In in Ex. contradiction.
Qed.

Lemma add_by_remainder_spec (remainder f0 : list Z) (values : list Z) :
  forall (floored : list Z) (need : Z) (t : np.rng),
  NoDup values ->
  mode_inv values remainder f0 floored ->
  0 < need <= avail remainder values ->
  let r := fst (sklearn.add_by_remainder remainder values floored need t) in
  length r = length remainder
  /\ np.sum r = np.sum floored + need
  /\ Forall2 (fun f x => f <= x <= f + 1) f0 r.
Proof.
  induction values as [ | v values IH ]; intros floored need t Hnd Hinv Hneed.
  - unfold avail in Hneed. simpl in Hneed.
    replace (filter (fun _ => false) remainder) with (@nil Z) in Hneed; [ simpl in Hneed; lia | ].
    clear. induction remainder; simpl; auto.
  - inversion Hnd as [ | ? ? Hv Hnd' ]; subst.
    rewrite (avail_cons remainder values v Hv) in Hneed.
    cbn [sklearn.add_by_remainder]. unfold np.bind.
    set (inds := np.where_eq remainder v) in *.
    set (add_now := Z.min (Z.of_nat (length inds)) need).
    assert (Hndi : NoDup inds) by apply where_eq_from_NoDup.
    assert (Hadd : 0 <= add_now <= Z.of_nat (length inds)) by (unfold add_now; lia).
    pose proof (choice_spec inds add_now t Hndi Hadd) as Hch. cbv zeta in Hch.
    destruct (np.choice inds add_now t) as [inds' t'].
    simpl fst in Hch. destruct Hch as (Hnd'' & Hincl & Hlen).
    destruct (mode_inv_length _ _ _ _ Hinv) as [Hl1 Hl2].
    assert (Hidx : forall j, In j inds' -> (j < length remainder)%nat /\ nth j remainder 0 = v).
    { intros j Hj. apply Hincl in Hj. unfold inds, np.where_eq in Hj.
      apply where_eq_from_In in Hj. rewrite Nat.sub_0_r in Hj. split; [ lia | tauto ]. }
    assert (Hsum' : np.sum (np.add_one_at floored inds') = np.sum floored + add_now).
    { rewrite add_one_at_sum; [ lia | exact Hnd'' | ].
      intros j Hj. rewrite Hl1. apply Hidx, Hj. }
    assert (Hinv' : mode_inv values remainder f0 (np.add_one_at floored inds')).
    { unfold np.add_one_at. apply add_one_from_inv with (v := v); [ exact Hinv | exact Hv | ].
      intros k Hk Hin. apply Hidx, Hin. }
    destruct (Z.eqb_spec (need - add_now) 0) as [E0 | NE0].
    + cbv zeta. simpl fst.
      split; [ unfold np.add_one_at; rewrite add_one_from_length; exact Hl1 | ].
      split; [ lia | ].
      eapply mode_inv_bounds, Hinv'.
    + assert (Hall : add_now = Z.of_nat (length inds)) by (unfold add_now in *; lia).
      specialize (IH (np.add_one_at floored inds') (need - add_now) t' Hnd' Hinv' ltac:(lia)).
      cbv zeta in IH. destruct IH as (I1 & I2 & I3).
      cbv zeta. split; [ exact I1 | ]. split; [ lia | exact I3 ].
Qed.

Lemma floor_mod_sum (vs : list Z) (P : Z) :
  0 < P ->
  np.sum vs
  = P * np.sum (map (fun v => v / P) vs) + np.sum (map (fun v => v mod P) vs)
  /\ 0 <= np.sum (map (fun v => v mod P) vs) <= (P - 1) * Z.of_nat (length vs).
Proof.
  intros HP. induction vs as [ | v vs [IH1 IH2] ].
  - simpl. lia.
  - rewrite !map_cons, !sum_cons.
    pose proof (Z.div_mod v P ltac:(lia)).
    pose proof (Z.mod_pos_bound v P HP).
    cbn [length]. rewrite Nat2Z.inj_succ. split; nia.
Qed.

Lemma filter_all {A} (p : A -> bool) (l : list A) :
  (forall x, In x l -> p x = true) -> filter p l = l.
Proof.
  induction l as [ | a l IH ]; intros H; [ reflexivity | ].
  simpl. rewrite (H a (or_introl eq_refl)). f_equal.
  apply IH. intros x Hx. apply H. right. exact Hx.
Qed.

Lemma filter_empty {A} (p : A -> bool) (l : list A) :
  (forall x, In x l -> p x = false) <-> filter p l = [].
Proof.
  induction l as [ | a l IH ]; simpl.
  - split; [ reflexivity | intros _ x [] ].
  - split.
    + intros H. rewrite (H a (or_introl eq_refl)). apply IH.
      intros x Hx. apply H. right. exact Hx.
    + destruct (p a) eqn:Ea; [ discriminate | ].
      intros H x [ <- | Hx ]; [ exact Ea | ]. apply IH; assumption.
Qed.

Lemma Forall2_map_left {A B C} (R : B -> C -> Prop) (f : A -> B)
  (l : list A) (xs : list C) :
  Forall2 R (map f l) xs -> Forall2 (fun a x => R (f a) x) l xs.
Proof.
  revert xs. induction l as [ | a l IH ]; intros xs H; cbn [map] in H.
  - inversion H. constructor.
  - inversion H as [ | ? x ? xs' Hb Hrest ]; subst.
    constructor; [ exact Hb | apply IH, Hrest ].
Qed.

Lemma Forall2_impl_left {A B} (R1 R2 : A -> B -> Prop) (l1 : list A) (l2 : list B) :
  (forall a b, In a l1 -> R1 a b -> R2 a b) ->
  Forall2 R1 l1 l2 -> Forall2 R2 l1 l2.
Proof.
  intros H H12. induction H12 as [ | a b l1 l2 Hab H12 IH ]; constructor.
  - apply H; [ left; reflexivity | exact Hab ].
  - apply IH. intros a' b' Ha'. apply H. right. exact Ha'.
Qed.

Lemma sum_member_le (l : list Z) (c : Z) :
  Forall (fun x => 0 <= x) l -> In c l -> c <= np.sum l.
Proof.
  induction 1 as [ | x l Hx Hl IH ]; intros Hin; [ destruct Hin | ].
  rewrite sum_cons.
  assert (0 <= np.sum l).
  { clear - Hl. induction Hl; [ simpl; lia | rewrite sum_cons; lia ]. }
  destruct Hin as [ -> | Hin ]; [ lia | specialize (IH Hin); lia ].
Qed.

(* ------------------------------------------------------------------ *)
(** *** The shares in doubles *)

Lemma share_eq (T n c : Z) :
  np.multiply (np.true_divide (np.float64 c) (np.float64 T)) (np.float64 n)
  = share T n c.
Proof. reflexivity. Qed.

Lemma floor_units (x : spec_float) : np.floor x = np.units x / 2 ^ 1074.
Proof. reflexivity. Qed.

Lemma fractional_units (x : spec_float) : np.fractional x = np.units x mod 2 ^ 1074.
Proof. reflexivity. Qed.

(** A share is not negative and within [2^-50] of the exact share. *)
Lemma share_close (T n c : Z) :
  0 < c < 2 ^ 53 -> 0 < T < 2 ^ 53 -> 0 < n < 2 ^ 53 ->
  let V := np.units (share T n c) in
  0 <= V
  /\ 2 ^ 50 * (V * T - c * n * 2 ^ 1074) <= c * n * 2 ^ 1074
  /\ - (c * n * 2 ^ 1074) <= 2 ^ 50 * (V * T - c * n * 2 ^ 1074).
Proof.
  intros Hc HT Hn. cbv zeta.
  destruct (share_units c T n Hc HT Hn) as [H1 H2]. rewrite share_eq in H1, H2.
  split; [ | split; assumption ].
  remember (2 ^ 1074) as P eqn:EP.
  assert (HP : 0 < P) by (subst P; apply Z.pow_pos_nonneg; lia).
  set (V := np.units (share T n c)) in *.
  assert (Hx : 0 <= c * n * P).
  { apply Z.mul_nonneg_nonneg; [ apply Z.mul_nonneg_nonneg | ]; lia. }
  assert (0 <= V * T) by lia.
  destruct (Z.le_gt_cases 0 V) as [ | Hneg ]; [ assumption | exfalso ].
  assert (V * T < 0) by (apply Z.mul_neg_pos; lia). lia.
Qed.

(** The shares of all classes together are within [2^-50] of the draws. *)
Lemma shares_sum (T n : Z) (l : list Z) :
  0 < T < 2 ^ 53 -> 0 < n < 2 ^ 53 ->
  Forall (fun c => 0 < c < 2 ^ 53) l ->
  let S := np.sum (map (fun c => np.units (share T n c)) l) in
  2 ^ 50 * (S * T - np.sum l * n * 2 ^ 1074) <= np.sum l * n * 2 ^ 1074
  /\ - (np.sum l * n * 2 ^ 1074) <= 2 ^ 50 * (S * T - np.sum l * n * 2 ^ 1074).
Proof.
  intros HT Hn Hl. cbv zeta.
  remember (2 ^ 1074) as P eqn:EP.
  induction Hl as [ | c l Hc Hl IH ].
  - simpl. lia.
  - rewrite map_cons, !sum_cons.
    destruct (share_close T n c Hc HT Hn) as (_ & H1 & H2). rewrite <- EP in H1, H2.
    set (V := np.units (share T n c)) in *.
    set (S := np.sum (map (fun c => np.units (share T n c)) l)) in *.
    destruct IH as [I1 I2].
    replace ((V + S) * T - (c + np.sum l) * n * P)
      with ((V * T - c * n * P) + (S * T - np.sum l * n * P)) by ring.
    replace ((c + np.sum l) * n * P) with (c * n * P + np.sum l * n * P) by ring.
    lia.
Qed.

(** A share of as many draws as there are members is the count itself, up
    to the rounding: it floors to the count, with a remainder below one
    half, or to one less, with a remainder above one half. *)
Lemma share_whole (n c : Z) :
  0 <= c -> 0 < n < 2 ^ 48 -> c < 2 ^ 48 ->
  c = np.floor (share n n c)
      + (if 2 ^ 1073 <? np.fractional (share n n c) then 1 else 0).
Proof.
  intros Hc Hn Hc'.
  destruct (Z.eq_dec c 0) as [ -> | Hne ].
  { unfold share. rewrite share_zero by lia. reflexivity. }
  destruct (share_close n n c ltac:(lia) ltac:(lia) ltac:(lia)) as (HV & H1 & H2).
  rewrite floor_units, fractional_units.
  set (V := np.units (share n n c)) in *.
  change (2 ^ 1074) with (2 * 2 ^ 1073) in *.
  remember (2 ^ 1073) as h eqn:Eh.
  assert (Hh : 0 < h) by (subst h; apply Z.pow_pos_nonneg; lia).
  set (P := 2 * h) in *.
  assert (HP : 0 < P) by (unfold P; lia).
  (* cancel the draws *)
  assert (A1 : 2 ^ 50 * (V - c * P) <= c * P).
  { apply (Z.mul_le_mono_pos_r _ _ n ltac:(lia)).
    replace (2 ^ 50 * (V - c * P) * n) with (2 ^ 50 * (V * n - c * n * P)) by ring.
    replace (c * P * n) with (c * n * P) by ring. exact H1. }
  assert (A2 : - (c * P) <= 2 ^ 50 * (V - c * P)).
  { apply (Z.mul_le_mono_pos_r _ _ n ltac:(lia)).
    replace (2 ^ 50 * (V - c * P) * n) with (2 ^ 50 * (V * n - c * n * P)) by ring.
    replace (- (c * P) * n) with (- (c * n * P)) by ring. exact H2. }
  assert (Hcp : c * P < 2 ^ 48 * P) by (apply Z.mul_lt_mono_pos_r; lia).
  assert (B1 : 4 * (V - c * P) < P) by lia.
  assert (B2 : 4 * (c * P - V) < P) by lia.
  destruct (Z.le_gt_cases (c * P) V) as [ Hge | Hlt ].
  - assert (Ed : V / P = c).
    { symmetry. apply (Z.div_unique V P c (V - c * P)); [ left | ]; lia. }
    assert (Em : V mod P = V - c * P).
    { symmetry. apply (Z.mod_unique V P c (V - c * P)); [ left | ]; lia. }
    rewrite Ed, Em.
    replace (h <? V - c * P) with false
      by (symmetry; apply Z.ltb_ge; unfold P in *; lia).
    lia.
  - assert (Ed : V / P = c - 1).
    { symmetry. apply (Z.div_unique V P (c - 1) (V - (c - 1) * P)); [ left | ]; lia. }
    assert (Em : V mod P = V - (c - 1) * P).
    { symmetry. apply (Z.mod_unique V P (c - 1) (V - (c - 1) * P)); [ left | ]; lia. }
    rewrite Ed, Em.
    replace (h <? V - (c - 1) * P) with true
      by (symmetry; apply Z.ltb_lt; unfold P in *; lia).
    lia.
Qed.

(* ------------------------------------------------------------------ *)
(** *** The largest remainders first *)

Lemma add_one_from_where (v : Z) (inds : list nat) :
  forall (rem fl : list Z) (i : nat),
  length fl = length rem ->
  (forall k, (k < length rem)%nat -> In (i + k)%nat inds <-> nth k rem 0 = v) ->
  np.add_one_from i fl inds
  = map (fun rf => if fst rf =? v then snd rf + 1 else snd rf) (combine rem fl).
Proof.
  induction rem as [ | w rem IH ]; intros [ | f fl ] i Hlen H; try discriminate.
  - reflexivity.
  - cbn [np.add_one_from combine map fst snd]. f_equal.
    + specialize (H O ltac:(simpl; lia)). rewrite Nat.add_0_r in H. cbn [nth] in H.
      destruct (existsb (Nat.eqb i) inds) eqn:Ex.
      * apply existsb_eqb_In in Ex. apply H in Ex. subst w.
        rewrite Z.eqb_refl. reflexivity.
      * destruct (Z.eqb_spec w v) as [ E | ]; [ | reflexivity ].
        apply H in E. apply existsb_eqb_In in E. congruence.
    + apply IH; [ simpl in Hlen; lia | ].
      intros k Hk. specialize (H (S k) ltac:(simpl; lia)). cbn [nth] in H.
      replace (S i + k)%nat with (i + S k)%nat by lia. exact H.
Qed.

Lemma above_cons (theta v : Z) (values : list Z) (rem : Z) :
  theta < v ->
  above theta (v :: values) rem = ((rem =? v) || above theta values rem)%bool.
Proof.
  intros Hv. unfold above. cbn [existsb].
  destruct (Z.eqb_spec rem v) as [ -> | ].
  - replace (theta <? v) with true by (symmetry; apply Z.ltb_lt; exact Hv).
    reflexivity.
  - reflexivity.
Qed.

Lemma above_absent (theta : Z) (values : list Z) (rem : Z) :
  ~ In rem values -> above theta values rem = false.
Proof.
  intros H. unfold above.
  destruct (existsb (Z.eqb rem) values) eqn:Ex.
  - apply existsb_Zeqb_In in Ex. contradiction.
  - apply andb_false_r.
Qed.

Lemma served_twice (h1 h2 : Z * Z -> Z) :
  forall (rem fl : list Z),
  map h2 (combine rem (map h1 (combine rem fl)))
  = map (fun rf => h2 (fst rf, h1 rf)) (combine rem fl).
Proof.
  induction rem as [ | w rem IH ]; intros [ | f fl ]; try reflexivity.
  cbn [combine map fst]. rewrite IH. reflexivity.
Qed.

(** When the draws to add are as many as the remainders above a mark,
    the loop gives one more draw to exactly the classes with these
    remainders, whatever the random state. *)
Lemma add_by_remainder_top (theta : Z) (remainder : list Z) :
  forall (values floored : list Z) (need : Z) (t : np.rng),
  StronglySorted Z.gt values ->
  length floored = length remainder ->
  0 < need ->
  need = Z.of_nat (length (filter (above theta values) remainder)) ->
  fst (sklearn.add_by_remainder remainder values floored need t)
  = served theta values remainder floored.
Proof.
  induction values as [ | v values IH ]; intros floored need t Hs Hlen Hpos Hneed.
  - exfalso.
    assert (E : filter (above theta []) remainder = []).
    { apply filter_empty. intros x _. unfold above. apply andb_false_r. }
    rewrite E in Hneed. simpl in Hneed. lia.
  - apply StronglySorted_inv in Hs. destruct Hs as [Hs Hgt].
    rewrite Forall_forall in Hgt.
    assert (Hv : ~ In v values).
    { intros Hin. specialize (Hgt v Hin). lia. }
    assert (Hth : theta < v).
    { destruct (filter (above theta (v :: values)) remainder) as [ | w l ] eqn:E;
        [ simpl in Hneed; lia | ].
      assert (Hw : In w (filter (above theta (v :: values)) remainder))
        by (rewrite E; left; reflexivity).
      apply filter_In in Hw. destruct Hw as [_ Hw]. unfold above in Hw.
      apply andb_prop in Hw. destruct Hw as [Hw1 Hw2].
      apply Z.ltb_lt in Hw1. apply existsb_Zeqb_In in Hw2.
      destruct Hw2 as [ <- | Hw2 ]; [ exact Hw1 | ].
      specialize (Hgt w Hw2). lia. }
    assert (Hcount : length (filter (above theta (v :: values)) remainder)
                     = (length (filter (fun w => (w =? v)%Z) remainder)
                        + length (filter (above theta values) remainder))%nat).
    { rewrite <- filter_orb_length.
      - f_equal. apply filter_ext. intros w. apply above_cons, Hth.
      - intros w _ E. apply Z.eqb_eq in E. subst w. apply above_absent, Hv. }
    cbn [sklearn.add_by_remainder]. unfold np.bind.
    set (inds := np.where_eq remainder v) in *.
    assert (Hli : length inds = length (filter (fun w => w =? v) remainder))
      by (unfold inds, np.where_eq; apply where_eq_from_length).
    replace (Z.min (Z.of_nat (length inds)) need) with (Z.of_nat (length inds)) by lia.
    assert (Hndi : NoDup inds) by apply where_eq_from_NoDup.
    pose proof (choice_spec inds (Z.of_nat (length inds)) t Hndi ltac:(lia)) as Hch.
    cbv zeta in Hch.
    destruct (np.choice inds (Z.of_nat (length inds)) t) as [inds' t'].
    simpl fst in Hch. destruct Hch as (Hnd' & Hincl & Hl'). rewrite Nat2Z.id in Hl'.
    assert (Hincl' : incl inds inds').
    { apply NoDup_length_incl; [ exact Hnd' | lia | exact Hincl ]. }
    assert (Hfl : np.add_one_at floored inds'
                  = map (fun rf => if fst rf =? v then snd rf + 1 else snd rf)
                      (combine remainder floored)).
    { unfold np.add_one_at. apply add_one_from_where; [ exact Hlen | ].
      intros k Hk. cbn [Nat.add]. split.
      - intros Hin. apply Hincl in Hin. unfold inds, np.where_eq in Hin.
        apply where_eq_from_In in Hin. rewrite Nat.sub_0_r in Hin. tauto.
      - intros E. apply Hincl'. unfold inds, np.where_eq.
        apply where_eq_from_In. rewrite Nat.sub_0_r. split; [ lia | exact E ]. }
    destruct (Z.eqb_spec (need - Z.of_nat (length inds)) 0) as [E0 | NE0].
    + simpl fst. rewrite Hfl. unfold served. apply map_ext_in.
      intros [w f] Hin. cbn [fst snd]. rewrite above_cons by exact Hth.
      assert (Ew : above theta values w = false).
      { assert (Hz : filter (above theta values) remainder = []).
        { destruct (filter (above theta values) remainder); [ reflexivity | ].
          simpl in Hcount. simpl in Hneed. lia. }
        apply filter_empty with (x := w) in Hz; [ exact Hz | ].
        eapply in_combine_l, Hin. }
      rewrite Ew, orb_false_r. reflexivity.
    + rewrite (IH (np.add_one_at floored inds') (need - Z.of_nat (length inds)) t' Hs).
      * unfold served. rewrite Hfl, served_twice. apply map_ext_in.
        intros [w f] Hin. cbn [fst snd]. rewrite above_cons by exact Hth.
        destruct (Z.eqb_spec w v) as [ -> | ].
        -- rewrite above_absent by exact Hv. reflexivity.
        -- reflexivity.
      * unfold np.add_one_at. rewrite add_one_from_length. exact Hlen.
      * lia.
      * lia.
Qed.

Lemma sorted_rev (l : list Z) :
  StronglySorted Z.lt l -> StronglySorted Z.gt (rev l).
Proof.
  induction 1 as [ | a l Hs IH Ha ]; [ constructor | ].
  cbn [rev].
  assert (Hgen : forall l', StronglySorted Z.gt l' -> Forall (fun x => x > a) l' ->
                            StronglySorted Z.gt (l' ++ [a])).
  { clear. induction 1 as [ | b l' Hs IH Hb ]; intros Hall.
    - repeat constructor.
    - apply Forall_cons_iff in Hall. destruct Hall as [Hba Hall].
      cbn [app]. constructor; [ apply IH, Hall | ].
      apply Forall_app. split; [ exact Hb | repeat constructor; exact Hba ]. }
  apply Hgen; [ exact IH | ].
  apply Forall_forall. intros x Hx. apply in_rev in Hx.
  rewrite Forall_forall in Ha. specialize (Ha x Hx). lia.
Qed.

(* ------------------------------------------------------------------ *)
(** *** What [_approximate_mode] hands out *)

(** [n_draws] draws in all, none negative, each class within one draw of
    its share in doubles, which is within [2^-50] of the exact share. *)
Lemma approximate_mode_spec (counts : list Z) (n : Z) (t : np.rng) :
  Forall (fun c => 0 < c) counts ->
  0 < n <= np.sum counts -> np.sum counts < 2 ^ 48 ->
  let r := fst (sklearn._approximate_mode counts n t) in
  let T := np.sum counts in
  length r = length counts
  /\ np.sum r = n
  /\ Forall2 (fun c x => 0 <= x
                /\ 2 ^ 50 * ((x - 1) * T) <= c * n * (2 ^ 50 + 1)
                /\ c * n * (2 ^ 50 - 1) < 2 ^ 50 * ((x + 1) * T)) counts r.
Proof.
  intros Hpos Hn HT. cbv zeta. unfold sklearn._approximate_mode.
  set (T := np.sum counts) in *.
  change (map (fun c => np.multiply (np.true_divide (np.float64 c) (np.float64 T))
                          (np.float64 n)) counts)
    with (map (share T n) counts).
  set (cont := map (share T n) counts).
  set (f0 := map np.floor cont). set (remainder := map np.fractional cont).
  assert (Hnn : Forall (fun c => 0 <= c) counts).
  { eapply Forall_impl; [ | exact Hpos ]. intros a Ha. cbv beta in Ha. lia. }
  assert (Hc53 : Forall (fun c => 0 < c < 2 ^ 53) counts).
  { apply Forall_forall. intros c Hc.
    pose proof (sum_member_le counts c Hnn Hc). rewrite Forall_forall in Hpos.
    specialize (Hpos c Hc). fold T in H. lia. }
  destruct (shares_sum T n counts ltac:(lia) ltac:(lia) Hc53) as [S1 S2].
  fold T in S1, S2.
  set (vs := map (fun c => np.units (share T n c)) counts) in *.
  assert (Ef : f0 = map (fun v => v / 2 ^ 1074) vs).
  { unfold f0, cont, vs. rewrite !map_map. reflexivity. }
  assert (Er : remainder = map (fun v => v mod 2 ^ 1074) vs).
  { unfold remainder, cont, vs. rewrite !map_map. reflexivity. }
  assert (Hlv : length vs = length counts) by (unfold vs; apply length_map).
  remember (2 ^ 1074) as P eqn:EP.
  assert (HP : 0 < P) by (subst P; apply Z.pow_pos_nonneg; lia).
  destruct (floor_mod_sum vs P HP) as [Hid Hrem].
  rewrite <- Ef, <- Er in Hid. rewrite <- Er, Hlv in Hrem.
  (* the draws still to add are between none and one per class *)
  assert (HnP : n * P < 2 ^ 50 * P) by (apply Z.mul_lt_mono_pos_r; lia).
  assert (Hs1 : np.sum vs - n * P < P).
  { assert (2 ^ 50 * (np.sum vs * T - T * n * P) < 2 ^ 50 * P * T).
    { assert (T * n * P < 2 ^ 50 * P * T).
      { replace (T * n * P) with (n * P * T) by ring.
        apply Z.mul_lt_mono_pos_r; lia. }
      lia. }
    apply (Z.mul_lt_mono_pos_r T); [ lia | ].
    apply (Z.mul_lt_mono_pos_l (2 ^ 50)); [ lia | ].
    replace (2 ^ 50 * ((np.sum vs - n * P) * T))
      with (2 ^ 50 * (np.sum vs * T - T * n * P)) by ring.
    replace (2 ^ 50 * (P * T)) with (2 ^ 50 * P * T) by ring. assumption. }
  assert (Hs2 : - P < np.sum vs - n * P).
  { assert (- (2 ^ 50 * P * T) < 2 ^ 50 * (np.sum vs * T - T * n * P)).
    { assert (T * n * P < 2 ^ 50 * P * T).
      { replace (T * n * P) with (n * P * T) by ring.
        apply Z.mul_lt_mono_pos_r; lia. }
      lia. }
    apply (Z.mul_lt_mono_pos_r T); [ lia | ].
    apply (Z.mul_lt_mono_pos_l (2 ^ 50)); [ lia | ].
    replace (2 ^ 50 * ((np.sum vs - n * P) * T))
      with (2 ^ 50 * (np.sum vs * T - T * n * P)) by ring.
    replace (2 ^ 50 * (- P * T)) with (- (2 ^ 50 * P * T)) by ring. assumption. }
  assert (Hneed : 0 <= n - np.sum f0 <= Z.of_nat (length counts)).
  { set (k := Z.of_nat (length counts)) in *.
    assert (0 <= k) by (unfold k; lia).
    split.
    - assert (P * np.sum f0 < P * (n + 1)) by lia.
      assert (np.sum f0 < n + 1) by (apply (Z.mul_lt_mono_pos_l P); assumption).
      lia.
    - assert (P * (n - 1 - k) < P * np.sum f0) by lia.
      assert (n - 1 - k < np.sum f0) by (apply (Z.mul_lt_mono_pos_l P); assumption).
      lia. }
  (* from the floor to the exact share *)
  assert (Hb0 : forall xs, Forall2 (fun f x => f <= x <= f + 1) f0 xs ->
      Forall2 (fun c x => 0 <= x
                 /\ 2 ^ 50 * ((x - 1) * T) <= c * n * (2 ^ 50 + 1)
                 /\ c * n * (2 ^ 50 - 1) < 2 ^ 50 * ((x + 1) * T)) counts xs).
  { intros xs H. unfold f0, cont in H. rewrite map_map in H.
    apply Forall2_map_left in H.
    eapply Forall2_impl_left; [ | exact H ]. cbv beta.
    intros c x Hc Hfx. rewrite Forall_forall in Hc53.
    destruct (share_close T n c (Hc53 c Hc) ltac:(lia) ltac:(lia)) as (HV & B1 & B2).
    rewrite <- EP in B1, B2.
    rewrite floor_units in Hfx. rewrite <- EP in Hfx.
    set (V := np.units (share T n c)) in *.
    pose proof (Z.div_mod V P ltac:(lia)) as Hdm.
    pose proof (Z.mod_pos_bound V P HP) as Hmb.
    assert (Hf : 0 <= V / P) by (apply Z.div_pos; lia).
    set (f := V / P) in *.
    assert (HfP : f * P <= V < (f + 1) * P) by lia.
    split; [ lia | ]. split.
    - apply (Z.mul_le_mono_pos_r _ _ P HP).
      assert (2 ^ 50 * ((x - 1) * T) * P <= 2 ^ 50 * (f * P * T)).
      { replace (2 ^ 50 * ((x - 1) * T) * P) with (2 ^ 50 * ((x - 1) * (P * T))) by ring.
        replace (2 ^ 50 * (f * P * T)) with (2 ^ 50 * (f * (P * T))) by ring.
        apply Z.mul_le_mono_nonneg_l; [ lia | ].
        apply Z.mul_le_mono_nonneg_r; [ apply Z.mul_nonneg_nonneg; lia | lia ]. }
      assert (2 ^ 50 * (f * P * T) <= 2 ^ 50 * (V * T)).
      { apply Z.mul_le_mono_nonneg_l; [ lia | ].
        apply Z.mul_le_mono_nonneg_r; lia. }
      replace (c * n * (2 ^ 50 + 1) * P) with (2 ^ 50 * (c * n * P) + c * n * P) by ring.
      lia.
    - apply (Z.mul_lt_mono_pos_r P _ _ HP).
      assert (2 ^ 50 * (V * T) < 2 ^ 50 * ((f + 1) * P * T)).
      { apply Z.mul_lt_mono_pos_l; [ lia | ].
        apply Z.mul_lt_mono_pos_r; lia. }
      assert (2 ^ 50 * ((f + 1) * P * T) <= 2 ^ 50 * ((x + 1) * T) * P).
      { replace (2 ^ 50 * ((x + 1) * T) * P) with (2 ^ 50 * ((x + 1) * (P * T))) by ring.
        replace (2 ^ 50 * ((f + 1) * P * T)) with (2 ^ 50 * ((f + 1) * (P * T))) by ring.
        apply Z.mul_le_mono_nonneg_l; [ lia | ].
        apply Z.mul_le_mono_nonneg_r; [ apply Z.mul_nonneg_nonneg; lia | lia ]. }
      replace (c * n * (2 ^ 50 - 1) * P) with (2 ^ 50 * (c * n * P) - c * n * P) by ring.
      lia. }
  assert (Hlf : length f0 = length counts)
    by (unfold f0, cont; rewrite !length_map; reflexivity).
  destruct (Z.ltb_spec 0 (n - np.sum f0)) as [Hgt | Hzero].
  - assert (Hlen : length remainder = length f0)
      by (unfold remainder, f0; rewrite !length_map; reflexivity).
    pose proof (add_by_remainder_spec remainder f0 (rev (np.unique remainder)) f0
                  (n - np.sum f0) t) as H.
    cbv zeta in H. destruct H as (H1 & H2 & H3).
    + apply NoDup_rev, unique_NoDup.
    + apply mode_inv_start, Hlen.
    + split; [ exact Hgt | ].
      unfold avail. rewrite filter_all.
      * rewrite Hlen, Hlf. lia.
      * intros w Hw. apply existsb_Zeqb_In. apply -> in_rev. apply unique_In, Hw.
    + split; [ rewrite H1, Hlen; exact Hlf | ].
      split; [ lia | apply Hb0, H3 ].
  - simpl fst. split; [ exact Hlf | ].
    split; [ lia | ]. apply Hb0. clear.
    induction f0; constructor; [ lia | assumption ].
Qed.

Lemma shares_whole (n : Z) (l : list Z) :
  0 < n < 2 ^ 48 -> Forall (fun c => 0 <= c < 2 ^ 48) l ->
  let cont := map (share n n) l in
  l = served (2 ^ 1073) (rev (np.unique (map np.fractional cont)))
        (map np.fractional cont) (map np.floor cont)
  /\ np.sum l = np.sum (map np.floor cont)
                + Z.of_nat (length (filter (fun w => 2 ^ 1073 <? w)
                                      (map np.fractional cont))).
Proof.
  intros Hn Hl. cbv zeta.
  set (values := rev (np.unique (map np.fractional (map (share n n) l)))).
  assert (Hin : forall c, In c l -> In (np.fractional (share n n c)) values).
  { intros c Hc. unfold values. apply -> in_rev. apply unique_In.
    rewrite map_map. apply in_map_iff. exists c. split; [ reflexivity | exact Hc ]. }
  clearbody values. unfold served.
  induction Hl as [ | c l Hc Hl IH ].
  - split; reflexivity.
  - destruct IH as [I1 I2]; [ intros c' Hc'; apply Hin; right; exact Hc' | ].
    pose proof (share_whole n c ltac:(lia) Hn ltac:(lia)) as Hw.
    cbn [map combine fst snd filter]. rewrite !sum_cons.
    assert (Ea : above (2 ^ 1073) values (np.fractional (share n n c))
                 = (2 ^ 1073 <? np.fractional (share n n c))).
    { unfold above. replace (existsb _ values) with true; [ apply andb_true_r | ].
      symmetry. apply existsb_Zeqb_In. apply Hin. left. reflexivity. }
    rewrite Ea.
    destruct (2 ^ 1073 <? np.fractional (share n n c)); split.
    + f_equal; [ exact Hw | exact I1 ].
    + cbn [length]. rewrite Nat2Z.inj_succ. lia.
    + f_equal; [ lia | exact I1 ].
    + lia.
Qed.

(** When the draws are as many as the members, every class gives all it
    has, whatever the random state. *)
Lemma approximate_mode_exact (counts : list Z) (n : Z) (t : np.rng) :
  Forall (fun c => 0 <= c) counts ->
  np.sum counts = n -> 0 < n < 2 ^ 48 ->
  fst (sklearn._approximate_mode counts n t) = counts.
Proof.
  intros Hnn Hs Hn. unfold sklearn._approximate_mode. rewrite Hs.
  change (map (fun c => np.multiply (np.true_divide (np.float64 c) (np.float64 n))
                          (np.float64 n)) counts)
    with (map (share n n) counts).
  assert (Hc : Forall (fun c => 0 <= c < 2 ^ 48) counts).
  { apply Forall_forall. intros c Hc.
    pose proof (sum_member_le counts c Hnn Hc). rewrite Forall_forall in Hnn.
    specialize (Hnn c Hc). lia. }
  destruct (shares_whole n counts Hn Hc) as [E1 E2]. cbv zeta in E1, E2.
  set (cont := map (share n n) counts) in *.
  set (f0 := map np.floor cont) in *. set (remainder := map np.fractional cont) in *.
  assert (Hlen : length f0 = length remainder)
    by (unfold remainder, f0; rewrite !length_map; reflexivity).
  assert (Hfilt : filter (above (2 ^ 1073) (rev (np.unique remainder))) remainder
                  = filter (fun w => 2 ^ 1073 <? w) remainder).
  { apply filter_ext_in. intros w Hw. unfold above.
    replace (existsb _ _) with true; [ apply andb_true_r | ].
    symmetry. apply existsb_Zeqb_In. apply -> in_rev. apply unique_In, Hw. }
  destruct (Z.ltb_spec 0 (n - np.sum f0)) as [Hgt | Hzero].
  - rewrite (add_by_remainder_top (2 ^ 1073) remainder (rev (np.unique remainder))
               f0 (n - np.sum f0) t).
    + symmetry. exact E1.
    + apply sorted_rev, unique_sorted.
    + exact Hlen.
    + exact Hgt.
    + rewrite Hfilt. lia.
  - simpl fst.
    assert (Hz : filter (above (2 ^ 1073) (rev (np.unique remainder))) remainder = []).
    { rewrite Hfilt. destruct (filter _ remainder); [ reflexivity | ].
      simpl in E2. lia. }
    etransitivity; [ | symmetry; exact E1 ]. unfold served.
    transitivity (map snd (combine remainder f0)).
    + clearbody f0 remainder. clear - Hlen. revert f0 Hlen.
      induction remainder as [ | w r IH ]; intros [ | f f0 ] H; try discriminate;
        [ reflexivity | ].
      cbn [combine map snd]. f_equal. apply IH. simpl in H. lia.
    + apply map_ext_in. intros [w f] Hin. cbn [fst snd].
      apply filter_empty with (x := w) in Hz; [ rewrite Hz; reflexivity | ].
      eapply in_combine_l, Hin.
Qed.

(* ------------------------------------------------------------------ *)
(** ** Preparing a stratified split *)

Lemma half_ceiling (N : Z) : Qceiling ((1 # 2) * inject_Z N) = (N + 1) / 2.
Proof.
  unfold Qceiling, Qfloor, Qopp, Qmult, inject_Z. cbn [Qnum Qden].
  change (Z.pos (2 * 1)) with 2. rewrite Z.mul_1_l.
  pose proof (Z.div_mod (- N) 2 ltac:(lia)).
  pose proof (Z.mod_pos_bound (- N) 2 ltac:(lia)).
  pose proof (Z.div_mod (N + 1) 2 ltac:(lia)).
  pose proof (Z.mod_pos_bound (N + 1) 2 ltac:(lia)).
  lia.
Qed.




(** What a successful preparation has established. *)
Lemma prepare_inv (s : sklearn.StratifiedShuffleSplit) (y : list Z)
  (p : sklearn.prepared) :
  sklearn.test_size s = 1 # 2 ->
  sklearn.prepare s (length y) y = ok p ->
  sklearn.n_train p = Z.of_nat (length y) - (Z.of_nat (length y) + 1) / 2
  /\ sklearn.n_test p = (Z.of_nat (length y) + 1) / 2
  /\ 0 < sklearn.n_train p
  /\ sklearn.n_classes p = length (sklearn.class_counts p)
  /\ Forall (fun c => 2 <= c) (sklearn.class_counts p)
  /\ np.sum (sklearn.class_counts p) = Z.of_nat (length y)
  /\ Forall2 (fun piece c => Z.of_nat (length piece) = c)
       (sklearn.class_indices p) (sklearn.class_counts p)
  /\ Permutation (concat (sklearn.class_indices p)) (seq 0 (length y)).
Proof.
  intros Hts Hp.
  set (counts := np.bincount (np.unique_inverse y)).
  pose proof (Z.div_mod (Z.of_nat (length y) + 1) 2 ltac:(lia)) as Hdm.
  pose proof (Z.mod_pos_bound (Z.of_nat (length y) + 1) 2 ltac:(lia)) as Hmb.
  unfold sklearn.prepare in Hp. rewrite Nat.eqb_refl in Hp. cbn [negb] in Hp.
  rewrite Hts in Hp. unfold sklearn._validate_shuffle_split in Hp.
  change (Qle_bool (1 # 2) 0 || Qle_bool 1 (1 # 2))%bool with false in Hp.
  cbv iota in Hp. rewrite half_ceiling in Hp.
  destruct (Z.eqb_spec (Z.of_nat (length y) - (Z.of_nat (length y) + 1) / 2) 0)
    as [ | Hntr ]; [ discriminate | ].
  unfold ok, raise in Hp. cbv beta iota in Hp. fold counts in Hp.
  destruct (Z.ltb_spec (np.min counts) 2) as [ | Hmin ]; [ discriminate | ].
  destruct (Z.ltb_spec (Z.of_nat (length y) - (Z.of_nat (length y) + 1) / 2)
              (Z.of_nat (length (np.unique y)))) as [ | H1 ]; [ discriminate | ].
  destruct (Z.ltb_spec ((Z.of_nat (length y) + 1) / 2)
              (Z.of_nat (length (np.unique y)))) as [ | H2 ]; [ discriminate | ].
  injection Hp as <-.
  cbn [sklearn.n_train sklearn.n_test sklearn.n_classes sklearn.class_counts
       sklearn.class_indices]. fold counts.
  assert (Hne : y <> []).
  { intros E. rewrite E in Hntr. simpl in Hntr. apply Hntr. reflexivity. }
  assert (Hne' : np.unique_inverse y <> []).
  { intros E. apply (f_equal (@length nat)) in E.
    rewrite unique_inverse_length in E. destruct y; [ congruence | discriminate ]. }
  assert (Hsum : np.sum counts = Z.of_nat (length y)).
  { unfold counts. rewrite bincount_sum, unique_inverse_length. reflexivity. }
  assert (Hlen : length counts = length (np.unique y)).
  { unfold counts. rewrite bincount_length by exact Hne'.
    apply unique_inverse_max, Hne. }
  assert (Hcne : counts <> []).
  { intros E. rewrite E in Hlen. simpl in Hlen.
    apply (unique_nonempty y Hne). destruct (np.unique y); [ reflexivity | discriminate ]. }
  assert (Hge : Forall (fun c => 2 <= c) counts).
  { apply Forall_forall. intros c Hc. pose proof (min_le counts c Hc). lia. }
  split; [ reflexivity | ]. split; [ reflexivity | ]. split; [ lia | ].
  split; [ symmetry; exact Hlen | ]. split; [ exact Hge | ]. split; [ exact Hsum | ].
  assert (Hpos : Forall (fun c => 0 <= c) counts).
  { eapply Forall_impl; [ | exact Hge ]. intros a Ha. cbv beta in Ha. lia. }
  pose proof (argsort_Permutation (np.unique_inverse y)) as Pa.
  rewrite unique_inverse_length in Pa.
  assert (Hsum' : np.sum counts = Z.of_nat (length (np.argsort (np.unique_inverse y)))).
  { rewrite (Permutation_length Pa), length_seq. exact Hsum. }
  destruct (split_cumsum (np.argsort (np.unique_inverse y)) counts Hcne Hpos Hsum')
    as [S1 S2].
  split; [ exact S1 | ]. rewrite S2. exact Pa.
Qed.


(* ------------------------------------------------------------------ *)
(** ** One stratified split *)

Lemma Permutation_two_appends {A} (a x b y r : list A) :
  Permutation ((a ++ x) ++ (b ++ y) ++ r) (a ++ b ++ (x ++ y) ++ r).
Proof.
  rewrite <- !app_assoc. apply Permutation_app_head.
  rewrite !app_assoc. do 2 apply Permutation_app_tail.
  apply Permutation_app_comm.
Qed.

Lemma Forall2_nth {A B} (R : A -> B -> Prop) (l1 : list A) (l2 : list B)
  (d1 : A) (d2 : B) :
  Forall2 R l1 l2 ->
  forall i, (i < length l1)%nat -> R (nth i l1 d1) (nth i l2 d2).
Proof.
  induction 1 as [ | a b l1 l2 Hab H IH ]; intros i Hi; simpl in Hi; [ lia | ].
  destruct i as [ | i ]; simpl; [ exact Hab | apply IH; lia ].
Qed.

(** The loop over the classes. *)
Lemma per_class_spec (p : sklearn.prepared) (n_i t_i : list Z) :
  forall (classes : list nat) (train test : list nat) (t : np.rng),
  (forall i, In i classes ->
     Z.of_nat (length (nth i (sklearn.class_indices p) []))
       = nth i (sklearn.class_counts p) 0
     /\ 0 <= nth i n_i 0 /\ 0 <= nth i t_i 0
     /\ nth i n_i 0 + nth i t_i 0 = nth i (sklearn.class_counts p) 0) ->
  let r := fst (sklearn.per_class p n_i t_i classes train test t) in
  Permutation (fst r ++ snd r)
    (train ++ test
       ++ concat (map (fun i => nth i (sklearn.class_indices p) []) classes))
  /\ Z.of_nat (length (fst r))
     = Z.of_nat (length train) + np.sum (map (fun i => nth i n_i 0) classes).
Proof.
  induction classes as [ | i classes IH ]; intros train test t H; cbv zeta.
  - simpl. rewrite app_nil_r. split; [ reflexivity | lia ].
  - cbn [sklearn.per_class]. unfold np.bind.
    destruct (H i (or_introl eq_refl)) as (Hlen & Hn & Ht & Hnt).
    set (piece := nth i (sklearn.class_indices p) []) in *.
    pose proof (permutation_int_Permutation (nth i (sklearn.class_counts p) 0) t) as Pp.
    destruct (np.permutation_int (nth i (sklearn.class_counts p) 0) t) as [perm t'].
    simpl fst in Pp. rewrite <- Hlen, Nat2Z.id in Pp.
    pose proof (take_clip_Permutation piece perm Pp) as Pt.
    set (pic := np.take_clip piece perm) in *.
    assert (Hpl : Z.of_nat (length pic) = nth i (sklearn.class_counts p) 0).
    { rewrite (Permutation_length Pt). exact Hlen. }
    pose proof (slice_two_halves pic (nth i n_i 0) (nth i t_i 0) Hn Ht ltac:(lia)) as Hs.
    specialize (IH (train ++ slice pic 0 (nth i n_i 0))
                   (test ++ slice pic (nth i n_i 0) (nth i n_i 0 + nth i t_i 0)) t'
                   (fun j Hj => H j (or_intror Hj))).
    cbv zeta in IH. destruct IH as [IH1 IH2]. split.
    + eapply perm_trans; [ exact IH1 | ].
      eapply perm_trans; [ apply Permutation_two_appends | ].
      rewrite Hs. cbn [map concat]. fold piece.
      do 2 apply Permutation_app_head. apply Permutation_app_tail. exact Pt.
    + rewrite IH2. rewrite length_app, Nat2Z.inj_add.
      rewrite map_cons, sum_cons.
      rewrite slice_prefix by lia. rewrite length_firstn. lia.
Qed.

Lemma map_combine_sub_nth (a b : list Z) (i : nat) :
  length a = length b -> (i < length a)%nat ->
  nth i (map (fun cn => fst cn - snd cn) (combine a b)) 0 = nth i a 0 - nth i b 0.
Proof.
  revert b i. induction a as [ | x a IH ]; intros [ | y b ] i Hl Hi; simpl in *; try lia.
  destruct i as [ | i ]; [ reflexivity | ]. apply IH; lia.
Qed.

Lemma map_combine_sub_sum (a b : list Z) :
  length a = length b ->
  np.sum (map (fun cn => fst cn - snd cn) (combine a b)) = np.sum a - np.sum b.
Proof.
  revert b. induction a as [ | x a IH ]; intros [ | y b ] Hl; simpl in *; try lia.
  rewrite IH by lia. lia.
Qed.

Lemma map_combine_sub_length (a b : list Z) :
  length a = length b ->
  length (map (fun cn => fst cn - snd cn) (combine a b)) = length a.
Proof. intros H. rewrite length_map, length_combine. lia. Qed.

(** With at most half of the labels to draw, a class gives at most half
    of its members and one more. *)
Lemma draws_at_most_half (c n N x : Z) :
  0 < N -> 0 <= n -> 2 * n <= N -> 0 <= c < 2 ^ 48 ->
  2 ^ 50 * ((x - 1) * N) <= c * n * (2 ^ 50 + 1) ->
  2 * x <= c + 2.
Proof.
  intros HN Hn H2n Hc Hx.
  assert (H1 : c * (2 * n) <= c * N) by (apply Z.mul_le_mono_nonneg_l; lia).
  assert (H2 : c * (2 * n) * (2 ^ 50 + 1) <= c * N * (2 ^ 50 + 1))
    by (apply Z.mul_le_mono_nonneg_r; lia).
  assert (H3 : 2 ^ 51 * (x - 1) * N <= (2 ^ 50 * c + c) * N).
  { replace (2 ^ 51 * (x - 1) * N) with (2 * (2 ^ 50 * ((x - 1) * N))) by ring.
    replace ((2 ^ 50 * c + c) * N) with (c * N * (2 ^ 50 + 1)) by ring.
    replace (c * (2 * n) * (2 ^ 50 + 1)) with (2 * (c * n * (2 ^ 50 + 1))) in H2 by ring.
    lia. }
  apply Z.mul_le_mono_pos_r in H3; [ lia | exact HN ].
Qed.


(** One round of the splitter deals every index out exactly once. *)
Lemma one_split_spec (p : sklearn.prepared) (N : Z) (t : np.rng) :
  N < 2 ^ 48 ->
  sklearn.n_train p = N - (N + 1) / 2 ->
  sklearn.n_test p = (N + 1) / 2 ->
  0 < sklearn.n_train p ->
  sklearn.n_classes p = length (sklearn.class_counts p) ->
  Forall (fun c => 2 <= c) (sklearn.class_counts p) ->
  np.sum (sklearn.class_counts p) = N ->
  Forall2 (fun piece c => Z.of_nat (length piece) = c)
    (sklearn.class_indices p) (sklearn.class_counts p) ->
  let r := fst (sklearn.one_split p t) in
  Permutation (fst r ++ snd r) (concat (sklearn.class_indices p))
  /\ Z.of_nat (length (fst r)) = sklearn.n_train p.
Proof.
  intros Hsmall Htr Hte Hpos Hnc Hge Hsum Hpieces. cbv zeta.
  unfold sklearn.one_split, np.bind.
  set (counts := sklearn.class_counts p) in *.
  pose proof (Z.div_mod (N + 1) 2 ltac:(lia)) as Hdm.
  pose proof (Z.mod_pos_bound (N + 1) 2 ltac:(lia)) as Hmb.
  assert (Hcpos : Forall (fun c => 0 < c) counts).
  { eapply Forall_impl; [ | exact Hge ]. intros a Ha. cbv beta in Ha. lia. }
  assert (Hcnn : Forall (fun c => 0 <= c) counts).
  { eapply Forall_impl; [ | exact Hge ]. intros a Ha. cbv beta in Ha. lia. }
  pose proof (approximate_mode_spec counts (sklearn.n_train p) t Hcpos
                ltac:(lia) ltac:(lia)) as Hm.
  cbv zeta in Hm.
  destruct (sklearn._approximate_mode counts (sklearn.n_train p) t) as [n_i t1].
  simpl fst in Hm. destruct Hm as (Hl & Hs & Hb). rewrite Hsum in Hb.
  assert (Hx : forall i, (i < length counts)%nat ->
                 0 <= nth i n_i 0 <= nth i counts 0).
  { intros i Hi.
    pose proof (Forall2_nth _ _ _ 0 0 Hb i Hi) as H2. cbv beta in H2.
    assert (Hin : In (nth i counts 0) counts) by (apply nth_In, Hi).
    assert (Hc : 2 <= nth i counts 0).
    { rewrite Forall_forall in Hge. apply Hge, Hin. }
    pose proof (sum_member_le counts _ Hcnn Hin) as Hle.
    destruct H2 as (H0 & Hup & _).
    pose proof (draws_at_most_half (nth i counts 0) (sklearn.n_train p) N (nth i n_i 0)
                  ltac:(lia) ltac:(lia) ltac:(lia) ltac:(lia) Hup).
    lia. }
  set (remaining := map (fun cn => fst cn - snd cn) (combine counts n_i)).
  assert (Hrs : np.sum remaining = sklearn.n_test p).
  { unfold remaining. rewrite map_combine_sub_sum by (symmetry; exact Hl). lia. }
  assert (Hrnn : Forall (fun c => 0 <= c) remaining).
  { apply Forall_forall. intros c Hc.
    apply (In_nth _ _ 0) in Hc. destruct Hc as (i & Hi & <-).
    unfold remaining in Hi. rewrite map_combine_sub_length in Hi by (symmetry; exact Hl).
    unfold remaining. rewrite map_combine_sub_nth by (try lia; symmetry; exact Hl).
    specialize (Hx i Hi). lia. }
  pose proof (approximate_mode_exact remaining (sklearn.n_test p) t1 Hrnn Hrs
                ltac:(lia)) as Hex.
  destruct (sklearn._approximate_mode remaining (sklearn.n_test p) t1) as [t_i t1'].
  simpl fst in Hex. subst t_i.
  assert (Hcls : forall i, In i (seq 0 (sklearn.n_classes p)) ->
     Z.of_nat (length (nth i (sklearn.class_indices p) [])) = nth i counts 0
     /\ 0 <= nth i n_i 0 /\ 0 <= nth i remaining 0
     /\ nth i n_i 0 + nth i remaining 0 = nth i counts 0).
  { intros i Hi. apply in_seq in Hi. rewrite Hnc in Hi.
    assert (Hi' : (i < length counts)%nat) by lia.
    pose proof (Forall2_length Hpieces) as Hpl.
    pose proof (Forall2_nth _ _ _ [] 0 Hpieces i ltac:(lia)) as H1. cbv beta in H1.
    unfold remaining. rewrite map_combine_sub_nth by (try lia; symmetry; exact Hl).
    specialize (Hx i Hi').
    split; [ exact H1 | ]. lia. }
  pose proof (per_class_spec p n_i remaining (seq 0 (sklearn.n_classes p)) [] [] t1' Hcls) as Hpc.
  cbv zeta in Hpc.
  destruct (sklearn.per_class p n_i remaining (seq 0 (sklearn.n_classes p)) [] [] t1')
    as [[train test] t2].
  simpl fst in Hpc. simpl snd in Hpc. destruct Hpc as [P1 L1].
  cbn [fst snd].
  pose proof (shuffle_Permutation train t2) as Ptr.
  unfold np.permutation.
  destruct (np.shuffle train t2) as [train' t3]. simpl fst in Ptr.
  pose proof (shuffle_Permutation test t3) as Pte.
  destruct (np.shuffle test t3) as [test' t4]. simpl fst in Pte.
  cbn [np.ret fst snd]. split.
  - eapply perm_trans; [ apply Permutation_app; [ exact Ptr | exact Pte ] | ].
    eapply perm_trans; [ exact P1 | ]. simpl app.
    rewrite Hnc. pose proof (Forall2_length Hpieces) as Hpl. fold counts. rewrite <- Hpl.
    rewrite map_nth_seq. reflexivity.
  - rewrite (Permutation_length Ptr), L1. simpl length.
    rewrite Hnc. fold counts. rewrite <- Hl. rewrite map_nth_seq. lia.
Qed.

(* ------------------------------------------------------------------ *)
(** ** The sampler: construction, length and iteration *)

Lemma init_inv (labels : tensor) (batch_size : Z) (self : StratifiedSampler) :
  __init__ labels batch_size = ok self ->
  class_vector self = labels.
Proof.
  unfold __init__. destruct (truediv _ _) as [ e | q ]; [ discriminate | ].
  destruct (int_of_float q) as [ e | n ]; [ discriminate | ].
  intros H. injection H as <-. reflexivity.
Qed.

Lemma init_floor (labels : tensor) (batch_size : Z) :
  size0 labels < 2 ^ 53 -> 0 < batch_size ->
  __init__ labels batch_size
  = ok {| n_splits := size0 labels / batch_size;
          class_vector := labels |}.
Proof.
  intros HN HB. unfold __init__.
  destruct (truediv_floor (size0 labels) batch_size) as (q & E1 & E2);
    [ unfold size0 in *; lia | exact HB | ].
  unfold ok in *. rewrite E1. cbv beta iota. rewrite E2. reflexivity.
Qed.


(** What [gen_sample_array] does with the generator: one [next], the two
    halves joined. *)
Lemma gen_sample_array_relays (self : StratifiedSampler) (t : np.rng) :
  let s := {| sklearn.n_splits := n_splits self; sklearn.test_size := 1 # 2 |} in
  gen_sample_array self t =
  match sklearn.split s (length (class_vector self)) (class_vector self) with
  | inl e => (raise e, t)
  | inr g =>
      match sklearn.next g t with
      | (inl e, t') => (raise e, t')
      | (inr (train, test, _), t') => (ok (train ++ test), t')
      end
  end.
Proof.
  cbv zeta. unfold gen_sample_array.
  destruct (sklearn.split _ _ _) as [ e | g ]; [ reflexivity | ].
  destruct (sklearn.next g t) as [[ e | [[train test] g'] ] t']; [ reflexivity | ].
  unfold np.hstack. simpl. rewrite app_nil_r. reflexivity.
Qed.

(** A successful pass is the first split of the generator, the train-like
    indices first; for fewer than 2^48 labels it hands out every position
    once, and the train-like indices are the first half, rounded down. *)
Lemma gen_sample_array_ok (self : StratifiedSampler) (t t' : np.rng)
  (idx : list nat) :
  gen_sample_array self t = (ok idx, t') ->
  exists g train test g',
    sklearn.split {| sklearn.n_splits := n_splits self; sklearn.test_size := 1 # 2 |}
      (length (class_vector self)) (class_vector self) = ok g
    /\ sklearn.next g t = (ok (train, test, g'), t')
    /\ idx = train ++ test
    /\ (size0 (class_vector self) < 2 ^ 48 ->
        Permutation idx (seq 0 (length (class_vector self)))
        /\ Z.of_nat (length train) = size0 (class_vector self) / 2).
Proof.
  rewrite gen_sample_array_relays. cbv zeta.
  set (s := {| sklearn.n_splits := n_splits self; sklearn.test_size := 1 # 2 |}).
  set (y := class_vector self).
  destruct (sklearn.split s (length y) y) as [ e | g ] eqn:Es; [ discriminate | ].
  destruct (sklearn.next g t) as [[ e | [[train test] g'] ] t1] eqn:En; [ discriminate | ].
  intros H. injection H as <- <-.
  exists g, train, test, g'.
  split; [ reflexivity | ]. split; [ exact En | ]. split; [ reflexivity | ].
  intros Hsmall. unfold size0 in Hsmall.
  unfold sklearn.split in Es. destruct y as [ | v0 y0 ] eqn:Ey; [ discriminate | ].
  rewrite <- Ey in *. injection Es as <-.
  unfold sklearn.next in En.
  destruct (sklearn.prepare s (length y) y) as [ e | p ] eqn:Ep; [ discriminate | ].
  destruct (prepare_inv s y p eq_refl Ep)
    as (Htr & Hte & Hpos & Hnc & Hge & Hsum & Hpieces & Pc).
  unfold sklearn.resume in En.
  destruct (Z.to_nat (sklearn.n_splits s)) as [ | rounds ]; [ discriminate | ].
  pose proof (one_split_spec p (Z.of_nat (length y)) t Hsmall Htr Hte Hpos Hnc Hge
                Hsum Hpieces) as Hs.
  cbv zeta in Hs.
  destruct (sklearn.one_split p t) as [[train0 test0] t0].
  simpl fst in Hs. simpl snd in Hs. destruct Hs as [P L].
  injection En as <- <- _ <-.
  split; [ eapply perm_trans; [ exact P | exact Pc ] | ].
  rewrite L, Htr. unfold size0.
  pose proof (Z.div_mod (Z.of_nat (length y) + 1) 2 ltac:(lia)).
  pose proof (Z.mod_pos_bound (Z.of_nat (length y) + 1) 2 ltac:(lia)).
  pose proof (Z.div_mod (Z.of_nat (length y)) 2 ltac:(lia)).
  pose proof (Z.mod_pos_bound (Z.of_nat (length y)) 2 ltac:(lia)).
  lia.
Qed.


(** Rounds beyond the first are never run: the pass is the same for every
    positive [n_splits]. *)
Lemma gen_sample_array_first_round (self : StratifiedSampler) (n : Z) (t : np.rng) :
  1 <= n_splits self -> 1 <= n ->
  gen_sample_array {| n_splits := n; class_vector := class_vector self |} t
  = gen_sample_array self t.
Proof.
  intros H1 H2. rewrite !gen_sample_array_relays. cbv zeta.
  cbn [n_splits class_vector].
  unfold sklearn.split. destruct (class_vector self) as [ | v0 y0 ] eqn:Ey; [ reflexivity | ].
  rewrite <- Ey. unfold ok. cbv beta iota. unfold sklearn.next.
  change (sklearn.prepare {| sklearn.n_splits := n; sklearn.test_size := 1 # 2 |}
            (length (class_vector self)) (class_vector self))
    with (sklearn.prepare {| sklearn.n_splits := n_splits self; sklearn.test_size := 1 # 2 |}
            (length (class_vector self)) (class_vector self)).
  destruct (sklearn.prepare _ _ _) as [ e | p ]; [ reflexivity | ].
  cbn [sklearn.n_splits].
  destruct (Z.to_nat n) as [ | k ] eqn:E1; [ lia | ].
  destruct (Z.to_nat (n_splits self)) as [ | k' ] eqn:E2; [ lia | ].
  unfold sklearn.resume.
  destruct (sklearn.one_split p t) as [[train test] t']. reflexivity.
Qed.




(** C2 (amended).  For a label vector of fewer than 2^53 entries and a
    positive batch size the constructor succeeds and stores
    [floor(N / B)]. *)
Theorem init_n_splits_floor (labels : tensor) (batch_size : Z) :
  size0 labels < 2 ^ 53 -> 0 < batch_size ->
  exists self,
    __init__ labels batch_size = ok self
    /\ n_splits self = size0 labels / batch_size
    /\ class_vector self = labels.
Proof.
  intros HN HB. eexists. split; [ apply init_floor; assumption | ].
  split; reflexivity.
Qed.

(** [[0,0,0,0,1,1,1,1]] with batch size 2: [n_splits = 4]. *)
Lemma init_n_splits_floor_witness :
  exists self,
    __init__ [0; 0; 0; 0; 1; 1; 1; 1] 2 = ok self /\ n_splits self = 4.
Proof.
  destruct (init_n_splits_floor [0; 0; 0; 0; 1; 1; 1; 1] 2) as (self & E & Hn & _);
    [ vm_compute; reflexivity | lia | ].
  exists self. split; [ exact E | rewrite Hn; reflexivity ].
Defined.

(** C2 as stated fails: with 3 * 2^54 - 1 labels and batch size 3 the
    quotient 2^54 - 1/3 rounds to the float 2^54, one more than the
    floor. *)
Lemma init_n_splits_rounds_up :
  size0 huge_vector = 54043195528445951
  /\ __init__ huge_vector 3
     = ok {| n_splits := 18014398509481984; class_vector := huge_vector |}
  /\ 54043195528445951 / 3 = 18014398509481983.
Proof.
  assert (Hs : size0 huge_vector = 54043195528445951).
  { unfold size0, huge_vector. rewrite repeat_length, Z2Nat.id by lia. reflexivity. }
  split; [ exact Hs | ]. split; [ | reflexivity ].
  unfold __init__. rewrite Hs.
  assert (E : truediv 54043195528445951 3 = ok (S754_finite false 4503599627370496 2))
    by (vm_compute; reflexivity).
  rewrite E. reflexivity.
Qed.

(** C3.  [__len__] is the number of labels: for the sampler the constructor
    builds, whatever the batch size, and for any value of [n_splits]; and
    the constructor does build one for every positive batch size. *)
Theorem len_is_number_of_labels (labels : tensor) (batch_size : Z) :
  (forall self,
     __init__ labels batch_size = ok self ->
     __len__ self = size0 labels)
  /\ (forall n,
        __len__ {| n_splits := n; class_vector := labels |}
        = size0 labels)
  /\ (size0 labels < 2 ^ 53 -> 0 < batch_size ->
      exists self,
        __init__ labels batch_size = ok self
        /\ __len__ self = size0 labels).
Proof.
  split; [ | split ].
  - intros self H. unfold __len__. rewrite (init_inv _ _ _ H). reflexivity.
  - intros n. reflexivity.
  - intros HN HB. eexists. split; [ apply init_floor; assumption | reflexivity ].
Qed.

(** C4.  A pass advances the splitter's generator once and returns the
    train-like indices followed by the test-like ones: the entries up to
    the length of the first split's train half are that half, the rest its
    test half (for fewer than 2^48 labels the train half has
    [floor(N / 2)] entries); later splits are never computed, so any
    positive [n_splits] gives the same pass. *)
Theorem first_split_train_then_test (self : StratifiedSampler) (t : np.rng) :
  (forall g train test g' t',
     sklearn.split
       {| sklearn.n_splits := n_splits self; sklearn.test_size := 1 # 2 |}
       (length (class_vector self)) (class_vector self) = ok g ->
     sklearn.next g t = (ok (train, test, g'), t') ->
     __iter__ self t = (ok (train ++ test), t'))
  /\ (forall idx t',
        __iter__ self t = (ok idx, t') ->
        exists g train test g',
          sklearn.split
            {| sklearn.n_splits := n_splits self; sklearn.test_size := 1 # 2 |}
            (length (class_vector self)) (class_vector self) = ok g
          /\ sklearn.next g t = (ok (train, test, g'), t')
          /\ idx = train ++ test
          /\ firstn (length train) idx = train
          /\ skipn (length train) idx = test
          /\ (size0 (class_vector self) < 2 ^ 48 ->
              Z.of_nat (length train) = size0 (class_vector self) / 2))
  /\ (forall n,
        1 <= n_splits self -> 1 <= n ->
        __iter__ {| n_splits := n; class_vector := class_vector self |} t
        = __iter__ self t).
Proof.
  split; [ | split ].
  - intros g train test g' t' Es En. unfold __iter__.
    rewrite gen_sample_array_relays. cbv zeta. rewrite Es. unfold ok in *.
    cbv beta iota. rewrite En. reflexivity.
  - intros idx t' H.
    destruct (gen_sample_array_ok self t t' idx H)
      as (g & train & test & g' & Es & En & -> & L).
    exists g, train, test, g'.
    split; [ exact Es | ]. split; [ exact En | ]. split; [ reflexivity | ].
    split; [ | split ].
    + rewrite firstn_app, Nat.sub_diag, firstn_all. simpl. apply app_nil_r.
    + rewrite skipn_app, Nat.sub_diag, skipn_all. reflexivity.
    + intros Hsmall. apply L, Hsmall.
  - intros n H1 H2. apply gen_sample_array_first_round; assumption.
Qed.

(** C9 (amended).  With [N < 2 * B] the constructor still builds a sampler,
    for any sizes; for fewer than 2^53 labels its [n_splits] is
    [floor(N / B)], which is 0 or 1; and a pass hands the stored value to
    the splitter as it is: the outcome of the pass is the outcome of the
    generator's first [next], fault or split, with nothing put in its
    place.  With [n_splits = 0] the generator has no round to run and the
    pass ends in its fault. *)
Theorem degenerate_n_splits_unguarded (labels : tensor) (batch_size : Z) :
  size0 labels < 2 * batch_size ->
  exists self,
    __init__ labels batch_size = ok self
    /\ class_vector self = labels
    /\ (size0 labels < 2 ^ 53 ->
        n_splits self = size0 labels / batch_size
        /\ 0 <= n_splits self <= 1)
    /\ (forall t,
          __iter__ self t =
          match sklearn.split
                  {| sklearn.n_splits := n_splits self;
                     sklearn.test_size := 1 # 2 |}
                  (length labels) labels with
          | inl e => (raise e, t)
          | inr g =>
              match sklearn.next g t with
              | (inl e, t') => (raise e, t')
              | (inr (train, test, _), t') => (ok (train ++ test), t')
              end
          end)
    /\ (n_splits self = 0 ->
        forall t, exists e, __iter__ self t = (raise e, t)).
Proof.
  intros HNB.
  assert (HN : 0 <= size0 labels) by (unfold size0; lia).
  destruct (truediv_total (size0 labels) batch_size HN HNB) as (q & n & E1 & E2).
  exists {| n_splits := n; class_vector := labels |}.
  assert (Hinit : __init__ labels batch_size
                  = ok {| n_splits := n; class_vector := labels |}).
  { unfold __init__. unfold ok in *. rewrite E1. cbv beta iota. rewrite E2. reflexivity. }
  split; [ exact Hinit | ]. split; [ reflexivity | ].
  split; [ | split ].
  - intros H53. rewrite init_floor in Hinit by lia.
    injection Hinit as <-. cbn [n_splits]. split; [ reflexivity | ].
    assert (0 <= size0 labels / batch_size) by (apply Z.div_pos; lia).
    assert (size0 labels / batch_size < 2)
      by (apply Z.div_lt_upper_bound; lia).
    lia.
  - intros t. unfold __iter__. rewrite gen_sample_array_relays. reflexivity.
  - cbn [n_splits]. intros -> t. unfold __iter__.
    rewrite gen_sample_array_relays. cbv zeta. cbn [n_splits class_vector].
    unfold sklearn.split. destruct labels as [ | v0 y0 ] eqn:Ey.
    + eexists. reflexivity.
    + rewrite <- Ey. unfold ok. cbv beta iota. unfold sklearn.next.
      destruct (sklearn.prepare _ _ _) as [ e | p ]; [ eexists; reflexivity | ].
      cbn [sklearn.n_splits]. simpl Z.to_nat. unfold sklearn.resume.
      eexists. reflexivity.
Qed.

(** Eight labels: batch size 5 gives [n_splits = 1], batch size 32 gives
    [n_splits = 0], and then every pass ends in [StopIteration]. *)
Lemma degenerate_n_splits_unguarded_witness :
  exists self,
    __init__ [0; 0; 0; 0; 1; 1; 1; 1] 5 = ok self
    /\ n_splits self = 1
    /\ __init__ [0; 0; 0; 0; 1; 1; 1; 1] 32
       = ok {| n_splits := 0; class_vector := [0; 0; 0; 0; 1; 1; 1; 1] |}
    /\ forall t,
         __iter__ {| n_splits := 0; class_vector := [0; 0; 0; 0; 1; 1; 1; 1] |} t
         = (raise StopIteration, t).
Proof.
  destruct (degenerate_n_splits_unguarded [0; 0; 0; 0; 1; 1; 1; 1] 5)
    as (self & E & _ & Hn & _); [ vm_compute; reflexivity | ].
  exists self. split; [ exact E | ].
  split; [ destruct (Hn ltac:(vm_compute; reflexivity)) as [-> _]; reflexivity | ].
  split; [ reflexivity | intros t; reflexivity ].
Defined.

(** C9 as stated fails: with 2^54 + 1 labels and batch size 2^53 + 1, so
    that [N < 2 * B] and [floor(N / B) = 1], the quotient 2 - 1/(2^53 + 1)
    rounds to the float 2, and the constructor stores [n_splits = 2]. *)
Lemma degenerate_n_splits_rounds_to_two :
  size0 long_vector = 18014398509481985
  /\ size0 long_vector < 2 * 9007199254740993
  /\ 18014398509481985 / 9007199254740993 = 1
  /\ __init__ long_vector 9007199254740993
     = ok {| n_splits := 2; class_vector := long_vector |}.
Proof.
  assert (Hs : size0 long_vector = 18014398509481985).
  { unfold size0, long_vector. rewrite repeat_length, Z2Nat.id by lia. reflexivity. }
  split; [ exact Hs | ]. split; [ rewrite Hs; lia | ]. split; [ reflexivity | ].
  unfold __init__. rewrite Hs.
  assert (E : truediv 18014398509481985 9007199254740993
              = ok (S754_finite false 4503599627370496 (-51)))
    by (vm_compute; reflexivity).
  rewrite E. reflexivity.
Qed.

(* ------------------------------------------------------------------ *)
(** *** Faults pass through the script *)

Section Relay.

Context {Ob : Objects} (ext : doubles Ob).















End Relay.




Section ObjectiveFaults.

Context {Ob : Objects} (ext : doubles Ob).





End ObjectiveFaults.

(* ------------------------------------------------------------------ *)
(** *** The calls of one evaluation of the objective *)

Ltac unfold_script H :=
  unfold objective, suggest_int, suggest_categorical, suggest_loguniform,
    bind, external, print, lift, set_param, ret, ok, raise in H;
  cbn [app] in H.

(** Case analysis on the next answer the script waits for. *)
Ltac step H :=
  match type of H with
  | context [match ?f ?ext ?h with inl _ => _ | inr _ => _ end] =>
      let E := fresh "E" in
      destruct (f ext h) eqn:E; cbn [app] in H
  | context [match first ?l with inl _ => _ | inr _ => _ end] =>
      let E := fresh "E" in
      destruct (first l) eqn:E; cbn [app] in H
  end.

(** Only the run in which every answer is a value. *)
Ltac steps_ok H := repeat (step H; [ discriminate H | ]).

Lemma first_ok {A} (l : list A) (a : A) :
  first l = inr a -> exists rest, l = a :: rest.
Proof.
  destruct l as [ | b rest ]; simpl; intros H; [ discriminate | ].
  injection H as ->. exists rest. reflexivity.
Qed.

Section Trace.

Context {Ob : Objects} (ext : doubles Ob).

(** An evaluation that returns has made these calls, in this order, and
    returns the [test_f1] entry of the first test result. *)
Lemma objective_ok (trial : nat) (h : list (call Ob)) (st st' : dict)
  (v : float) (out : list (call Ob)) :
  objective ext trial h st = (ok v, out, st') ->
  exists n_dims batch_size lr data train_dataset val_dataset test_dataset
         class_vector sampler train_loader val_loader test_loader model
         f1_check logger trainer first_result rest,
    __init__ class_vector batch_size = ok sampler
    /\ out =
       [call_suggest_int trial "n_dims" 768 4608 true;
        call_suggest_categorical trial "batch_size" [32; 64; 128];
        call_suggest_loguniform trial "lr" 1e-5 1e-3;
        call_print (VDict [("n_dims", VInt n_dims);
                           ("batch_size", VInt batch_size);
                           ("lr", VFloat lr)]%string);
        call_load_and_split_data;
        call_EmbeddingDataset (train_df1 data) (train_df2 data) (train_target data);
        call_EmbeddingDataset (val_df1 data) (val_df2 data) (val_target data);
        call_EmbeddingDataset (test_df1 data) (test_df2 data) (test_target data);
        call_torch_tensor (train_target data);
        call_DataLoader train_dataset batch_size (Some sampler);
        call_DataLoader val_dataset batch_size None;
        call_DataLoader test_dataset batch_size None;
        call_SimilarityModel 1536 n_dims 0.5 lr;
        call_ModelCheckpoint "val_f1" "checkpoints_stratified"
          (("similarity-model-" ++ str_of_int n_dims ++ "-" ++ str_of_int batch_size)
             ++ "-{epoch:02d}-{val_loss:.2f}-{val_recall:.2f}-{val_f1:.2f}")
          1 "max";
        call_TensorBoardLogger "tb_stratified"
          ("similarity-model-" ++ str_of_int n_dims ++ "-" ++ str_of_int batch_size);
        call_log_hyperparams logger
          [("embedding_size", VInt 1536);
           ("dropout_fraction", VFloat 0.5);
           ("batch_size", VInt batch_size);
           ("lr", VFloat lr);
           ("n_dims", VInt n_dims)]%string;
        call_Trainer 400 logger [f1_check];
        call_fit trainer model train_loader val_loader;
        call_test trainer model test_loader;
        call_print (VKeys (map fst first_result))]
    /\ trainer_test ext (h ++ removelast out) = ok (first_result :: rest)
    /\ getitem first_result "test_f1" = ok v
    /\ st' = dict_set (dict_set (dict_set st "n_dims" (VInt n_dims))
                         "batch_size" (VInt batch_size)) "lr" (VFloat lr).
Proof.
  intros H. unfold_script H. steps_ok H.
  injection H as <- <- <-.
  match goal with
  | E : first ?l = inr ?m |- _ =>
      apply first_ok in E; destruct E as [rest ->]
  end.
  repeat rewrite <- app_assoc in *. cbn [app] in *.
  repeat eexists; try eassumption.
Qed.

End Trace.

(** Case analysis along the whole script: every way an evaluation can end. *)
Ltac step_all :=
  match goal with
  | H : context [match ?f ?e ?h with inl _ => _ | inr _ => _ end] |- _ =>
      let E := fresh "E" in
      destruct (f e h) eqn:E; cbn [app] in H;
      try (injection H as <- <- <-)
  end.

Ltac in_cases H :=
  cbn [In] in H;
  repeat (destruct H as [H | H]; [ try discriminate H | ]);
  try contradiction.

Section TraceAll.

Context {Ob : Objects} (ext : doubles Ob).

Lemma objective_suggestions (trial : nat) (h : list (call Ob)) (st st' : dict)
  (r : result float) (out : list (call Ob)) :
  objective ext trial h st = (r, out, st') ->
  (exists k, (1 <= k <= 3)%nat
     /\ filter is_suggestion out = firstn k (the_suggestions trial)
     /\ firstn k out = firstn k (the_suggestions trial))
  /\ (forall embedding_size n_dims dropout_fraction lr,
        In (call_SimilarityModel embedding_size n_dims dropout_fraction lr) out ->
        embedding_size = 1536 /\ dropout_fraction = 0.5%float).
Proof.
  intros H. unfold_script H. repeat step_all.
  all: split;
    [ first [ exists 1%nat; split; [ lia | split; reflexivity ]
            | exists 2%nat; split; [ lia | split; reflexivity ]
            | exists 3%nat; split; [ lia | split; reflexivity ] ]
    | intros ? ? ? ? Hin; in_cases Hin;
      injection Hin as <- _ <- _; split; reflexivity ].
Qed.

Lemma objective_calls (trial : nat) (h : list (call Ob)) (st st' : dict)
  (r : result float) (out : list (call Ob)) :
  objective ext trial h st = (r, out, st') ->
  (forall items, In (call_print (VDict items)) out ->
     map fst items = ["n_dims"; "batch_size"; "lr"]%string)
  /\ (forall logger params, In (call_log_hyperparams logger params) out ->
        map fst params
        = ["embedding_size"; "dropout_fraction"; "batch_size"; "lr"; "n_dims"]%string)
  /\ filter is_summary out = []
  /\ (forall max_epochs logger callbacks,
        In (call_Trainer max_epochs logger callbacks) out -> max_epochs = 400)
  /\ (length (filter is_fit out) <= 1)%nat
  /\ (length (filter is_test out) <= 1)%nat.
Proof.
  intros H. unfold_script H. repeat step_all.
  all: split;
    [ intros ? Hin; in_cases Hin; injection Hin as <-; reflexivity | ].
  all: split;
    [ intros ? ? Hin; in_cases Hin; injection Hin as _ <-; reflexivity | ].
  all: split; [ reflexivity | ].
  all: split;
    [ intros ? ? ? Hin; in_cases Hin; injection Hin as <- _ _; reflexivity | ].
  all: split; cbn [filter is_fit is_test length]; lia.
Qed.

End TraceAll.

(* ------------------------------------------------------------------ *)
(** ** The trials of a study *)

Section Cooperative.

Context {Ob : Objects} (ext : doubles Ob).

(** With cooperative collaborators an evaluation returns. *)
Lemma objective_cooperative (trial : nat) (h : list (call Ob)) (st : dict) :
  cooperative ext ->
  exists v out st',
    objective ext trial h st = (ok v, out, st') /\ is_nan v = false.
Proof.
  intros Hc.
  unfold objective, suggest_int, suggest_categorical, suggest_loguniform,
    bind, external, print, lift, set_param, ret, ok, raise.
  cbn [app].
  repeat
    match goal with
    | |- context [trial_suggest_int ext ?h] =>
        destruct (coop_suggest_int Hc h) as (? & ->); unfold ok; cbn [app]
    | |- context [trial_suggest_categorical ext ?h] =>
        destruct (coop_suggest_categorical Hc h) as (? & -> & ?); unfold ok; cbn [app]
    | |- context [trial_suggest_loguniform ext ?h] =>
        destruct (coop_suggest_loguniform Hc h) as (? & ->); unfold ok; cbn [app]
    | |- context [load_and_split_data ext ?h] =>
        destruct (coop_load_and_split_data Hc h) as (? & ->); unfold ok; cbn [app]
    | |- context [EmbeddingDataset ext ?h] =>
        destruct (coop_EmbeddingDataset Hc h) as (? & ->); unfold ok; cbn [app]
    | |- context [torch_tensor ext ?h] =>
        destruct (coop_torch_tensor Hc h) as (? & -> & ?); unfold ok; cbn [app]
    | |- context [__init__ ?cv ?b] =>
        rewrite (init_floor cv b) by (try assumption;
          match goal with
          | H : In b _ |- _ => cbn [In] in H; lia
          end); unfold ok; cbn [app]
    | |- context [DataLoader ext ?h] =>
        destruct (coop_DataLoader Hc h) as (? & ->); unfold ok; cbn [app]
    | |- context [SimilarityModel ext ?h] =>
        destruct (coop_SimilarityModel Hc h) as (? & ->); unfold ok; cbn [app]
    | |- context [ModelCheckpoint ext ?h] =>
        destruct (coop_ModelCheckpoint Hc h) as (? & ->); unfold ok; cbn [app]
    | |- context [TensorBoardLogger ext ?h] =>
        destruct (coop_TensorBoardLogger Hc h) as (? & ->); unfold ok; cbn [app]
    | |- context [log_hyperparams ext ?h] =>
        rewrite (coop_log_hyperparams Hc h); unfold ok; cbn [app]
    | |- context [pl_Trainer ext ?h] =>
        destruct (coop_pl_Trainer Hc h) as (? & ->); unfold ok; cbn [app]
    | |- context [trainer_fit ext ?h] =>
        rewrite (coop_trainer_fit Hc h); unfold ok; cbn [app]
    | |- context [trainer_test ext ?h] =>
        let E := fresh "E" in
        let N := fresh "N" in
        destruct (coop_trainer_test Hc h) as (? & ? & ? & -> & E & N);
        unfold ok; cbn [app first]; unfold ok; cbn [app];
        rewrite E; unfold ok; cbn [app]
    end.
  eexists. eexists. eexists. split; [ reflexivity | assumption ].
Qed.

End Cooperative.

(** *** The study *)

Lemma trials_started_app {Ob} (l1 l2 : list (call Ob)) :
  trials_started (l1 ++ l2) = trials_started l1 ++ trials_started l2.
Proof. unfold trials_started. apply flat_map_app. Qed.

Section Study.

Context {Ob : Objects} (ext : doubles Ob).

(** One round of [optimize]. *)
Lemma optimize_step (study : Study) (func : nat -> M Ob float) (n : nat)
  (h : list (call Ob)) (st : dict) :
  optimize study func (S n) h st =
  match func (List.length (trials study)) h [] with
  | (inl e, out, st') => (raise e, out, st')
  | (inr v, out, st') =>
      match optimize
              {| direction := direction study;
                 trials := trials study
                   ++ [{| number := List.length (trials study);
                          value := if is_nan v then None else Some v;
                          params := st' |}] |}
              func n (h ++ out) st' with
      | (r, out', st'') => (r, out ++ out', st'')
      end
  end.
Proof.
  cbn [optimize]. unfold bind, new_trial, get_params, ok, raise. cbn [app].
  rewrite ?app_nil_r.
  destruct (func (List.length (trials study)) h []) as [[[ e | v ] out] st'];
    [ reflexivity | ].
  rewrite ?app_nil_r.
  match goal with
  | |- context [optimize ?s func n ?hh ?ss] =>
      destruct (optimize s func n hh ss) as [[r out'] st'']
  end.
  reflexivity.
Qed.

Lemma optimize_ok (n : nat) : forall (study study' : Study)
  (h out : list (call Ob)) (st st' : dict),
  optimize study (objective ext) n h st = (ok study', out, st') ->
  direction study' = direction study
  /\ List.length (trials study') = (List.length (trials study) + n)%nat
  /\ trials_started out = seq (List.length (trials study)) n
  /\ filter is_summary out = [].
Proof.
  induction n as [ | n IH ]; intros study study' h out st st' H.
  - cbn [optimize] in H. unfold ret, ok in H. injection H as <- <- <-.
    rewrite Nat.add_0_r. repeat split; reflexivity.
  - rewrite optimize_step in H.
    destruct (objective ext (List.length (trials study)) h [])
      as [[[ e | v ] out1] st1] eqn:Eo; [ discriminate | ].
    destruct (optimize _ (objective ext) n (h ++ out1) st1)
      as [[r out2] st2] eqn:Er.
    injection H as -> <- <-.
    destruct (IH _ _ _ _ _ _ Er) as (I1 & I2 & I3 & I4).
    cbn [direction trials] in I1, I2, I3. rewrite length_app in I2, I3.
    cbn [List.length] in I2, I3.
    destruct (objective_ok ext _ _ _ _ _ _ Eo)
      as (? & ? & ? & ? & ? & ? & ? & ? & ? & ? & ? & ? & ? & ? & ? & ? & ? & ?
          & _ & Hout & _).
    split; [ exact I1 | ]. split; [ lia | ].
    rewrite trials_started_app, filter_app, I3, I4, Hout.
    split; [ | reflexivity ].
    cbn [trials_started flat_map app seq]. f_equal. f_equal. lia.
Qed.


Lemma optimize_cooperative (n : nat) :
  cooperative ext ->
  forall (study : Study) (h : list (call Ob)) (st : dict),
    Forall completed (trials study) ->
    exists study' out st',
      optimize study (objective ext) n h st = (ok study', out, st')
      /\ Forall completed (trials study').
Proof.
  intros Hc. induction n as [ | n IH ]; intros study h st Hall.
  - exists study, [], st. split; [ reflexivity | exact Hall ].
  - rewrite optimize_step.
    destruct (objective_cooperative ext (List.length (trials study)) h [] Hc)
      as (v & out1 & st1 & Eo & Hnan).
    rewrite Eo. unfold ok. rewrite Hnan.
    edestruct IH as (study' & out2 & st2 & Er & Hall').
    2: { rewrite Er. exists study', (out1 ++ out2), st2.
         split; [ reflexivity | exact Hall' ]. }
    cbn [trials]. apply Forall_app. split; [ exact Hall | ].
    constructor; [ | constructor ]. unfold completed. cbn [value]. discriminate.
Qed.

Lemma best_of_kept (direction : string) (l : list FrozenTrial) :
  forall b, best_of direction (Some b) l <> None.
Proof.
  induction l as [ | t l IH ]; intros b; cbn [best_of]; [ discriminate | ].
  destruct (value t) as [ v | ]; [ | apply IH ].
  destruct (value b) as [ w | ]; [ | apply IH ].
  destruct (better direction v w); apply IH.
Qed.

Lemma best_trial_exists (study : Study) :
  trials study <> [] -> Forall completed (trials study) ->
  exists best, best_trial study = ok best.
Proof.
  intros Hne Hall. unfold best_trial.
  destruct (trials study) as [ | t l ]; [ congruence | ].
  inversion Hall as [ | ? ? Ht _ ]; subst. unfold completed in Ht.
  cbn [best_of]. destruct (value t) as [ v | ]; [ | congruence ].
  pose proof (best_of_kept (direction study) l t) as Hb.
  destruct (best_of (direction study) (Some t) l) as [ best | ]; [ | congruence ].
  exists best. reflexivity.
Qed.

End Study.

(* ------------------------------------------------------------------ *)
(** ** The objective and the run of the script *)

Section Driver.

Context {Ob : Objects} (ext : doubles Ob).

Lemma run_main :
  run (main ext) =
  match optimize {| direction := "maximize"; trials := [] |} (objective ext) 20 [] [] with
  | (inl e, out, _) => (raise e, out)
  | (inr study, out, _) =>
      match best_trial study with
      | inl e => (raise e, out ++ firstn 2 (summary study {| number := 0; value := None; params := [] |}))
      | inr best => (ok tt, out ++ summary study best)
      end
  end.
Proof.
  unfold run, main.
  change (create_study "maximize") with (ok {| direction := "maximize"; trials := [] |}).
  unfold bind, lift, print, ok, raise. cbn [app].
  destruct (optimize _ (objective ext) 20 [] []) as [[[ e | study ] out] st'];
    [ reflexivity | ].
  destruct (best_trial study) as [ e | best ]; reflexivity.
Qed.

End Driver.

(** C5.  Every evaluation asks the trial for [n_dims] as an integer
    log-uniform in [[768, 4608]], then for [batch_size] among 32, 64 and
    128, then for [lr] log-uniform in [[1e-5, 1e-3]], in that order and
    before anything else; it asks for nothing more, and an evaluation that
    returns has asked for all three.  [embedding_size = 1536] and
    [dropout_fraction = 0.5] are never asked for: the model is built with
    these two values. *)
Theorem objective_search_space {Ob : Objects} (ext : doubles Ob) (trial : nat)
  (h out : list (call Ob)) (st st' : dict) (r : result float) :
  objective ext trial h st = (r, out, st') ->
  let space : list (call Ob) :=
    [call_suggest_int trial "n_dims" 768 4608 true;
     call_suggest_categorical trial "batch_size" [32; 64; 128];
     call_suggest_loguniform trial "lr" 1e-5 1e-3] in
  (exists k, (1 <= k <= 3)%nat
     /\ filter is_suggestion out = firstn k space
     /\ firstn k out = firstn k space)
  /\ (forall v, r = ok v -> filter is_suggestion out = space)
  /\ (forall embedding_size n_dims dropout_fraction lr,
        In (call_SimilarityModel embedding_size n_dims dropout_fraction lr) out ->
        embedding_size = 1536 /\ dropout_fraction = 0.5%float).
Proof.
  intros H space.
  destruct (objective_suggestions ext _ _ _ _ _ _ H) as [Hk Hm].
  split; [ exact Hk | ]. split; [ | exact Hm ].
  intros v ->.
  destruct (objective_ok ext _ _ _ _ _ _ H)
    as (? & ? & ? & ? & ? & ? & ? & ? & ? & ? & ? & ? & ? & ? & ? & ? & ? & ?
        & _ & -> & _).
  reflexivity.
Qed.

(** The evaluation of trial 0 against the concrete doubles. *)
Lemma objective_search_space_witness :
  exists out st',
    objective stub 0 [] [] = (ok 0.75%float, out, st')
    /\ filter is_suggestion out =
       [call_suggest_int 0 "n_dims" 768 4608 true;
        call_suggest_categorical 0 "batch_size" [32; 64; 128];
        call_suggest_loguniform 0 "lr" 1e-5 1e-3]
    /\ In (call_SimilarityModel 1536 1536 0.5 1e-4) out.
Proof.
  destruct (objective stub 0 [] []) as [[r out] st'] eqn:E.
  pose proof (objective_search_space stub 0 [] out [] st' r E) as (_ & Hall & _).
  vm_compute in E. injection E as <- <- <-.
  eexists. eexists. split; [ reflexivity | ].
  split; [ exact (Hall _ eq_refl) | ].
  cbn [In]. do 12 right. left. reflexivity.
Defined.

(** C6.  An evaluation that returns has built one trainer, with
    [max_epochs = 400], called [fit] once, then [test] once, and returns the
    entry [test_f1] of the first mapping [test] answered; and with
    cooperative collaborators an evaluation does return.  No evaluation
    calls [fit] or [test] twice, or builds a trainer with another bound. *)
Theorem objective_trains_once_returns_test_f1 {Ob : Objects} (ext : doubles Ob)
  (trial : nat) (h : list (call Ob)) (st : dict) :
  (forall v out st',
     objective ext trial h st = (ok v, out, st') ->
     exists logger f1_check trainer model train_loader val_loader test_loader
            first_result rest,
       filter is_engine_call out =
         [call_Trainer 400 logger [f1_check];
          call_fit trainer model train_loader val_loader;
          call_test trainer model test_loader]
       /\ trainer_test ext (h ++ removelast out) = ok (first_result :: rest)
       /\ getitem first_result "test_f1" = ok v)
  /\ (forall r out st',
        objective ext trial h st = (r, out, st') ->
        (List.length (filter is_fit out) <= 1)%nat
        /\ (List.length (filter is_test out) <= 1)%nat
        /\ forall max_epochs logger callbacks,
             In (call_Trainer max_epochs logger callbacks) out -> max_epochs = 400)
  /\ (cooperative ext ->
      exists v out st', objective ext trial h st = (ok v, out, st')).
Proof.
  split; [ | split ].
  - intros v out st' H.
    destruct (objective_ok ext _ _ _ _ _ _ H)
      as (n_dims & batch_size & lr & data & train_dataset & val_dataset
          & test_dataset & class_vector & sampler & train_loader & val_loader
          & test_loader & model & f1_check & logger & trainer & first_result
          & rest & _ & Hout & Htest & Hget & _).
    exists logger, f1_check, trainer, model, train_loader, val_loader,
      test_loader, first_result, rest.
    split; [ rewrite Hout; reflexivity | ]. split; [ exact Htest | exact Hget ].
  - intros r out st' H.
    destruct (objective_calls ext _ _ _ _ _ _ H) as (_ & _ & _ & Ht & Hf & Hte).
    split; [ exact Hf | ]. split; [ exact Hte | exact Ht ].
  - intros Hc.
    destruct (objective_cooperative ext trial h st Hc) as (v & out & st' & E & _).
    exists v, out, st'. exact E.
Qed.

Lemma stub_cooperative : cooperative stub.
Proof.
  constructor; intros h; try reflexivity; try (eexists; reflexivity).
  - exists 32. split; [ reflexivity | cbn [In]; tauto ].
  - eexists. split; [ reflexivity | vm_compute; reflexivity ].
  - do 3 eexists. split; [ reflexivity | split; reflexivity ].
Qed.

(** Trial 0 against the concrete doubles returns 0.75, the [test_f1] of the
    one mapping reported. *)
Lemma objective_trains_once_returns_test_f1_witness :
  exists out st',
    objective stub 0 [] [] = (ok 0.75%float, out, st')
    /\ filter is_engine_call out =
       [@call_Trainer tokens 400 tt [tt]; @call_fit tokens tt tt tt tt;
        @call_test tokens tt tt tt].
Proof.
  destruct (objective_trains_once_returns_test_f1 stub 0 [] []) as (_ & _ & Hex).
  destruct (Hex stub_cooperative) as (v & out & st' & E).
  vm_compute in E. injection E as <- <- <-.
  eexists. eexists. split; reflexivity.
Defined.

(** C7.  A run of the script that ends without a fault has created the
    study with direction [maximize], evaluated the objective for the trials
    0 to 19, once each and whatever the values returned, printed nothing of
    the summary before the last trial was over, and then printed, in this
    order, the number of trials of the study (20), the line [Best trial:],
    the value of the study's best trial and its parameters.  With
    cooperative collaborators the run does end without a fault. *)
Theorem search_runs_twenty_trials {Ob : Objects} (ext : doubles Ob) :
  (forall out,
     run (main ext) = (ok tt, out) ->
     exists study body st' best,
       optimize {| direction := "maximize"; trials := [] |} (objective ext) 20
         [] [] = (ok study, body, st')
       /\ direction study = "maximize"%string
       /\ List.length (trials study) = 20%nat
       /\ trials_started body = seq 0 20
       /\ filter is_summary body = []
       /\ best_trial study = ok best
       /\ out = body
            ++ [call_print (VFString [VStr "Number of finished trials: "; VInt 20]);
                call_print (VFString [VStr "Best trial:"]);
                call_print (VFString [VStr "  Value: "; value_repr (value best)]);
                call_print (VFString [VStr "  Params: "; VDict (params best)])])
  /\ (cooperative ext -> exists out, run (main ext) = (ok tt, out)).
Proof.
  split.
  - intros out H. rewrite run_main in H.
    destruct (optimize _ (objective ext) 20 [] []) as [[[ e | study ] body] st'] eqn:Eo;
      [ discriminate | ].
    destruct (best_trial study) as [ e | best ] eqn:Eb; [ discriminate | ].
    injection H as <-.
    destruct (optimize_ok ext 20 _ _ _ _ _ _ Eo) as (H1 & H2 & H3 & H4).
    cbn [direction trials List.length Nat.add] in H1, H2, H3.
    exists study, body, st', best.
    split; [ reflexivity | ]. split; [ exact H1 | ]. split; [ exact H2 | ].
    split; [ exact H3 | ]. split; [ exact H4 | ]. split; [ exact Eb | ].
    unfold summary. rewrite H2. reflexivity.
  - intros Hc. rewrite run_main.
    destruct (optimize_cooperative ext 20 Hc {| direction := "maximize"; trials := [] |}
                [] [] (Forall_nil _)) as (study & body & st' & Eo & Hall).
    rewrite Eo. unfold ok at 1. cbv beta iota.
    destruct (optimize_ok ext 20 _ _ _ _ _ _ Eo) as (_ & H2 & _).
    destruct (best_trial_exists study) as (best & Eb).
    + intros E. rewrite E in H2. discriminate.
    + exact Hall.
    + rewrite Eb. eexists. reflexivity.
Qed.

(** The whole run against the concrete doubles: 400 calls for the 20
    trials, then the four lines of the summary. *)
Lemma search_runs_twenty_trials_witness :
  exists out,
    run (main stub) = (ok tt, out)
    /\ trials_started out = seq 0 20
    /\ skipn 400 out =
       [call_print (VFString [VStr "Number of finished trials: "; VInt 20]);
        call_print (VFString [VStr "Best trial:"]);
        call_print (VFString [VStr "  Value: "; VFloat 0.75]);
        call_print
          (VFString [VStr "  Params: ";
                     VDict [("n_dims", VInt 1536); ("batch_size", VInt 32);
                            ("lr", VFloat 1e-4)]%string])].
Proof.
  destruct (search_runs_twenty_trials stub) as [_ Hex].
  destruct (Hex stub_cooperative) as (out & E).
  vm_compute in E. injection E as <-.
  eexists. split; [ vm_compute; reflexivity | ].
  split; vm_compute; reflexivity.
Defined.






(** C10.  In every evaluation, a dictionary printed has exactly the keys
    [n_dims], [batch_size] and [lr], and a mapping handed to the logger has
    exactly the keys [embedding_size], [dropout_fraction], [batch_size],
    [lr] and [n_dims]; an evaluation that returns has printed one such
    dictionary (and, after the test run, the keys of the first result) and
    logged one such mapping, both with the values sampled for the trial and,
    in the logged one, the two constants. *)
Theorem objective_printed_and_logged_keys {Ob : Objects} (ext : doubles Ob)
  (trial : nat) (h out : list (call Ob)) (st st' : dict) (r : result float) :
  objective ext trial h st = (r, out, st') ->
  (forall items,
     In (call_print (VDict items)) out ->
     map fst items = ["n_dims"; "batch_size"; "lr"]%string)
  /\ (forall logger params,
        In (call_log_hyperparams logger params) out ->
        map fst params
        = ["embedding_size"; "dropout_fraction"; "batch_size"; "lr";
           "n_dims"]%string)
  /\ (forall v, r = ok v ->
      exists n_dims batch_size lr logger keys,
        filter is_print out =
          [call_print (VDict [("n_dims", VInt n_dims);
                              ("batch_size", VInt batch_size);
                              ("lr", VFloat lr)]%string);
           call_print (VKeys keys)]
        /\ filter is_log_hyperparams out =
          [call_log_hyperparams logger
             [("embedding_size", VInt 1536);
              ("dropout_fraction", VFloat 0.5);
              ("batch_size", VInt batch_size);
              ("lr", VFloat lr);
              ("n_dims", VInt n_dims)]%string]
        /\ st' = dict_set (dict_set (dict_set st "n_dims" (VInt n_dims))
                             "batch_size" (VInt batch_size)) "lr" (VFloat lr)).
Proof.
  intros H.
  destruct (objective_calls ext _ _ _ _ _ _ H) as (Hp & Hl & _).
  split; [ exact Hp | ]. split; [ exact Hl | ].
  intros v ->.
  destruct (objective_ok ext _ _ _ _ _ _ H)
    as (n_dims & batch_size & lr & data & train_dataset & val_dataset
        & test_dataset & class_vector & sampler & train_loader & val_loader
        & test_loader & model & f1_check & logger & trainer & first_result
        & rest & _ & -> & _ & _ & ->).
  exists n_dims, batch_size, lr, logger, (map fst first_result).
  split; [ reflexivity | ]. split; reflexivity.
Qed.

(** What trial 0 prints against the concrete doubles. *)
Lemma objective_printed_and_logged_keys_witness :
  exists out st',
    objective stub 0 [] [] = (ok 0.75%float, out, st')
    /\ filter is_print out =
       [call_print (VDict [("n_dims", VInt 1536); ("batch_size", VInt 32);
                           ("lr", VFloat 1e-4)]%string);
        call_print (VKeys ["test_loss"; "test_f1"]%string)]
    /\ (forall logger params,
          In (call_log_hyperparams logger params) out ->
          map fst params
          = ["embedding_size"; "dropout_fraction"; "batch_size"; "lr";
             "n_dims"]%string).
Proof.
  destruct (objective stub 0 [] []) as [[r out] st'] eqn:E.
  pose proof (objective_printed_and_logged_keys stub 0 [] out [] st' r E)
    as (_ & Hl & _).
  vm_compute in E. injection E as <- <- <-.
  eexists. eexists. split; [ reflexivity | ].
  split; [ reflexivity | exact Hl ].
Defined.

(* ------------------------------------------------------------------ *)
(** ** Further properties of the sampler *)

(** *** When a pass returns *)








(** *** The constructor on a batch size that is not positive *)

(** The sign of a quotient is set aside while it is rounded. *)
Lemma binary_round_aux_opp (m e : Z) (l : location) :
  binary_round_aux prec emax true m e l
  = SFopp (binary_round_aux prec emax false m e l).
Proof.
  unfold binary_round_aux.
  destruct (shr_fexp prec emax m e l) as [mrs' e'].
  destruct (shr_fexp prec emax _ e' loc_Exact) as [mrs'' e''].
  destruct (shr_m mrs''); [ reflexivity | | reflexivity ].
  destruct (e'' <=? emax - prec); reflexivity.
Qed.

Lemma truediv_opp (N B : Z) (q : spec_float) :
  0 <= N -> 0 < B ->
  truediv N B = ok q -> truediv N (- B) = ok (SFopp q).
Proof.
  intros HN HB. unfold truediv.
  destruct B as [ | b | b ]; try lia. cbn [Z.opp Z.eqb int_as_float].
  destruct N as [ | n | n ]; try lia; cbn [int_as_float SFdiv xorb].
  - intros H. injection H as <-. reflexivity.
  - destruct (SFdiv_core_binary prec emax (Z.pos n) 0 (Z.pos b) 0) as [[mz ez] lz].
    rewrite binary_round_aux_opp.
    destruct (binary_round_aux prec emax false mz ez lz);
      intros H; try discriminate H; injection H as <-; reflexivity.
Qed.

Lemma int_of_float_opp (q : spec_float) (n : Z) :
  int_of_float q = ok n -> int_of_float (SFopp q) = ok (- n).
Proof.
  destruct q as [ s | s | | s m e ]; cbn [int_of_float SFopp];
    intros H; try discriminate H; injection H as <-.
  - reflexivity.
  - destruct s; cbn [negb]; unfold ok; f_equal; lia.
Qed.

(** [int(N / B)] truncates towards zero. *)
Lemma init_quot (labels : tensor) (batch_size : Z) :
  size0 labels < 2 ^ 53 -> batch_size <> 0 ->
  __init__ labels batch_size
  = ok {| n_splits := Z.quot (size0 labels) batch_size;
          class_vector := labels |}.
Proof.
  intros HN HB.
  assert (H0 : 0 <= size0 labels) by (unfold size0; lia).
  destruct (Z_lt_le_dec 0 batch_size) as [ Hpos | Hneg ].
  - rewrite init_floor by assumption.
    rewrite Z.quot_div_nonneg by lia. reflexivity.
  - destruct (truediv_floor (size0 labels) (- batch_size)) as (q & E1 & E2);
      [ lia | lia | ].
    apply truediv_opp in E1; [ | lia | lia ]. rewrite Z.opp_involutive in E1.
    apply int_of_float_opp in E2.
    unfold __init__. unfold ok in *. rewrite E1. cbv beta iota. rewrite E2.
    replace (Z.quot (size0 labels) batch_size)
      with (- (size0 labels / - batch_size)); [ reflexivity | ].
    rewrite <- (Z.opp_involutive batch_size) at 2.
    rewrite Z.quot_opp_r by lia. rewrite Z.quot_div_nonneg by lia. reflexivity.
Qed.

(** Without a round to run, a pass ends in a fault. *)
Lemma iterate_no_round (self : StratifiedSampler) (t : np.rng) :
  n_splits self <= 0 -> exists e, __iter__ self t = (raise e, t).
Proof.
  intros Hn. unfold __iter__. rewrite gen_sample_array_relays. cbv zeta.
  unfold sklearn.split. destruct (class_vector self) as [ | v0 y0 ] eqn:Ey.
  - eexists. reflexivity.
  - rewrite <- Ey. unfold ok. cbv beta iota. unfold sklearn.next.
    destruct (sklearn.prepare _ _ _) as [ e | p ]; [ eexists; reflexivity | ].
    cbn [sklearn.n_splits]. replace (Z.to_nat (n_splits self)) with O by lia.
    eexists. reflexivity.
Qed.

(** X3.  The constructor checks nothing about the batch size.  A batch size
    of 0 raises [ZeroDivisionError], for any labels.  Any other batch size,
    negative ones included, builds a sampler: for fewer than 2^53 labels its
    [n_splits] is the quotient truncated towards zero, which for a negative
    batch size is not positive, and no pass of such a sampler returns. *)
Theorem init_batch_size_unchecked (labels : tensor) (batch_size : Z) :
  (batch_size = 0 -> __init__ labels batch_size = raise ZeroDivisionError)
  /\ (batch_size <> 0 -> size0 labels < 2 ^ 53 ->
      exists self,
        __init__ labels batch_size = ok self
        /\ class_vector self = labels
        /\ n_splits self = Z.quot (size0 labels) batch_size
        /\ (batch_size < 0 ->
            n_splits self <= 0
            /\ forall t, exists e, __iter__ self t = (raise e, t))).
Proof.
  split.
  - intros ->. reflexivity.
  - intros HB HN. eexists. split; [ apply init_quot; assumption | ].
    split; [ reflexivity | ]. split; [ reflexivity | ].
    intros Hneg. cbn [n_splits].
    assert (H0 : 0 <= size0 labels) by (unfold size0; lia).
    assert (Hq : Z.quot (size0 labels) batch_size <= 0).
    { rewrite <- (Z.opp_involutive batch_size).
      rewrite Z.quot_opp_r by lia.
      pose proof (Z.quot_pos (size0 labels) (- batch_size) H0 ltac:(lia)). lia. }
    split; [ exact Hq | ].
    intros t. apply iterate_no_round. exact Hq.
Qed.

(** Eight labels and batch size -3: [n_splits] is -2, not the floor -3. *)
Lemma init_batch_size_unchecked_witness :
  exists self,
    __init__ [0; 0; 0; 0; 1; 1; 1; 1] (-3) = ok self
    /\ n_splits self = -2
    /\ 8 / -3 = -3.
Proof.
  destruct (init_batch_size_unchecked [0; 0; 0; 0; 1; 1; 1; 1] (-3)) as [_ H].
  destruct H as (self & E & _ & Hn & _); [ lia | vm_compute; reflexivity | ].
  exists self. split; [ exact E | ].
  split; [ rewrite Hn; reflexivity | reflexivity ].
Defined.

(** *** The classes of the two halves *)






















(* ------------------------------------------------------------------ *)
(** ** Further properties of the objective *)

(** *** The objects an evaluation passes on *)

Section Answers.

Context {Ob : Objects} (ext : doubles Ob).

(** An evaluation that returns: every call with the answer it got. *)
Lemma objective_answers (trial : nat) (h : list (call Ob)) (st st' : dict)
  (v : float) (out : list (call Ob)) :
  objective ext trial h st = (ok v, out, st') ->
  exists n_dims batch_size lr data train_dataset val_dataset test_dataset
         class_vector sampler train_loader val_loader test_loader model
         f1_check logger trainer first_result rest,
    out =
       [call_suggest_int trial "n_dims" 768 4608 true;
        call_suggest_categorical trial "batch_size" [32; 64; 128];
        call_suggest_loguniform trial "lr" 1e-5 1e-3;
        call_print (VDict [("n_dims", VInt n_dims);
                           ("batch_size", VInt batch_size);
                           ("lr", VFloat lr)]%string);
        call_load_and_split_data;
        call_EmbeddingDataset (train_df1 data) (train_df2 data) (train_target data);
        call_EmbeddingDataset (val_df1 data) (val_df2 data) (val_target data);
        call_EmbeddingDataset (test_df1 data) (test_df2 data) (test_target data);
        call_torch_tensor (train_target data);
        call_DataLoader train_dataset batch_size (Some sampler);
        call_DataLoader val_dataset batch_size None;
        call_DataLoader test_dataset batch_size None;
        call_SimilarityModel 1536 n_dims 0.5 lr;
        call_ModelCheckpoint "val_f1" "checkpoints_stratified"
          (run_name n_dims batch_size
             ++ "-{epoch:02d}-{val_loss:.2f}-{val_recall:.2f}-{val_f1:.2f}")
          1 "max";
        call_TensorBoardLogger "tb_stratified" (run_name n_dims batch_size);
        call_log_hyperparams logger
          [("embedding_size", VInt 1536);
           ("dropout_fraction", VFloat 0.5);
           ("batch_size", VInt batch_size);
           ("lr", VFloat lr);
           ("n_dims", VInt n_dims)]%string;
        call_Trainer 400 logger [f1_check];
        call_fit trainer model train_loader val_loader;
        call_test trainer model test_loader;
        call_print (VKeys (map fst first_result))]
    /\ trial_suggest_int ext (h ++ firstn 1 out) = ok n_dims
    /\ trial_suggest_categorical ext (h ++ firstn 2 out) = ok batch_size
    /\ trial_suggest_loguniform ext (h ++ firstn 3 out) = ok lr
    /\ load_and_split_data ext (h ++ firstn 5 out) = ok data
    /\ EmbeddingDataset ext (h ++ firstn 6 out) = ok train_dataset
    /\ EmbeddingDataset ext (h ++ firstn 7 out) = ok val_dataset
    /\ EmbeddingDataset ext (h ++ firstn 8 out) = ok test_dataset
    /\ torch_tensor ext (h ++ firstn 9 out) = ok class_vector
    /\ __init__ class_vector batch_size = ok sampler
    /\ DataLoader ext (h ++ firstn 10 out) = ok train_loader
    /\ DataLoader ext (h ++ firstn 11 out) = ok val_loader
    /\ DataLoader ext (h ++ firstn 12 out) = ok test_loader
    /\ SimilarityModel ext (h ++ firstn 13 out) = ok model
    /\ ModelCheckpoint ext (h ++ firstn 14 out) = ok f1_check
    /\ TensorBoardLogger ext (h ++ firstn 15 out) = ok logger
    /\ log_hyperparams ext (h ++ firstn 16 out) = ok tt
    /\ pl_Trainer ext (h ++ firstn 17 out) = ok trainer
    /\ trainer_fit ext (h ++ firstn 18 out) = ok tt
    /\ trainer_test ext (h ++ firstn 19 out) = ok (first_result :: rest)
    /\ getitem first_result "test_f1" = ok v.
Proof.
  intros H. unfold_script H. steps_ok H.
  injection H as <- <- <-.
  match goal with
  | E : first ?l = inr ?m |- _ =>
      apply first_ok in E; destruct E as [rest ->]
  end.
  repeat rewrite <- app_assoc in *. cbn [app] in *.
  repeat match goal with u : unit |- _ => destruct u end.
  unfold run_name, ok. cbn [firstn].
  repeat eexists; try eassumption.
Qed.

End Answers.

(** X5.  An evaluation that returns has built its three datasets from the
    train, validation and test parts of the one split it loaded, and the
    label tensor from the train targets of that split; it has built three
    loaders, for these datasets in this order, all with the batch size
    suggested for the trial; only the first has a sampler, the
    [StratifiedSampler] of the label tensor and that batch size, whose
    length is the number of training labels. *)
Theorem objective_loaders {Ob : Objects} (ext : doubles Ob) (trial : nat)
  (h out : list (call Ob)) (st st' : dict) (v : float) :
  objective ext trial h st = (ok v, out, st') ->
  exists batch_size data class_vector sampler train_dataset val_dataset
         test_dataset,
    trial_suggest_categorical ext (h ++ firstn 2 out) = ok batch_size
    /\ load_and_split_data ext (h ++ firstn 5 out) = ok data
    /\ firstn 4 (skipn 5 out) =
         [call_EmbeddingDataset (train_df1 data) (train_df2 data) (train_target data);
          call_EmbeddingDataset (val_df1 data) (val_df2 data) (val_target data);
          call_EmbeddingDataset (test_df1 data) (test_df2 data) (test_target data);
          call_torch_tensor (train_target data)]
    /\ EmbeddingDataset ext (h ++ firstn 6 out) = ok train_dataset
    /\ EmbeddingDataset ext (h ++ firstn 7 out) = ok val_dataset
    /\ EmbeddingDataset ext (h ++ firstn 8 out) = ok test_dataset
    /\ torch_tensor ext (h ++ firstn 9 out) = ok class_vector
    /\ __init__ class_vector batch_size = ok sampler
    /\ __len__ sampler = size0 class_vector
    /\ filter is_DataLoader out =
         [call_DataLoader train_dataset batch_size (Some sampler);
          call_DataLoader val_dataset batch_size None;
          call_DataLoader test_dataset batch_size None].
Proof.
  intros H.
  destruct (objective_answers ext _ _ _ _ _ _ H)
    as (n_dims & batch_size & lr & data & train_dataset & val_dataset
        & test_dataset & class_vector & sampler & train_loader & val_loader
        & test_loader & model & f1_check & logger & trainer & first_result
        & rest & Hout & _ & Hb & _ & Hd & H1 & H2 & H3 & Ht & Hs & _).
  exists batch_size, data, class_vector, sampler, train_dataset, val_dataset,
    test_dataset.
  split; [ exact Hb | ]. split; [ exact Hd | ].
  split; [ rewrite Hout; reflexivity | ].
  split; [ exact H1 | ]. split; [ exact H2 | ]. split; [ exact H3 | ].
  split; [ exact Ht | ]. split; [ exact Hs | ].
  split; [ unfold __len__; rewrite (init_inv _ _ _ Hs); reflexivity | ].
  rewrite Hout. reflexivity.
Qed.

(** The concrete doubles: batch size 32 for all three loaders. *)
Lemma objective_loaders_witness :
  exists out st' sampler,
    objective stub 0 [] [] = (ok 0.75%float, out, st')
    /\ __init__ [0; 0; 0; 0; 1; 1; 1; 1] 32 = ok sampler
    /\ filter is_DataLoader out =
         [@call_DataLoader tokens tt 32 (Some sampler);
          @call_DataLoader tokens tt 32 None;
          @call_DataLoader tokens tt 32 None].
Proof.
  destruct (objective stub 0 [] []) as [[r out] st'] eqn:E.
  assert (Er : r = ok 0.75%float) by (vm_compute in E; injection E as <- _ _; reflexivity).
  subst r.
  destruct (objective_loaders stub 0 [] out [] st' _ E)
    as (b & d & cv & s & d1 & d2 & d3 & Hb & _ & _ & _ & _ & _ & Ht & Hs & _ & Hf).
  cbn in Hb, Ht. unfold ok in Hb, Ht. injection Hb as <-. injection Ht as <-.
  exists out, st', s. split; [ reflexivity | ]. split; [ exact Hs | ].
  destruct d1, d2, d3. exact Hf.
Defined.

(** X6.  An evaluation that returns hands to the trainer the logger that
    [TensorBoardLogger] answered and, as its only callback, the checkpoint
    callback that [ModelCheckpoint] answered; [fit] gets that trainer, the
    model [SimilarityModel] answered, and the first and second loader;
    [test] gets the same trainer and model and the third loader.  The
    hyperparameters are logged to the same logger before the trainer is
    built. *)
Theorem objective_engine_wiring {Ob : Objects} (ext : doubles Ob) (trial : nat)
  (h out : list (call Ob)) (st st' : dict) (v : float) :
  objective ext trial h st = (ok v, out, st') ->
  exists train_loader val_loader test_loader model f1_check logger trainer
         params,
    DataLoader ext (h ++ firstn 10 out) = ok train_loader
    /\ DataLoader ext (h ++ firstn 11 out) = ok val_loader
    /\ DataLoader ext (h ++ firstn 12 out) = ok test_loader
    /\ SimilarityModel ext (h ++ firstn 13 out) = ok model
    /\ ModelCheckpoint ext (h ++ firstn 14 out) = ok f1_check
    /\ TensorBoardLogger ext (h ++ firstn 15 out) = ok logger
    /\ pl_Trainer ext (h ++ firstn 17 out) = ok trainer
    /\ firstn 4 (skipn 15 out) =
         [call_log_hyperparams logger params;
          call_Trainer 400 logger [f1_check];
          call_fit trainer model train_loader val_loader;
          call_test trainer model test_loader].
Proof.
  intros H.
  destruct (objective_answers ext _ _ _ _ _ _ H)
    as (n_dims & batch_size & lr & data & train_dataset & val_dataset
        & test_dataset & class_vector & sampler & train_loader & val_loader
        & test_loader & model & f1_check & logger & trainer & first_result
        & rest & Hout & _ & _ & _ & _ & _ & _ & _ & _ & _ & Hl1 & Hl2 & Hl3
        & Hm & Hc & Hlg & _ & Htr & _).
  exists train_loader, val_loader, test_loader, model, f1_check, logger, trainer.
  eexists.
  split; [ exact Hl1 | ]. split; [ exact Hl2 | ]. split; [ exact Hl3 | ].
  split; [ exact Hm | ]. split; [ exact Hc | ]. split; [ exact Hlg | ].
  split; [ exact Htr | ]. rewrite Hout. reflexivity.
Qed.

(** X7.  Whatever way an evaluation ends, a checkpoint callback it builds
    monitors [val_f1], maximising, keeps one checkpoint and writes under
    [checkpoints_stratified]; a logger it builds writes under
    [tb_stratified]; and both are named [similarity-model-<n_dims>-<batch_size>]
    after the two values the evaluation printed, the checkpoint file with
    the epoch and validation metrics appended.  Neither the learning rate
    nor the trial number is part of the name. *)
Theorem objective_artifact_names {Ob : Objects} (ext : doubles Ob)
  (trial : nat) (h out : list (call Ob)) (st st' : dict) (r : result float) :
  objective ext trial h st = (r, out, st') ->
  (forall monitor dirpath filename save_top_k mode,
     In (call_ModelCheckpoint monitor dirpath filename save_top_k mode) out ->
     monitor = "val_f1"%string /\ dirpath = "checkpoints_stratified"%string
     /\ save_top_k = 1 /\ mode = "max"%string
     /\ exists n_dims batch_size lr,
          In (call_print (VDict [("n_dims", VInt n_dims);
                                 ("batch_size", VInt batch_size);
                                 ("lr", VFloat lr)]%string)) out
          /\ filename
             = (run_name n_dims batch_size
                  ++ "-{epoch:02d}-{val_loss:.2f}-{val_recall:.2f}-{val_f1:.2f}")%string)
  /\ (forall save_dir name,
        In (call_TensorBoardLogger save_dir name) out ->
        save_dir = "tb_stratified"%string
        /\ exists n_dims batch_size lr,
             In (call_print (VDict [("n_dims", VInt n_dims);
                                    ("batch_size", VInt batch_size);
                                    ("lr", VFloat lr)]%string)) out
             /\ name = run_name n_dims batch_size).
Proof.
  intros H. unfold_script H. repeat step_all.
  all: split;
    [ intros ? ? ? ? ? Hin; in_cases Hin;
      (injection Hin as <- <- <- <- <-;
       repeat (split; [ reflexivity | ]);
       do 3 eexists; (split; [ do 3 right; left; reflexivity | reflexivity ]))
    | intros ? ? Hin; in_cases Hin;
      (injection Hin as <- <-;
       split; [ reflexivity | ];
       do 3 eexists; (split; [ do 3 right; left; reflexivity | reflexivity ])) ].
Qed.

(** The concrete doubles: [n_dims = 1536] and [batch_size = 32]. *)
Lemma objective_artifact_names_witness :
  exists out st',
    objective stub 0 [] [] = (ok 0.75%float, out, st')
    /\ In (call_TensorBoardLogger "tb_stratified" "similarity-model-1536-32") out
    /\ (forall save_dir name,
          In (call_TensorBoardLogger save_dir name) out ->
          save_dir = "tb_stratified"%string).
Proof.
  destruct (objective stub 0 [] []) as [[r out] st'] eqn:E.
  pose proof (objective_artifact_names stub 0 [] out [] st' r E) as [_ Hn].
  vm_compute in E. injection E as <- <- <-.
  eexists. eexists. split; [ reflexivity | ].
  split; [ cbn [In]; do 14 right; left; reflexivity | ].
  intros save_dir name Hin. exact (proj1 (Hn save_dir name Hin)).
Defined.

(** The concrete doubles, whose objects are all the one token. *)
Lemma objective_engine_wiring_witness :
  exists out st' params,
    objective stub 0 [] [] = (ok 0.75%float, out, st')
    /\ firstn 4 (skipn 15 out) =
         [@call_log_hyperparams tokens tt params;
          @call_Trainer tokens 400 tt [tt];
          @call_fit tokens tt tt tt tt;
          @call_test tokens tt tt tt].
Proof.
  destruct (objective stub 0 [] []) as [[r out] st'] eqn:E.
  assert (Er : r = ok 0.75%float) by (vm_compute in E; injection E as <- _ _; reflexivity).
  subst r.
  destruct (objective_engine_wiring stub 0 [] out [] st' _ E)
    as (l1 & l2 & l3 & m & f & lg & tr & params & _ & _ & _ & _ & _ & _ & _ & Hf).
  exists out, st', params. split; [ reflexivity | ].
  destruct l1, l2, l3, m, f, lg, tr. exact Hf.
Defined.

(* ------------------------------------------------------------------ *)
(** ** Further properties of the run *)

(** *** The trials of a run, one after the other *)

Section Sequence.

Context {Ob : Objects} (ext : doubles Ob).

Lemma optimize_ran (n : nat) : forall (study study' : Study)
  (h out : list (call Ob)) (st st' : dict),
  optimize study (objective ext) n h st = (ok study', out, st') ->
  exists ts blocks,
    trials study' = trials study ++ ts
    /\ out = concat blocks
    /\ length ts = n /\ length blocks = n
    /\ ran ext h (length (trials study)) ts blocks.
Proof.
  induction n as [ | n IH ]; intros study study' h out st st' H.
  - cbn in H. unfold ret, ok in H. injection H as <- <- _.
    exists [], []. rewrite app_nil_r. repeat split; reflexivity.
  - rewrite optimize_step in H.
    destruct (objective ext (length (trials study)) h [])
      as [[[ e | v ] out1] st1] eqn:Eo; [ discriminate | ].
    destruct (optimize _ (objective ext) n (h ++ out1) st1)
      as [[r2 out2] st2] eqn:Er.
    injection H as -> <- <-.
    destruct (IH _ _ _ _ _ _ Er) as (ts & blocks & Ht & Ho & Hl & Hb & Hr).
    cbn [trials] in Ht, Hr.
    eexists (_ :: ts), (out1 :: blocks).
    split; [ rewrite Ht, <- app_assoc; reflexivity | ].
    split; [ rewrite Ho; reflexivity | ].
    split; [ simpl; lia | ]. split; [ simpl; lia | ].
    cbn [ran number params value].
    split; [ reflexivity | ].
    split; [ exists v; split; [ exact Eo | reflexivity ] | ].
    rewrite length_app, Nat.add_1_r in Hr. exact Hr.
Qed.

Lemma ran_length (ts : list FrozenTrial) : forall (blocks : list (list (call Ob)))
  (h : list (call Ob)) (first : nat),
  ran ext h first ts blocks -> length ts = length blocks.
Proof.
  induction ts as [ | t ts IH ]; intros [ | b blocks ] h first H;
    cbn [ran] in H; try contradiction; [ reflexivity | ].
  destruct H as (_ & _ & H). simpl. f_equal. eapply IH, H.
Qed.

(** The [k]-th of the trials. *)
Lemma ran_nth (ts : list FrozenTrial) : forall (blocks : list (list (call Ob)))
  (h : list (call Ob)) (first k : nat) (d : FrozenTrial),
  ran ext h first ts blocks -> (k < length ts)%nat ->
  number (nth k ts d) = (first + k)%nat
  /\ exists v,
       objective ext (first + k) (h ++ concat (firstn k blocks)) []
       = (ok v, nth k blocks [], params (nth k ts d))
       /\ value (nth k ts d) = if is_nan v then None else Some v.
Proof.
  induction ts as [ | t ts IH ]; intros [ | b blocks ] h first k d H Hk;
    cbn [ran] in H; try contradiction; [ simpl in Hk; lia | ].
  destruct H as (Hn & (v & Ho & Hv) & H).
  destruct k as [ | k ].
  - cbn [nth firstn concat]. rewrite app_nil_r, Nat.add_0_r.
    split; [ exact Hn | ]. exists v. split; assumption.
  - cbn [nth firstn concat]. simpl in Hk.
    destruct (IH blocks (h ++ b) (S first) k d H ltac:(lia)) as (Hn' & v' & Ho' & Hv').
    replace (first + S k)%nat with (S first + k)%nat by lia.
    split; [ exact Hn' | ]. exists v'. rewrite app_assoc. split; assumption.
Qed.

(** Every block is the log of an evaluation that returned. *)
Lemma ran_blocks (ts : list FrozenTrial) : forall (blocks : list (list (call Ob)))
  (h : list (call Ob)) (first : nat),
  ran ext h first ts blocks ->
  Forall (fun b => exists trial h' v st',
            objective ext trial h' [] = (ok v, b, st')) blocks.
Proof.
  induction ts as [ | t ts IH ]; intros [ | b blocks ] h first H;
    cbn [ran] in H; try contradiction; constructor.
  - destruct H as (_ & (v & Ho & _) & _). eexists _, _, _, _. exact Ho.
  - destruct H as (_ & _ & H). eapply IH, H.
Qed.

Lemma filter_concat_once {A} (q : A -> bool) (blocks : list (list A)) :
  Forall (fun b => length (filter q b) = 1%nat) blocks ->
  length (filter q (concat blocks)) = length blocks.
Proof.
  induction 1 as [ | b blocks Hb H IH ]; [ reflexivity | ].
  cbn [concat]. rewrite filter_app, length_app, Hb, IH. reflexivity.
Qed.

End Sequence.

Section Run.

Context {Ob : Objects} (ext : doubles Ob).

Lemma objective_block (trial : nat) (h b : list (call Ob)) (st st' : dict)
  (v : float) :
  objective ext trial h st = (ok v, b, st') ->
  length b = 20%nat
  /\ length (filter is_load_and_split_data b) = 1%nat
  /\ length (filter is_fit b) = 1%nat
  /\ length (filter is_test b) = 1%nat.
Proof.
  intros H.
  destruct (objective_ok ext _ _ _ _ _ _ H)
    as (? & ? & ? & ? & ? & ? & ? & ? & ? & ? & ? & ? & ? & ? & ? & ? & ? & ?
        & _ & -> & _).
  repeat split; reflexivity.
Qed.

Lemma length_concat_blocks {A} (n : nat) (blocks : list (list A)) :
  Forall (fun b => length b = n) blocks ->
  length (concat blocks) = (n * length blocks)%nat.
Proof.
  induction 1 as [ | b blocks Hb H IH ]; [ simpl; lia | ].
  cbn [concat length]. rewrite length_app, Hb, IH. lia.
Qed.

(** A run without a fault: the trials behind its log. *)
Lemma run_trials (out : list (call Ob)) :
  run (main ext) = (ok tt, out) ->
  exists study best blocks,
    direction study = "maximize"%string
    /\ length (trials study) = 20%nat /\ length blocks = 20%nat
    /\ ran ext [] 0 (trials study) blocks
    /\ best_trial study = ok best
    /\ out = concat blocks ++ summary study best.
Proof.
  intros H. rewrite run_main in H.
  destruct (optimize _ (objective ext) 20 [] []) as [[[ e | study ] body] st'] eqn:Eo;
    [ discriminate | ].
  destruct (best_trial study) as [ e | best ] eqn:Eb; [ discriminate | ].
  injection H as <-.
  destruct (optimize_ran ext 20 _ _ _ _ _ _ Eo) as (ts & blocks & Ht & Ho & Hl & Hb & Hr).
  cbn [trials app length] in Ht, Hr.
  destruct (optimize_ok ext 20 _ _ _ _ _ _ Eo) as (Hd & _).
  exists study, best, blocks. rewrite Ht.
  split; [ exact Hd | ]. split; [ exact Hl | ]. split; [ exact Hb | ]. split; [ exact Hr | ].
  split; [ exact Eb | ]. rewrite Ho. reflexivity.
Qed.

(** The best trial is one of the completed trials. *)
Lemma best_of_In (direction : string) (l : list FrozenTrial) :
  forall (init : option FrozenTrial) (b : FrozenTrial),
  best_of direction init l = Some b ->
  init = Some b \/ (In b l /\ value b <> None).
Proof.
  induction l as [ | t l IH ]; intros init b H; cbn [best_of] in H.
  - left. exact H.
  - destruct (value t) as [ v | ] eqn:Ev.
    + assert (Ht : Some t = Some b -> init = Some b \/ In b (t :: l) /\ value b <> None).
      { intros E. injection E as <-. right. split; [ left; reflexivity | ].
        rewrite Ev. discriminate. }
      destruct init as [ b0 | ].
      * destruct (value b0) as [ w | ].
        -- destruct (IH _ _ H) as [ E | [Hin Hv] ].
           ++ destruct (better direction v w); [ apply Ht; exact E | left; exact E ].
           ++ right. split; [ right; exact Hin | exact Hv ].
        -- destruct (IH _ _ H) as [ E | [Hin Hv] ]; [ apply Ht; exact E | ].
           right. split; [ right; exact Hin | exact Hv ].
      * destruct (IH _ _ H) as [ E | [Hin Hv] ]; [ apply Ht; exact E | ].
        right. split; [ right; exact Hin | exact Hv ].
    + destruct (IH _ _ H) as [ E | [Hin Hv] ]; [ left; exact E | ].
      right. split; [ right; exact Hin | exact Hv ].
Qed.

End Run.

(** X8.  A run of the script that ends without a fault is twenty
    evaluations of the objective, for the trials 0 to 19, one after the
    other: each starts when the one before has returned, and makes its own
    twenty calls.  So the data are loaded twenty times, and [fit] and
    [test] are called twenty times each; with the four lines of the summary
    the run makes 404 calls. *)
Theorem search_evaluates_in_sequence {Ob : Objects} (ext : doubles Ob)
  (out : list (call Ob)) :
  run (main ext) = (ok tt, out) ->
  exists blocks,
    length blocks = 20%nat
    /\ firstn 400 out = concat blocks
    /\ (forall k, (k < 20)%nat ->
        length (nth k blocks []) = 20%nat
        /\ exists v st',
             objective ext k (concat (firstn k blocks)) []
             = (ok v, nth k blocks [], st'))
    /\ length out = 404%nat
    /\ length (filter is_load_and_split_data out) = 20%nat
    /\ length (filter is_fit out) = 20%nat
    /\ length (filter is_test out) = 20%nat.
Proof.
  intros H.
  destruct (run_trials ext out H) as (study & best & blocks & _ & Hl & Hb & Hr & _ & ->).
  pose proof (ran_blocks ext _ _ _ _ Hr) as Hall.
  assert (H20 : Forall (fun b : list (call Ob) => length b = 20%nat) blocks).
  { eapply Forall_impl; [ | exact Hall ]. cbv beta.
    intros b (trial & h' & v & st' & Ho). apply (objective_block ext _ _ _ _ _ _ Ho). }
  assert (Hcount : forall q : call Ob -> bool,
            (forall trial h b st st' v,
               objective ext trial h st = (ok v, b, st') ->
               length (filter q b) = 1%nat) ->
            filter q (summary study best) = [] ->
            length (filter q (concat blocks ++ summary study best)) = 20%nat).
  { intros q Hq Hs. rewrite filter_app, Hs, app_nil_r, <- Hb.
    apply filter_concat_once. eapply Forall_impl; [ | exact Hall ]. cbv beta.
    intros b (trial & h' & v & st' & Ho). eapply Hq, Ho. }
  pose proof (length_concat_blocks 20 blocks H20) as Hlen. rewrite Hb in Hlen.
  exists blocks. split; [ exact Hb | ].
  split.
  { rewrite firstn_app. rewrite (firstn_all2 (n := 400) (concat blocks)) by lia.
    rewrite Hlen. change (400 - 20 * 20)%nat with O. apply app_nil_r. }
  split.
  { intros k Hk.
    destruct (ran_nth ext _ _ [] O k {| number := O; value := None; params := [] |} Hr
                ltac:(lia)) as (_ & v & Ho & _).
    cbn [app Nat.add] in Ho.
    split; [ apply (objective_block ext _ _ _ _ _ _ Ho) | ].
    exists v. eexists. exact Ho. }
  split; [ rewrite length_app, Hlen; reflexivity | ].
  split; [ | split ]; apply Hcount; try reflexivity;
    intros trial h b st st' v Ho; apply (objective_block ext _ _ _ _ _ _ Ho).
Qed.

(** The run against the concrete doubles. *)
Lemma search_evaluates_in_sequence_witness :
  exists out,
    run (main stub) = (ok tt, out)
    /\ length out = 404%nat
    /\ length (filter is_fit out) = 20%nat.
Proof.
  destruct (run (main stub)) as [r out] eqn:E.
  assert (Er : r = ok tt) by (vm_compute in E; injection E as <- _; reflexivity).
  subst r.
  destruct (search_evaluates_in_sequence stub out E) as (blocks & _ & _ & _ & Hl & _ & Hf & _).
  exists out. split; [ reflexivity | ]. split; [ exact Hl | exact Hf ].
Defined.

(** X9.  In a run that ends without a fault, the summary reports one of
    the twenty trials: the value printed is the number that trial's
    evaluation returned, which is not NaN, and the parameters printed are
    the dictionary that evaluation printed, with the three values suggested
    to it. *)
Theorem summary_reports_a_trial {Ob : Objects} (ext : doubles Ob)
  (out : list (call Ob)) :
  run (main ext) = (ok tt, out) ->
  exists blocks k v n_dims batch_size lr st',
    length blocks = 20%nat /\ (k < 20)%nat
    /\ objective ext k (concat (firstn k blocks)) []
       = (ok v, nth k blocks [], st')
    /\ is_nan v = false
    /\ nth 3 (nth k blocks []) (call_print VNone)
       = call_print (VDict [("n_dims", VInt n_dims);
                            ("batch_size", VInt batch_size);
                            ("lr", VFloat lr)]%string)
    /\ out = concat blocks
         ++ [call_print (VFString [VStr "Number of finished trials: "; VInt 20]);
             call_print (VFString [VStr "Best trial:"]);
             call_print (VFString [VStr "  Value: "; VFloat v]);
             call_print
               (VFString [VStr "  Params: ";
                          VDict [("n_dims", VInt n_dims);
                                 ("batch_size", VInt batch_size);
                                 ("lr", VFloat lr)]%string])].
Proof.
  intros H.
  destruct (run_trials ext out H) as (study & best & blocks & _ & Hl & Hb & Hr & Hbest & ->).
  unfold best_trial in Hbest.
  destruct (best_of (direction study) None (trials study)) as [ b | ] eqn:Ebo;
    [ | discriminate ].
  unfold ok in Hbest. injection Hbest as ->.
  destruct (best_of_In _ _ _ _ Ebo) as [ E | [Hin Hval] ]; [ discriminate | ].
  destruct (In_nth _ _ {| number := O; value := None; params := [] |} Hin)
    as (k & Hk & Hnth).
  destruct (ran_nth ext _ _ [] O k {| number := O; value := None; params := [] |} Hr Hk)
    as (_ & v & Ho & Hv).
  rewrite Hnth in Ho, Hv. cbn [app Nat.add] in Ho.
  destruct (is_nan v) eqn:Enan; [ congruence | ].
  destruct (objective_ok ext _ _ _ _ _ _ Ho)
    as (n_dims & batch_size & lr & ? & ? & ? & ? & ? & ? & ? & ? & ? & ? & ? & ?
        & ? & ? & ? & _ & Hblock & _ & _ & Hst).
  cbn in Hst.
  exists blocks, k, v, n_dims, batch_size, lr, (params best).
  split; [ exact Hb | ]. split; [ lia | ]. split; [ exact Ho | ].
  split; [ exact Enan | ]. split; [ rewrite Hblock; reflexivity | ].
  unfold summary. rewrite Hl, Hv, Hst. reflexivity.
Qed.

(** The run against the concrete doubles: equal values, the first trial is
    reported. *)
Lemma summary_reports_a_trial_witness :
  exists out,
    run (main stub) = (ok tt, out)
    /\ skipn 402 out =
         [call_print (VFString [VStr "  Value: "; VFloat 0.75]);
          call_print
            (VFString [VStr "  Params: ";
                       VDict [("n_dims", VInt 1536); ("batch_size", VInt 32);
                              ("lr", VFloat 1e-4)]%string])].
Proof.
  destruct (run (main stub)) as [r out] eqn:E.
  assert (Er : r = ok tt) by (vm_compute in E; injection E as <- _; reflexivity).
  subst r.
  destruct (summary_reports_a_trial stub out E)
    as (blocks & k & v & n & b & lr & st' & _ & _ & _ & _ & _ & _).
  exists out. split; [ reflexivity | ].
  vm_compute in E. injection E as <-. reflexivity.
Defined.

(** *** The order of floats and the best trial *)

Lemma SFltb_key (a b : spec_float) :
  SFltb a b = true <->
  a <> S754_nan /\ b <> S754_nan /\ key_lt (float_key a) (float_key b).
Proof.
  unfold SFltb, key_lt.
  destruct a as [ sa | sa | | sa ma ea ], b as [ sb | sb | | sb mb eb ];
    cbn [SFcompare float_key fst snd];
    try (split; [ discriminate | intros (Ha & Hb & _); congruence ]);
    try (destruct sa); try (destruct sb);
    cbn [fst snd];
    try (split; [ intros _; repeat split; try discriminate; lia
                | reflexivity ]);
    try (split; [ discriminate | intros (_ & _ & H); lia ]).
  - change (PosDef.Pos.compare_cont Eq ma mb) with (Pos.compare ma mb).
    destruct (Z.compare_spec ea eb), (Pos.compare_spec ma mb); cbn [CompOpp];
      (split; [ try discriminate; intros _; repeat split; try discriminate; lia
              | intros (_ & _ & Hk); try reflexivity; lia ]).
  - change (PosDef.Pos.compare_cont Eq ma mb) with (Pos.compare ma mb).
    destruct (Z.compare_spec ea eb), (Pos.compare_spec ma mb);
      (split; [ try discriminate; intros _; repeat split; try discriminate; lia
              | intros (_ & _ & Hk); try reflexivity; lia ]).
Qed.

Lemma ltb_trans (x y z : float) :
  (x <? y)%float = true -> (y <? z)%float = true -> (x <? z)%float = true.
Proof.
  rewrite !FloatAxioms.ltb_spec, !SFltb_key. unfold key_lt.
  intros (Hx & Hy & H1) (_ & Hz & H2). repeat split; try assumption. lia.
Qed.

Lemma ltb_irrefl (x : float) : (x <? x)%float = false.
Proof.
  destruct (x <? x)%float eqn:E; [ | reflexivity ].
  rewrite FloatAxioms.ltb_spec, SFltb_key in E. unfold key_lt in E.
  destruct E as (_ & _ & H). lia.
Qed.

(** Scanning the trials only ever moves to a greater value. *)
Lemma best_of_grows (l : list FrozenTrial) :
  forall (c b : FrozenTrial) (w0 : float),
  best_of "maximize" (Some c) l = Some b -> value c = Some w0 ->
  exists w, value b = Some w /\ (b = c \/ (w0 <? w)%float = true).
Proof.
  induction l as [ | t l IH ]; intros c b w0 H Hc; cbn [best_of] in H.
  - injection H as <-. exists w0. split; [ exact Hc | left; reflexivity ].
  - destruct (value t) as [ v | ] eqn:Ev; [ | eapply IH; eassumption ].
    rewrite Hc in H. unfold better in H. cbn [String.eqb] in H.
    change (String.eqb "maximize" "maximize") with true in H. cbv iota in H.
    destruct (w0 <? v)%float eqn:Elt.
    + destruct (IH _ _ _ H Ev) as (w & Hw & [ -> | Hlt ]).
      * exists v. split; [ exact Ev | right; exact Elt ].
      * exists w. split; [ exact Hw | right ]. eapply ltb_trans; eassumption.
    + eapply IH; eassumption.
Qed.

(** No completed trial has a greater value than the best one. *)
Lemma best_of_max (l : list FrozenTrial) :
  forall (init : option FrozenTrial) (b : FrozenTrial) (w : float),
  best_of "maximize" init l = Some b ->
  (forall c, init = Some c -> value c <> None) ->
  value b = Some w ->
  forall t u, In t l -> value t = Some u -> (w <? u)%float = false.
Proof.
  induction l as [ | t l IH ]; intros init b w H Hinit Hb t' u Hin Hu;
    [ destruct Hin | ].
  cbn [best_of] in H.
  assert (Hnew : forall v, value t = Some v ->
            best_of "maximize" (Some t) l = Some b ->
            (w <? v)%float = false).
  { intros v Ev H'. destruct (best_of_grows _ _ _ _ H' Ev) as (w' & Hw' & [ -> | Hlt ]).
    - rewrite Ev in Hb. injection Hb as ->. apply ltb_irrefl.
    - rewrite Hb in Hw'. injection Hw' as <-.
      destruct (w <? v)%float eqn:E; [ | reflexivity ].
      pose proof (ltb_trans _ _ _ Hlt E) as Hc. rewrite ltb_irrefl in Hc. discriminate. }
  destruct (value t) as [ v | ] eqn:Ev.
  - destruct init as [ c | ].
    + destruct (value c) as [ w0 | ] eqn:Ec;
        [ | exfalso; apply (Hinit c eq_refl); exact Ec ].
      unfold better in H. change (String.eqb "maximize" "maximize") with true in H.
      cbv iota in H.
      destruct (w0 <? v)%float eqn:Elt.
      * destruct Hin as [ <- | Hin ].
        -- rewrite Ev in Hu. injection Hu as <-. apply Hnew; [ reflexivity | exact H ].
        -- eapply (IH (Some t)); try eassumption.
           intros c' E. injection E as <-. rewrite Ev. discriminate.
      * destruct Hin as [ <- | Hin ].
        -- rewrite Ev in Hu. injection Hu as <-.
           destruct (best_of_grows _ _ _ _ H Ec) as (w' & Hw' & [ -> | Hlt ]).
           ++ rewrite Ec in Hb. injection Hb as <-. exact Elt.
           ++ rewrite Hb in Hw'. injection Hw' as <-.
              destruct (w <? v)%float eqn:E; [ | reflexivity ].
              pose proof (ltb_trans _ _ _ Hlt E) as Hc. congruence.
        -- eapply (IH (Some c)); eassumption.
    + destruct Hin as [ <- | Hin ].
      * rewrite Ev in Hu. injection Hu as <-. apply Hnew; [ reflexivity | exact H ].
      * eapply (IH (Some t)); try eassumption.
        intros c' E. injection E as <-. rewrite Ev. discriminate.
  - destruct Hin as [ <- | Hin ]; [ congruence | ].
    eapply (IH init); eassumption.
Qed.

(** X10.  In a run that ends without a fault, the value the summary prints
    is the greatest the search has seen: it is the value of a trial, and no
    evaluation of the twenty returned a number greater than it. *)
Theorem summary_reports_the_greatest {Ob : Objects} (ext : doubles Ob)
  (out : list (call Ob)) :
  run (main ext) = (ok tt, out) ->
  exists blocks v,
    length blocks = 20%nat
    /\ firstn 400 out = concat blocks
    /\ nth 402 out (call_print VNone)
       = call_print (VFString [VStr "  Value: "; VFloat v])
    /\ (exists k st', (k < 20)%nat
          /\ objective ext k (concat (firstn k blocks)) []
             = (ok v, nth k blocks [], st'))
    /\ forall j u st',
         (j < 20)%nat ->
         objective ext j (concat (firstn j blocks)) []
         = (ok u, nth j blocks [], st') ->
         is_nan u = false ->
         (v <? u)%float = false.
Proof.
  intros H.
  destruct (run_trials ext out H)
    as (study & best & blocks & Hd & Hl & Hb & Hr & Hbest & ->).
  unfold best_trial in Hbest. rewrite Hd in Hbest.
  destruct (best_of "maximize" None (trials study)) as [ b | ] eqn:Ebo;
    [ | discriminate ].
  unfold ok in Hbest. injection Hbest as ->.
  destruct (best_of_In _ _ _ _ Ebo) as [ E | [Hin Hval] ]; [ discriminate | ].
  destruct (value best) as [ v | ] eqn:Ev; [ clear Hval | congruence ].
  set (d := {| number := O; value := None; params := [] |}).
  assert (H20 : Forall (fun b : list (call Ob) => length b = 20%nat) blocks).
  { eapply Forall_impl; [ | exact (ran_blocks ext _ _ _ _ Hr) ]. cbv beta.
    intros b (trial & h' & v' & st' & Ho). apply (objective_block ext _ _ _ _ _ _ Ho). }
  pose proof (length_concat_blocks 20 blocks H20) as Hlen. rewrite Hb in Hlen.
  exists blocks, v. split; [ exact Hb | ].
  split.
  { rewrite firstn_app. rewrite (firstn_all2 (n := 400) (concat blocks)) by lia.
    rewrite Hlen. change (400 - 20 * 20)%nat with O. apply app_nil_r. }
  split.
  { rewrite app_nth2 by lia. rewrite Hlen.
    change (402 - 20 * 20)%nat with 2%nat. unfold summary. cbn [nth].
    rewrite Ev. reflexivity. }
  split.
  { destruct (In_nth _ _ d Hin) as (k & Hk & Hnth).
    destruct (ran_nth ext _ _ [] O k d Hr Hk) as (_ & v' & Ho & Hv).
    rewrite Hnth, Ev in Hv. cbn [app Nat.add] in Ho.
    destruct (is_nan v'); [ discriminate | ]. injection Hv as <-.
    exists k. eexists. split; [ lia | exact Ho ]. }
  intros j u st' Hj Ho Hnan.
  destruct (ran_nth ext _ _ [] O j d Hr ltac:(lia)) as (_ & u' & Ho' & Hu).
  cbn [app Nat.add] in Ho'. rewrite Ho in Ho'. injection Ho' as <- _.
  rewrite Hnan in Hu.
  eapply (best_of_max (trials study) None best v Ebo); [ discriminate | exact Ev | | exact Hu ].
  apply nth_In. lia.
Qed.

(** The run against the concrete doubles: every trial returns 0.75. *)
Lemma summary_reports_the_greatest_witness :
  exists out,
    run (main stub) = (ok tt, out)
    /\ nth 402 out (call_print VNone)
       = call_print (VFString [VStr "  Value: "; VFloat 0.75]).
Proof.
  destruct (run (main stub)) as [r out] eqn:E.
  assert (Er : r = ok tt) by (vm_compute in E; injection E as <- _; reflexivity).
  subst r.
  destruct (summary_reports_the_greatest stub out E) as (blocks & v & _).
  exists out. split; [ reflexivity | ].
  vm_compute in E. injection E as <-. reflexivity.
Defined.
